(** * ClimbComp: the competition report (standings and leaderboard)

    A shallow embedding of
      - server/sql/001_init.sql: the schema and the stored procedure
        [competition_division_podiums];
      - server/src/routes/reports.ts: the handler of
        GET /api/reports/competition/:id/summary;
      - server/src/routes/problems.ts and server/src/routes/competitions.ts:
        the handlers that write the tables the report reads (logging an
        ascent, deleting a problem, joining a competition, deleting a
        division) and the list of the divisions of a competition.

    Tables are lists of rows (SQL bags) and a nullable column is an [option];
    the columns that no modelled query reads are left out.
    SQL integers are [Z]: the counts and sums of a query are [bigint]s, taken
    as unbounded, and where a value is stored in or returned through a
    column of type [integer] (the columns of [ascents], the result columns
    of the procedure) a value out of the 32-bit range fails the statement,
    which the handlers answer with 500. A uuid is a number: requests carry
    well-formed ids, and a division filter is either absent or an id. Text is
    ordered byte-wise (the "C" collation). [ORDER BY] is a merge sort: rows
    that tie on every key come out in one order of the several that SQL
    allows, so what is proved of the order of rows is that they are sorted,
    or that they are a permutation, or holds under a key that leaves no tie.
    Queries are written with a handful of relational combinators that follow
    the SQL clause by clause. *)

From Stdlib Require Import ZArith String Ascii.
From stdpp Require Import sorting.
From stdpp Require Import base list gmap sets strings numbers.

Open Scope Z_scope.

Abbreviation uuid := N (only parsing).

(** ** Schema *)

Module User.
Record t := mk { id : uuid; display_name : string }.
End User.

(** The columns the report reads from [competitions]. *)
Module CompetitionRow.
Record t := mk { id : uuid; title : string }.
End CompetitionRow.

Module Division.
Record t := mk {
  id : uuid; competition_id : uuid; name : string; sort_order : option Z }.
End Division.

Module Participant.
Record t := mk {
  competition_id : uuid; user_id : uuid; division_id : option uuid }.
End Participant.

Module Problem.
Record t := mk {
  id : uuid; competition_id : uuid; division_id : option uuid }.
End Problem.

Module Ascent.
Record t := mk {
  problem_id : uuid; user_id : uuid;
  topped : bool; top_attempts : option Z;
  zone : bool; zone_attempts : option Z }.
End Ascent.

Record Database := {
  users : list User.t;
  competitions : list CompetitionRow.t;
  divisions : list Division.t;
  competition_participants : list Participant.t;
  problems : list Problem.t;
  ascents : list Ascent.t }.

#[global] Instance user_eq_dec : EqDecision User.t.
Proof. solve_decision. Defined.
#[global] Instance competition_eq_dec : EqDecision CompetitionRow.t.
Proof. solve_decision. Defined.
#[global] Instance division_eq_dec : EqDecision Division.t.
Proof. solve_decision. Defined.
#[global] Instance participant_eq_dec : EqDecision Participant.t.
Proof. solve_decision. Defined.
#[global] Instance problem_eq_dec : EqDecision Problem.t.
Proof. solve_decision. Defined.
#[global] Instance ascent_eq_dec : EqDecision Ascent.t.
Proof. solve_decision. Defined.

(** The primary keys and the unique constraint of the schema that the
    theorems below rely on. *)
Definition divisions_pkey (db : Database) : Prop :=
  NoDup (Division.id <$> divisions db).
Definition problems_pkey (db : Database) : Prop :=
  NoDup (Problem.id <$> problems db).
Definition ascents_pkey (db : Database) : Prop :=
  NoDup ((λ a, (Ascent.problem_id a, Ascent.user_id a)) <$> ascents db).
Definition divisions_competition_id_name_key (db : Database) : Prop :=
  NoDup ((λ d, (Division.competition_id d, Division.name d)) <$> divisions db).

(** The values of the type [integer]. *)
Definition int4 (z : Z) : Prop := -2147483648 ≤ z ≤ 2147483647.

#[global] Instance int4_dec z : Decision (int4 z).
Proof. unfold int4. apply _. Defined.

(** ** Relational combinators *)

(** [FROM l JOIN k ON on] as a nested loop. *)
Definition inner_join {A B} (l : list A) (k : list B)
    (on : A * B → Prop) `{∀ r, Decision (on r)} : list (A * B) :=
  x ← l; y ← k; if decide (on (x, y)) then [(x, y)] else [].

(** [FROM l LEFT JOIN k ON on]: a row of [l] without a partner is kept once,
    with the right side null. *)
Definition left_join_row {A B} (k : list B)
    (on : A * B → Prop) `{∀ r, Decision (on r)} (x : A)
  : list (A * option B) :=
  match filter (λ y, on (x, y)) k with
  | [] => [(x, None)]
  | ys => (λ y, (x, Some y)) <$> ys
  end.

Definition left_join {A B} (l : list A) (k : list B)
    (on : A * B → Prop) `{∀ r, Decision (on r)} : list (A * option B) :=
  x ← l; left_join_row k on x.

(** [l UNION k]: duplicates are removed. *)
Definition sql_union {A} `{EqDecision A} (l k : list A) : list A :=
  remove_dups (l ++ k).

(** [COUNT( * )] and [COUNT(DISTINCT x)]. *)
Definition count {A} (l : list A) : Z := Z.of_nat (length l).
Definition count_distinct {A} `{EqDecision A} (l : list A) : Z :=
  Z.of_nat (length (remove_dups l)).

(** [SUM(x)]: nulls are skipped, and the sum of no value at all is null. *)
Definition sql_sum (l : list (option Z)) : option Z :=
  foldl (λ acc v,
           match v, acc with
           | None, _ => acc
           | Some x, None => Some x
           | Some x, Some s => Some (s + x)
           end) None l.

(** [COALESCE(o, d)], and a scalar subquery, whose value may be null. *)
Definition coalesce {A} (o : option A) (d : A) : A := default d o.
Definition scalar {A} (x : A) : option A := Some x.

(** [ORDER BY] keys are comparisons, chained from left to right. *)
Definition asc {A K} (cmp : K → K → comparison) (f : A → K)
  : A → A → comparison := λ x y, cmp (f x) (f y).
Definition desc {A K} (cmp : K → K → comparison) (f : A → K)
  : A → A → comparison := λ x y, cmp (f y) (f x).
Definition then_by {A} (c1 c2 : A → A → comparison)
  : A → A → comparison :=
  λ x y, match c1 x y with Eq => c2 x y | r => r end.
Definition nulls_last {K} (cmp : K → K → comparison)
  : option K → option K → comparison :=
  λ x y, match x, y with
         | Some a, Some b => cmp a b
         | Some _, None => Lt
         | None, Some _ => Gt
         | None, None => Eq
         end.

Definition cmp_le {A} (cmp : A → A → comparison) : relation A :=
  λ x y, cmp x y ≠ Gt.

Definition order_by {A} (cmp : A → A → comparison) (l : list A) : list A :=
  merge_sort (cmp_le cmp) l.

(** A comparison that behaves as a total preorder: [Eq] is a congruence and
    [Lt] is transitive. Every [ORDER BY] chain of the program is one. *)
Class CmpOrder {A} (cmp : A → A → comparison) : Prop := {
  cmp_antisym x y : cmp y x = CompOpp (cmp x y);
  cmp_lt_trans x y z : cmp x y = Lt → cmp y z = Lt → cmp x z = Lt;
  cmp_eq_l x y z : cmp x y = Eq → cmp x z = cmp y z }.
Arguments cmp_antisym {A} cmp {_} x y.
Arguments cmp_lt_trans {A} cmp {_} x y z.
Arguments cmp_eq_l {A} cmp {_} x y z.

(** [dense_rank() OVER (ORDER BY cmp)] on an ordered partition: the counter
    starts at 1 and moves on by one whenever a row is not a peer of the row
    before it. *)
Fixpoint dense_rank_from {A} (cmp : A → A → comparison)
    (prev : A) (r : Z) (l : list A) : list (A * Z) :=
  match l with
  | [] => []
  | x :: l' =>
      let r' := if decide (cmp prev x = Eq) then r else r + 1 in
      (x, r') :: dense_rank_from cmp x r' l'
  end.

Definition dense_rank {A} (cmp : A → A → comparison) (l : list A)
  : list (A * Z) :=
  match l with
  | [] => []
  | x :: l' => (x, 1) :: dense_rank_from cmp x 1 l'
  end.

(** [dense_rank() OVER (PARTITION BY part ORDER BY cmp)]. *)
Definition dense_rank_over {A P} `{EqDecision P} (part : A → P)
    (cmp : A → A → comparison) (rows : list A) : list (A * Z) :=
  g ← remove_dups (part <$> rows);
  dense_rank cmp (order_by cmp (filter (λ x, part x = g) rows)).

(** ** The stored procedure [competition_division_podiums] *)

Module DivisionProblem.
Record t := mk {
  problem_id : uuid; division_id : uuid; division_name : string }.
End DivisionProblem.

Module PerUser.
Record t := mk {
  division_id : uuid; division_name : string; user_id : uuid;
  total_tops : Z; total_zones : Z;
  total_top_attempts : Z; total_zone_attempts : Z }.
End PerUser.

(** A row of the CTE [ranked] and of the procedure's result, where the
    column [rnk] is returned as [rank]. *)
Module PodiumRow.
Record t := mk {
  competition_id : uuid; division_id : uuid; division_name : string;
  user_id : uuid; user_display_name : string; rank : Z;
  total_tops : Z; total_zones : Z;
  total_top_attempts : Z; total_zone_attempts : Z }.
End PodiumRow.

#[global] Instance division_problem_eq_dec : EqDecision DivisionProblem.t.
Proof. solve_decision. Defined.
#[global] Instance per_user_eq_dec : EqDecision PerUser.t.
Proof. solve_decision. Defined.
#[global] Instance podium_row_eq_dec : EqDecision PodiumRow.t.
Proof. solve_decision. Defined.

Definition division_problems (db : Database) (_competition_id : uuid)
  : list DivisionProblem.t :=
  (λ r, DivisionProblem.mk (Problem.id r.1) (Division.id r.2) (Division.name r.2))
    <$> filter (λ r, Problem.competition_id r.1 = _competition_id)
          (inner_join (problems db) (divisions db)
             (λ r, Problem.division_id r.1 = Some (Division.id r.2))).

(** The grouping columns of [per_user]. *)
Definition per_user_group (r : DivisionProblem.t * Ascent.t)
  : uuid * string * uuid :=
  (DivisionProblem.division_id r.1, DivisionProblem.division_name r.1,
   Ascent.user_id r.2).

(** [FROM division_problems dp JOIN ascents a ON a.problem_id = dp.problem_id]. *)
Definition per_user_joined (db : Database) (_competition_id : uuid)
  : list (DivisionProblem.t * Ascent.t) :=
  inner_join (division_problems db _competition_id) (ascents db)
    (λ r, Ascent.problem_id r.2 = DivisionProblem.problem_id r.1).

(** The aggregates of the group [g] of [per_user]. *)
Definition per_user_row (joined : list (DivisionProblem.t * Ascent.t))
    (g : uuid * string * uuid) : PerUser.t :=
  let rows := filter (λ r, per_user_group r = g) joined in
  PerUser.mk g.1.1 g.1.2 g.2
    (count (filter (λ r, Ascent.topped r.2 = true) rows))
    (count (filter (λ r, Ascent.zone r.2 = true) rows))
    (coalesce (sql_sum ((λ r, Ascent.top_attempts r.2) <$> rows)) 0)
    (coalesce (sql_sum ((λ r, Ascent.zone_attempts r.2) <$> rows)) 0).

Definition per_user (db : Database) (_competition_id : uuid)
  : list PerUser.t :=
  let joined := per_user_joined db _competition_id in
  per_user_row joined <$> remove_dups (per_user_group <$> joined).

(** The window ordering of [ranked]. *)
Definition ranked_order : PerUser.t * User.t → PerUser.t * User.t → comparison :=
  then_by (desc Z.compare (λ r, PerUser.total_tops r.1))
  (then_by (desc Z.compare (λ r, PerUser.total_zones r.1))
  (then_by (asc Z.compare (λ r, PerUser.total_top_attempts r.1))
  (then_by (asc Z.compare (λ r, PerUser.total_zone_attempts r.1))
           (asc String.compare (λ r, User.display_name r.2))))).

Definition ranked_row (_competition_id : uuid) (r : PerUser.t * User.t * Z)
  : PodiumRow.t :=
  let p := r.1.1 in
  let u := r.1.2 in
  PodiumRow.mk _competition_id (PerUser.division_id p)
    (PerUser.division_name p) (User.id u) (User.display_name u) r.2
    (PerUser.total_tops p) (PerUser.total_zones p)
    (PerUser.total_top_attempts p) (PerUser.total_zone_attempts p).

(** [FROM per_user p JOIN users u ON u.id = p.user_id]. *)
Definition ranked_joined (db : Database) (_competition_id : uuid)
  : list (PerUser.t * User.t) :=
  inner_join (per_user db _competition_id) (users db)
    (λ r, User.id r.2 = PerUser.user_id r.1).

Definition ranked (db : Database) (_competition_id : uuid)
  : list PodiumRow.t :=
  ranked_row _competition_id
    <$> dense_rank_over (λ r, PerUser.division_id r.1) ranked_order
          (ranked_joined db _competition_id).

(** The final [ORDER BY division_name, rank, user_display_name]. *)
Definition podiums_order : PodiumRow.t → PodiumRow.t → comparison :=
  then_by (asc String.compare PodiumRow.division_name)
  (then_by (asc Z.compare PodiumRow.rank)
           (asc String.compare PodiumRow.user_display_name)).

(** The final SELECT of the procedure: its ranks, counts and sums are
    [bigint]s. *)
Definition podiums_select (db : Database)
    (_competition_id : uuid) (_max_rank : Z) : list PodiumRow.t :=
  order_by podiums_order
    (filter (λ r, PodiumRow.rank r ≤ _max_rank) (ranked db _competition_id)).

(** The result columns [rank], [total_tops], [total_zones],
    [total_top_attempts] and [total_zone_attempts] are declared [integer]:
    each row of the final SELECT is cast to them. *)
Definition integer_columns (r : PodiumRow.t) : Prop :=
  int4 (PodiumRow.rank r)
  ∧ int4 (PodiumRow.total_tops r) ∧ int4 (PodiumRow.total_zones r)
  ∧ int4 (PodiumRow.total_top_attempts r)
  ∧ int4 (PodiumRow.total_zone_attempts r).

#[global] Instance integer_columns_dec r : Decision (integer_columns r).
Proof. unfold integer_columns. apply _. Defined.

(** The procedure: the rows of the final SELECT, or nothing when the cast of
    a row fails with "integer out of range". *)
Definition competition_division_podiums (db : Database)
    (_competition_id : uuid) (_max_rank : Z) : option (list PodiumRow.t) :=
  let rows := podiums_select db _competition_id _max_rank in
  if decide (Forall integer_columns rows) then Some rows else None.

(** ** The handler of GET /competition/:id/summary *)

Module DivisionSummaryRow.
Record t := mk {
  division_id : uuid; division_name : string;
  participant_count : Z; problem_count : Z;
  total_tops : Z; total_zones : Z }.
End DivisionSummaryRow.

Module Standing.
Record t := mk {
  user_id : uuid; user_display_name : string; rank : Z;
  total_tops : Z; total_zones : Z;
  total_top_attempts : Z; total_zone_attempts : Z }.
End Standing.

Module DivisionReport.
Record t := mk {
  division_id : uuid; division_name : string;
  participant_count : Z; problem_count : Z;
  total_tops : Z; total_zones : Z;
  podium : list Standing.t }.
End DivisionReport.

Module CompetitionReport.
Record t := mk {
  competition : CompetitionRow.t;
  divisions : list DivisionReport.t }.
End CompetitionReport.

(** What the handler answers: 404, 500 when a query fails, or the JSON
    report. *)
Inductive Response :=
  | NotFound
  | ServerError
  | Report (r : CompetitionReport.t).

(** The problems of competition [$1] in division [d.id]
    ([p.competition_id = $1 AND p.division_id = d.id]; a null division
    matches nothing). *)
Definition in_division (cid did : uuid) (p : Problem.t) : Prop :=
  Problem.competition_id p = cid ∧ Problem.division_id p = Some did.

#[global] Instance in_division_dec cid did p : Decision (in_division cid did p).
Proof. unfold in_division. apply _. Defined.

(** The four correlated subqueries of [summarySql]. *)
Definition participant_count (db : Database) (cid did : uuid) : Z :=
  coalesce
    (scalar
       (count_distinct
          (sql_union
             (Participant.user_id
                <$> filter (λ cp, Participant.competition_id cp = cid
                                  ∧ Participant.division_id cp = Some did)
                      (competition_participants db))
             ((λ r, Ascent.user_id r.2)
                <$> filter (λ r, in_division cid did r.1)
                      (inner_join (problems db) (ascents db)
                         (λ r, Ascent.problem_id r.2 = Problem.id r.1))))))
    0.

Definition problem_count (db : Database) (cid did : uuid) : Z :=
  coalesce (scalar (count (filter (in_division cid did) (problems db)))) 0.

(** [AND a.topped] on a left-joined row: a null [a] is not true. *)
Definition ascent_flag (f : Ascent.t → bool) (a : option Ascent.t) : Prop :=
  (f <$> a) = Some true.

#[global] Instance ascent_flag_dec f a : Decision (ascent_flag f a).
Proof. unfold ascent_flag. apply _. Defined.

Definition total_tops (db : Database) (cid did : uuid) : Z :=
  coalesce
    (scalar
       (count (filter (λ r, in_division cid did r.1
                            ∧ ascent_flag Ascent.topped r.2)
                 (left_join (problems db) (ascents db)
                    (λ r, Ascent.problem_id r.2 = Problem.id r.1)))))
    0.

Definition total_zones (db : Database) (cid did : uuid) : Z :=
  coalesce
    (scalar
       (count (filter (λ r, in_division cid did r.1
                            ∧ ascent_flag Ascent.zone r.2)
                 (left_join (problems db) (ascents db)
                    (λ r, Ascent.problem_id r.2 = Problem.id r.1)))))
    0.

(** [ORDER BY d.sort_order NULLS LAST, d.name]. *)
Definition summary_order : Division.t → Division.t → comparison :=
  then_by (asc (nulls_last Z.compare) Division.sort_order)
          (asc String.compare Division.name).

(** [divisionFilterClause]: "AND d.id = $2" when [division_id] is given. *)
Definition divisionFilterClause (division_id : option uuid) (d : Division.t)
  : Prop :=
  match division_id with
  | Some f => Division.id d = f
  | None => True
  end.

#[global] Instance divisionFilterClause_dec division_id d :
  Decision (divisionFilterClause division_id d).
Proof. destruct division_id; simpl; apply _. Defined.

(** The select list of [summarySql] for the division [d]. *)
Definition summary_row (db : Database) (id : uuid) (d : Division.t)
  : DivisionSummaryRow.t :=
  DivisionSummaryRow.mk (Division.id d) (Division.name d)
    (participant_count db id (Division.id d))
    (problem_count db id (Division.id d))
    (total_tops db id (Division.id d))
    (total_zones db id (Division.id d)).

Definition summaries (db : Database) (id : uuid) (division_id : option uuid)
  : list DivisionSummaryRow.t :=
  summary_row db id
    <$> order_by summary_order
          (filter (λ d, Division.competition_id d = id
                        ∧ divisionFilterClause division_id d)
             (divisions db)).

(** The [WHERE division_id = $2] that [podiumSql] gets when the filter is
    given. *)
Definition podium_filter (division_id : option uuid)
    (rows : list PodiumRow.t) : list PodiumRow.t :=
  match division_id with
  | Some f => filter (λ p, PodiumRow.division_id p = f) rows
  | None => rows
  end.

(** [podiumSql]: the procedure with [_max_rank = 3], called in full and then
    restricted to [division_id]. *)
Definition podiumRows (db : Database) (id : uuid) (division_id : option uuid)
  : option (list PodiumRow.t) :=
  podium_filter division_id <$> competition_division_podiums db id 3.

Definition standing (p : PodiumRow.t) : Standing.t :=
  Standing.mk (PodiumRow.user_id p) (PodiumRow.user_display_name p)
    (PodiumRow.rank p) (PodiumRow.total_tops p) (PodiumRow.total_zones p)
    (PodiumRow.total_top_attempts p) (PodiumRow.total_zone_attempts p).

Definition division_report (rows : list PodiumRow.t)
    (s : DivisionSummaryRow.t) : DivisionReport.t :=
  DivisionReport.mk
    (DivisionSummaryRow.division_id s) (DivisionSummaryRow.division_name s)
    (DivisionSummaryRow.participant_count s)
    (DivisionSummaryRow.problem_count s)
    (DivisionSummaryRow.total_tops s) (DivisionSummaryRow.total_zones s)
    (standing
       <$> filter (λ p, PodiumRow.division_id p = DivisionSummaryRow.division_id s)
             rows).

(** The handler: 404 when [comps[0]] is undefined; 500 when the podium
    query fails ([catch (err)]); else the competition with each summary
    paired with the podium rows of its division. *)
Definition competition_summary (db : Database) (id : uuid)
    (division_id : option uuid) : Response :=
  let comps := filter (λ c, CompetitionRow.id c = id) (competitions db) in
  match comps with
  | [] => NotFound
  | comp :: _ =>
      let summaries := summaries db id division_id in
      match podiumRows db id division_id with
      | None => ServerError
      | Some podiumRows =>
          Report (CompetitionReport.mk
                    (CompetitionRow.mk (CompetitionRow.id comp)
                       (CompetitionRow.title comp))
                    (division_report podiumRows <$> summaries))
      end
  end.


(** ** The handlers that write the tables of the report

    server/src/routes/problems.ts and server/src/routes/competitions.ts.
    A handler takes the database and answers with the database it leaves
    behind and a response. [req.user], set by [requireAuth], is the id of
    the caller or nothing. The statements of a handler run one after the
    other with no other request in between. *)

(** The columns of [competitions] that these handlers read; none of them
    writes that table. *)
Module CompetitionAccess.
Record t := mk {
  id : uuid; is_public : bool; starts_at : option Z;
  created_by : option uuid }.
End CompetitionAccess.

(** The answers: 200, 201 or 204 with a body, 400, 401, 403, 404, and 500
    when a statement is refused by the database. *)
Module Http.
Inductive t (A : Type) : Type :=
  | Ok (body : A)
  | BadRequest
  | Unauthenticated
  | Forbidden
  | NotFound
  | ServerError.
Arguments Ok {A} body.
Arguments BadRequest {A}.
Arguments Unauthenticated {A}.
Arguments Forbidden {A}.
Arguments NotFound {A}.
Arguments ServerError {A}.
End Http.

Definition set_ascents (db : Database) (l : list Ascent.t) : Database := {|
  users := users db;
  competitions := competitions db;
  divisions := divisions db;
  competition_participants := competition_participants db;
  problems := problems db;
  ascents := l |}.

Definition set_competition_participants (db : Database)
    (l : list Participant.t) : Database := {|
  users := users db;
  competitions := competitions db;
  divisions := divisions db;
  competition_participants := l;
  problems := problems db;
  ascents := ascents db |}.

Definition set_problems (db : Database) (l : list Problem.t) : Database := {|
  users := users db;
  competitions := competitions db;
  divisions := divisions db;
  competition_participants := competition_participants db;
  problems := l;
  ascents := ascents db |}.

(** [users(id)] as the target of a foreign key. *)
Definition user_exists (db : Database) (u : uuid) : Prop :=
  Exists (λ r, User.id r = u) (users db).

#[global] Instance user_exists_dec db u : Decision (user_exists db u).
Proof. unfold user_exists. apply _. Defined.

(** *** POST /api/problems/:id/ascents *)

(** The body of the request; every field may be left out. *)
Module AscentBody.
Record t := mk {
  topped : option bool; top_attempts : option Z;
  zone : option bool; zone_attempts : option Z }.
End AscentBody.

Definition ascent_key (a : Ascent.t) : uuid * uuid :=
  (Ascent.problem_id a, Ascent.user_id a).

(** [INSERT INTO ascents ... ON CONFLICT (problem_id, user_id) DO UPDATE SET
    topped = EXCLUDED.topped, ...]: a row in conflict with [a] takes the four
    columns of [a]; without one, [a] is added. *)
Definition ascent_do_update (a b : Ascent.t) : Ascent.t :=
  Ascent.mk (Ascent.problem_id b) (Ascent.user_id b)
    (Ascent.topped a) (Ascent.top_attempts a)
    (Ascent.zone a) (Ascent.zone_attempts a).

Definition upsert_ascent (a : Ascent.t) (l : list Ascent.t) : list Ascent.t :=
  if decide (Exists (λ b, ascent_key b = ascent_key a) l)
  then (λ b, if decide (ascent_key b = ascent_key a)
             then ascent_do_update a b else b) <$> l
  else l ++ [a].

(** The row of [VALUES ($1, $2, COALESCE($3, false), $4, COALESCE($5, false),
    $6)]. *)
Definition ascent_values (problemId userId : uuid) (body : AscentBody.t)
  : Ascent.t :=
  Ascent.mk problemId userId
    (coalesce (AscentBody.topped body) false) (AscentBody.top_attempts body)
    (coalesce (AscentBody.zone body) false) (AscentBody.zone_attempts body).

(** The columns [top_attempts] and [zone_attempts] hold an [integer] or
    null. *)
Definition int4_or_null (o : option Z) : Prop :=
  match o with
  | Some v => int4 v
  | None => True
  end.

#[global] Instance int4_or_null_dec o : Decision (int4_or_null o).
Proof. destruct o; simpl; apply _. Defined.

(** The INSERT goes through when [user_id] references a user and the two
    attempt counts are [integer]s; else it fails, on the foreign key or with
    "integer out of range". *)
Definition insert_accepted (db : Database) (userId : uuid)
    (body : AscentBody.t) : Prop :=
  user_exists db userId
  ∧ int4_or_null (AscentBody.top_attempts body)
  ∧ int4_or_null (AscentBody.zone_attempts body).

#[global] Instance insert_accepted_dec db userId body :
  Decision (insert_accepted db userId body).
Proof. unfold insert_accepted. apply _. Defined.

(** The handler: 401 without a user, 404 without the problem, 500 when the
    insert fails ([catch (err)]); else the stored row is sent back. *)
Definition post_problem_ascents (db : Database) (user : option uuid)
    (id : uuid) (body : AscentBody.t) : Database * Http.t Ascent.t :=
  match user with
  | None => (db, Http.Unauthenticated)
  | Some userId =>
      match filter (λ p, Problem.id p = id) (problems db) with
      | [] => (db, Http.NotFound)
      | problem :: _ =>
          if decide (insert_accepted db userId body)
          then
            let a := ascent_values id userId body in
            (set_ascents db (upsert_ascent a (ascents db)), Http.Ok a)
          else (db, Http.ServerError)
      end
  end.

(** *** DELETE /api/problems/:id *)

(** The handler: 401 without a user, 404 when the problem joined with its
    competition gives no row, 403 unless the caller created the competition;
    else the ascents on the problem and the problem are deleted. *)
Definition delete_problem (access : list CompetitionAccess.t) (db : Database)
    (user : option uuid) (id : uuid) : Database * Http.t unit :=
  match user with
  | None => (db, Http.Unauthenticated)
  | Some userId =>
      let rows :=
        filter (λ r, Problem.id r.1 = id)
          (inner_join (problems db) access
             (λ r, Problem.competition_id r.1 = CompetitionAccess.id r.2)) in
      match rows with
      | [] => (db, Http.NotFound)
      | row :: _ =>
          if decide (CompetitionAccess.created_by row.2 = Some userId)
          then
            let db1 :=
              set_ascents db
                (filter (λ a, Ascent.problem_id a ≠ id) (ascents db)) in
            let db2 :=
              set_problems db1
                (filter (λ p, Problem.id p ≠ id) (problems db1)) in
            (db2, Http.Ok ())
          else (db, Http.Forbidden)
      end
  end.

(** *** POST /api/competitions/:id/join *)

Definition participant_key (cp : Participant.t) : uuid * uuid :=
  (Participant.competition_id cp, Participant.user_id cp).

(** [INSERT INTO competition_participants ... ON CONFLICT (competition_id,
    user_id) DO UPDATE SET division_id = EXCLUDED.division_id]. *)
Definition participant_do_update (cp b : Participant.t) : Participant.t :=
  Participant.mk (Participant.competition_id b) (Participant.user_id b)
    (Participant.division_id cp).

Definition upsert_participant (cp : Participant.t) (l : list Participant.t)
  : list Participant.t :=
  if decide (Exists (λ b, participant_key b = participant_key cp) l)
  then (λ b, if decide (participant_key b = participant_key cp)
             then participant_do_update cp b else b) <$> l
  else l ++ [cp].

(** [SELECT id FROM divisions WHERE id = $1 AND competition_id = $2]. *)
Definition division_of_competition (db : Database) (divisionId id : uuid)
  : list Division.t :=
  filter (λ d, Division.id d = divisionId ∧ Division.competition_id d = id)
    (divisions db).

(** The handler, at the time [now]: 401 without a user, 404 without the
    competition, 403 when it is not public or has started, 400 when the
    division given is not one of the competition; the insert is refused
    when [user_id] references no user; else the caller's row is written and
    sent back (of the columns returned, those of the table). *)
Definition post_competition_join (access : list CompetitionAccess.t)
    (db : Database) (now : Z) (user : option uuid) (id : uuid)
    (division_id : option uuid) : Database * Http.t Participant.t :=
  match user with
  | None => (db, Http.Unauthenticated)
  | Some userId =>
      match filter (λ c, CompetitionAccess.id c = id) access with
      | [] => (db, Http.NotFound)
      | comp :: _ =>
          if negb (CompetitionAccess.is_public comp)
          then (db, Http.Forbidden)
          else if match CompetitionAccess.starts_at comp with
                  | Some starts_at => bool_decide (starts_at ≤ now)
                  | None => false
                  end
          then (db, Http.Forbidden)
          else if match division_id with
                  | Some d =>
                      bool_decide (length (division_of_competition db d id) = 0%nat)
                  | None => false
                  end
          then (db, Http.BadRequest)
          else if decide (user_exists db userId)
          then
            let cp := Participant.mk id userId division_id in
            (set_competition_participants db
               (upsert_participant cp (competition_participants db)),
             Http.Ok cp)
          else (db, Http.ServerError)
      end
  end.

(** *** DELETE /api/competitions/:id/divisions/:divisionId *)

(** [ON DELETE SET NULL] on [problems.division_id] and on
    [competition_participants.division_id], for the division [divisionId]. *)
Definition problem_set_null (divisionId : uuid) (p : Problem.t) : Problem.t :=
  if decide (Problem.division_id p = Some divisionId)
  then Problem.mk (Problem.id p) (Problem.competition_id p) None
  else p.

Definition participant_set_null (divisionId : uuid) (cp : Participant.t)
  : Participant.t :=
  if decide (Participant.division_id cp = Some divisionId)
  then Participant.mk (Participant.competition_id cp) (Participant.user_id cp)
         None
  else cp.

(** [DELETE FROM divisions WHERE id = $1 AND competition_id = $2], with the
    two foreign keys that follow a deleted row. *)
Definition delete_from_divisions (db : Database) (divisionId id : uuid)
  : Database :=
  match division_of_competition db divisionId id with
  | [] => db
  | _ :: _ => {|
      users := users db;
      competitions := competitions db;
      divisions :=
        filter (λ d, ¬ (Division.id d = divisionId
                        ∧ Division.competition_id d = id))
          (divisions db);
      competition_participants :=
        participant_set_null divisionId <$> competition_participants db;
      problems := problem_set_null divisionId <$> problems db;
      ascents := ascents db |}
  end.

(** The handler: 401 without a user, 404 without the competition, 403
    unless the caller created it, 404 when the division is not one of the
    competition, 400 when a participant is registered in it; else the
    division is deleted. *)
Definition delete_competition_division (access : list CompetitionAccess.t)
    (db : Database) (user : option uuid) (id divisionId : uuid)
  : Database * Http.t unit :=
  match user with
  | None => (db, Http.Unauthenticated)
  | Some userId =>
      match filter (λ c, CompetitionAccess.id c = id) access with
      | [] => (db, Http.NotFound)
      | comp :: _ =>
          if decide (CompetitionAccess.created_by comp = Some userId)
          then
            if bool_decide
                 (length (division_of_competition db divisionId id) = 0%nat)
            then (db, Http.NotFound)
            else if bool_decide
                      (0 < count
                             (filter
                                (λ cp, Participant.competition_id cp = id
                                       ∧ Participant.division_id cp
                                         = Some divisionId)
                                (competition_participants db)))
            then (db, Http.BadRequest)
            else (delete_from_divisions db divisionId id, Http.Ok ())
          else (db, Http.Forbidden)
      end
  end.

(** *** GET /api/competitions/:id/divisions *)

(** [SELECT ... FROM divisions WHERE competition_id = $1
    ORDER BY sort_order NULLS LAST, name ASC]. *)
Definition get_competition_divisions (db : Database) (id : uuid)
  : list Division.t :=
  order_by summary_order
    (filter (λ d, Division.competition_id d = id) (divisions db)).

(** ** Definitions used to state the properties *)

(** The distinct keys of the rows of [l] that [cmp] orders strictly before
    [x]. *)
Definition ahead {A K} `{Countable K} (cmp : A → A → comparison)
    (key : A → K) (l : list A) (x : A) : gset K :=
  list_to_set (key <$> filter (λ y, cmp y x = Lt) l).

(** The five stages of the ranking key, read on the rows of [ranked]. *)
Definition ranking_order : PodiumRow.t → PodiumRow.t → comparison :=
  then_by (desc Z.compare PodiumRow.total_tops)
  (then_by (desc Z.compare PodiumRow.total_zones)
  (then_by (asc Z.compare PodiumRow.total_top_attempts)
  (then_by (asc Z.compare PodiumRow.total_zone_attempts)
           (asc String.compare PodiumRow.user_display_name)))).

Definition tally_tuple (r : PodiumRow.t) : Z * Z * Z * Z :=
  (PodiumRow.total_tops r, PodiumRow.total_zones r,
   PodiumRow.total_top_attempts r, PodiumRow.total_zone_attempts r).

Definition ranking_key (r : PodiumRow.t) : Z * Z * Z * Z * string :=
  (tally_tuple r, PodiumRow.user_display_name r).

(** The rows of [ranked] in the division of [r]. *)
Definition division_peers (db : Database) (cid : uuid) (r : PodiumRow.t)
  : list PodiumRow.t :=
  filter (λ r', PodiumRow.division_id r' = PodiumRow.division_id r)
    (ranked db cid).

(** The dense rank of a row of [ranked] in its division, by the five-stage
    key: one more than the number of distinct keys before it. *)
Definition key_dense_rank (db : Database) (cid : uuid) (r : PodiumRow.t) : Z :=
  1 + Z.of_nat (size (ahead ranking_order ranking_key
                        (division_peers db cid r) r)).

(** The four totals alone, better first, and the dense rank that they would
    give: users with the same four totals would share a rank. *)
Definition tally_order : PodiumRow.t → PodiumRow.t → comparison :=
  then_by (desc Z.compare PodiumRow.total_tops)
  (then_by (desc Z.compare PodiumRow.total_zones)
  (then_by (asc Z.compare PodiumRow.total_top_attempts)
           (asc Z.compare PodiumRow.total_zone_attempts))).

Definition tally_dense_rank (db : Database) (cid : uuid) (r : PodiumRow.t)
  : Z :=
  1 + Z.of_nat (size (ahead tally_order tally_tuple
                        (division_peers db cid r) r)).

(** No climber of rank 3 or better, in whatever division of the competition,
    has a total outside the range of [integer]. *)
Definition podium_totals_fit (db : Database) (cid : uuid) : Prop :=
  Forall (λ r, PodiumRow.rank r ≤ 3 →
               int4 (PodiumRow.total_tops r) ∧ int4 (PodiumRow.total_zones r)
               ∧ int4 (PodiumRow.total_top_attempts r)
               ∧ int4 (PodiumRow.total_zone_attempts r))
    (ranked db cid).

#[global] Instance podium_totals_fit_dec db cid :
  Decision (podium_totals_fit db cid).
Proof. unfold podium_totals_fit. apply _. Defined.

(** A podium is in order when a standing comes before those of a greater
    rank and, within a rank, before those of a later display name. *)
Definition standing_le (s1 s2 : Standing.t) : Prop :=
  Standing.rank s1 < Standing.rank s2
  ∨ (Standing.rank s1 = Standing.rank s2
     ∧ String.compare (Standing.user_display_name s1)
         (Standing.user_display_name s2) ≠ Gt).

(** The order of the divisions of a report: by sort key with the divisions
    without one last, then by name. *)
Definition division_le (d1 d2 : Division.t) : Prop :=
  match Division.sort_order d1, Division.sort_order d2 with
  | Some k1, Some k2 =>
      k1 < k2
      ∨ (k1 = k2 ∧ String.compare (Division.name d1) (Division.name d2) ≠ Gt)
  | Some _, None => True
  | None, Some _ => False
  | None, None => String.compare (Division.name d1) (Division.name d2) ≠ Gt
  end.

(** What a report tells of a division, and the same columns of its row. *)
Definition report_label (dr : DivisionReport.t) : uuid * string :=
  (DivisionReport.division_id dr, DivisionReport.division_name dr).
Definition division_label (d : Division.t) : uuid * string :=
  (Division.id d, Division.name d).


(** The two ways in which a user takes part in the division [did] of the
    competition [cid]: registered in it, or having an ascent on one of its
    problems. *)
Definition registered_in_division (db : Database) (cid did u : uuid) : Prop :=
  ∃ cp, cp ∈ competition_participants db
        ∧ Participant.user_id cp = u
        ∧ Participant.competition_id cp = cid
        ∧ Participant.division_id cp = Some did.
Definition climbed_in_division (db : Database) (cid did u : uuid) : Prop :=
  ∃ p a, p ∈ problems db ∧ a ∈ ascents db
         ∧ Ascent.problem_id a = Problem.id p
         ∧ Ascent.user_id a = u
         ∧ in_division cid did p.

(** The database without the problem [pid] and without the ascents on it. *)
Definition without_problem (pid : uuid) (db : Database) : Database := {|
  users := users db;
  competitions := competitions db;
  divisions := divisions db;
  competition_participants := competition_participants db;
  problems := filter (λ p, Problem.id p ≠ pid) (problems db);
  ascents := filter (λ a, Ascent.problem_id a ≠ pid) (ascents db) |}.

(** The problem [pid] has no division. *)
Definition unassigned (db : Database) (pid : uuid) : Prop :=
  ∀ p, p ∈ problems db → Problem.id p = pid → Problem.division_id p = None.

(** The ascent rows of the user [u] on the problems of the division [did]
    of the competition [cid]. *)
Definition on_division_problem (db : Database) (cid did : uuid)
    (a : Ascent.t) : Prop :=
  Exists (λ p, Problem.id p = Ascent.problem_id a ∧ in_division cid did p)
    (problems db).

#[global] Instance on_division_problem_dec db cid did a :
  Decision (on_division_problem db cid did a).
Proof. unfold on_division_problem. apply _. Defined.

Definition division_ascents (db : Database) (cid did u : uuid)
  : list Ascent.t :=
  filter (λ a, Ascent.user_id a = u ∧ on_division_problem db cid did a)
    (ascents db).

(** The number of rows with a flag set, and the sum of a nullable column with
    null counted as 0. *)
Definition count_true (f : Ascent.t → bool) (rows : list Ascent.t) : Z :=
  Z.of_nat (length (filter (λ a, f a = true) rows)).
Definition sum_null_as_zero (f : Ascent.t → option Z) (rows : list Ascent.t)
  : Z :=
  foldr Z.add 0 ((λ a, default 0 (f a)) <$> rows).

(** The tallies of [per_user] for the user [u] in the division [did]. *)
Definition tallies_of (db : Database) (cid did u : uuid) : list PerUser.t :=
  filter (λ t, PerUser.division_id t = did ∧ PerUser.user_id t = u)
    (per_user db cid).

(** Every ascent is on a stored problem and by a stored user: the two
    foreign keys of [ascents]. *)
Definition ascents_fkeys (db : Database) : Prop :=
  Forall (λ a, Exists (λ p, Problem.id p = Ascent.problem_id a) (problems db)
               ∧ user_exists db (Ascent.user_id a))
    (ascents db).

(** The problem [id] is a problem of the division [did] of the competition
    [cid]. *)
Definition problem_in_division (db : Database) (cid did id : uuid) : Prop :=
  Exists (λ p, Problem.id p = id ∧ in_division cid did p) (problems db).

(** The user takes part in the division, in one of the two ways. *)
Definition takes_part (db : Database) (cid did u : uuid) : Prop :=
  registered_in_division db cid did u ∨ climbed_in_division db cid did u.

(** The primary key of [competitions], read on the columns of the writing
    handlers. *)
Definition competitions_pkey (access : list CompetitionAccess.t) : Prop :=
  NoDup (CompetitionAccess.id <$> access).

(** The user [u] created the competition of the problem [id]. *)
Definition organizer_of_problem (access : list CompetitionAccess.t)
    (db : Database) (id u : uuid) : Prop :=
  ∃ p c, p ∈ problems db ∧ Problem.id p = id
         ∧ c ∈ access ∧ CompetitionAccess.id c = Problem.competition_id p
         ∧ CompetitionAccess.created_by c = Some u.

(** The problem [id] is stored with its competition. *)
Definition problem_with_competition (access : list CompetitionAccess.t)
    (db : Database) (id : uuid) : Prop :=
  ∃ p c, p ∈ problems db ∧ Problem.id p = id
         ∧ c ∈ access ∧ CompetitionAccess.id c = Problem.competition_id p.

(** The problem [id] is a problem of a division of the competition [cid]. *)
Definition scored_in (db : Database) (cid id : uuid) : Prop :=
  Exists (λ p, Problem.id p = id ∧ Problem.competition_id p = cid
               ∧ is_Some (Problem.division_id p))
    (problems db).

(** The primary key of [competition_participants]. *)
Definition competition_participants_pkey (db : Database) : Prop :=
  NoDup (participant_key <$> competition_participants db).

(** The division of a participant, when there is one, is a division of the
    competition joined. *)
Definition in_own_competition (db : Database) (cp : Participant.t) : Prop :=
  match Participant.division_id cp with
  | Some d =>
      Exists (λ dv, Division.id dv = d
                    ∧ Division.competition_id dv = Participant.competition_id cp)
        (divisions db)
  | None => True
  end.

#[global] Instance in_own_competition_dec db cp :
  Decision (in_own_competition db cp).
Proof. unfold in_own_competition. destruct (Participant.division_id cp); apply _. Defined.

Definition participants_in_own_competition (db : Database) : Prop :=
  Forall (in_own_competition db) (competition_participants db).

(** Registration for [c] is open at the time [now]. *)
Definition registration_open (c : CompetitionAccess.t) (now : Z) : Prop :=
  CompetitionAccess.is_public c = true
  ∧ ∀ starts_at, CompetitionAccess.starts_at c = Some starts_at → now < starts_at.

(** The division asked for, when there is one, is a division of [id]. *)
Definition valid_division (db : Database) (id : uuid)
    (division_id : option uuid) : Prop :=
  ∀ d, division_id = Some d →
       ∃ dv, dv ∈ divisions db ∧ Division.id dv = d
             ∧ Division.competition_id dv = id.

(** The sum of a column that is never null. *)
Definition total (l : list Z) : Z := foldr Z.add 0 l.

(** The division [divisionId] is a division of the competition [id]. *)
Definition division_in_competition (db : Database) (id divisionId : uuid)
  : Prop :=
  ∃ dv, dv ∈ divisions db ∧ Division.id dv = divisionId
        ∧ Division.competition_id dv = id.

(** A nullable reference to [divisions(id)] is null or the id of a stored
    division; the two foreign keys to [divisions]. *)
Definition division_stored (db : Database) (o : option uuid) : Prop :=
  match o with
  | Some x => Exists (λ d, Division.id d = x) (divisions db)
  | None => True
  end.

#[global] Instance division_stored_dec db o : Decision (division_stored db o).
Proof. destruct o; simpl; apply _. Defined.

Definition division_fkeys (db : Database) : Prop :=
  Forall (λ p, division_stored db (Problem.division_id p)) (problems db)
  ∧ Forall (λ cp, division_stored db (Participant.division_id cp))
      (competition_participants db).

(** The primary key of [users]. *)
Definition users_pkey (db : Database) : Prop := NoDup (User.id <$> users db).

(** ** Sample competitions *)

(** "Spring Open": Alice and Bob have the same tally in "Open"; Carol also
    climbed a problem that has no division; Dan joined "Masters" and never
    climbed; "Youth" has no problem. "Autumn Cup": two climbers called Sam
    are tied for the third rank. *)
Definition sample_db : Database := {|
  users := [User.mk 1 "Alice"; User.mk 2 "Bob"; User.mk 3 "Carol";
            User.mk 4 "Dan"; User.mk 5 "Eve"; User.mk 6 "Finn";
            User.mk 7 "Sam"; User.mk 8 "Sam"];
  competitions := [CompetitionRow.mk 10 "Spring Open";
                   CompetitionRow.mk 11 "Autumn Cup"];
  divisions := [Division.mk 20 10 "Open" None;
                Division.mk 21 10 "Masters" (Some 1);
                Division.mk 22 11 "Open" (Some 1);
                Division.mk 23 10 "Youth" (Some 2)];
  competition_participants :=
    [Participant.mk 10 1 (Some 20%N); Participant.mk 10 4 (Some 21%N);
     Participant.mk 11 5 (Some 22%N)];
  problems := [Problem.mk 30 10 (Some 20%N); Problem.mk 31 10 (Some 20%N);
               Problem.mk 32 10 None; Problem.mk 33 10 (Some 21%N);
               Problem.mk 34 11 (Some 22%N)];
  ascents := [Ascent.mk 30 1 true (Some 2) true (Some 1);
              Ascent.mk 31 1 true (Some 1) false None;
              Ascent.mk 30 2 true (Some 2) true (Some 1);
              Ascent.mk 31 2 true (Some 1) false None;
              Ascent.mk 30 3 true (Some 2) true (Some 1);
              Ascent.mk 32 3 true (Some 1) true (Some 1);
              Ascent.mk 34 8 true (Some 3) true (Some 1);
              Ascent.mk 34 7 true (Some 3) true (Some 1);
              Ascent.mk 34 6 true (Some 2) true (Some 1);
              Ascent.mk 34 5 true (Some 1) true (Some 1)] |}.

Definition alice_row : PodiumRow.t :=
  PodiumRow.mk 10 20 "Open" 1 "Alice" 1 2 1 3 1.
Definition bob_row : PodiumRow.t :=
  PodiumRow.mk 10 20 "Open" 2 "Bob" 2 2 1 3 1.
Definition carol_row : PodiumRow.t :=
  PodiumRow.mk 10 20 "Open" 3 "Carol" 3 1 1 2 1.

(** The report of "Spring Open" restricted to its division "Open". *)
Definition open_report : DivisionReport.t :=
  DivisionReport.mk 20 "Open" 3 2 5 3
    (standing <$> [alice_row; bob_row; carol_row]).
Definition spring_open_report : CompetitionReport.t :=
  CompetitionReport.mk (CompetitionRow.mk 10 "Spring Open") [open_report].

(** The whole report of "Spring Open". *)
Definition masters_report : DivisionReport.t :=
  DivisionReport.mk 21 "Masters" 1 1 0 0 [].
Definition youth_report : DivisionReport.t :=
  DivisionReport.mk 23 "Youth" 0 0 0 0 [].
Definition spring_report : CompetitionReport.t :=
  CompetitionReport.mk (CompetitionRow.mk 10 "Spring Open")
    [masters_report; youth_report; open_report].

(** Who may write what: Alice runs "Spring Open", which starts at 1000;
    Eve runs "Autumn Cup", which has no start time. *)
Definition sample_access : list CompetitionAccess.t :=
  [CompetitionAccess.mk 10 true (Some 1000) (Some 1%N);
   CompetitionAccess.mk 11 true None (Some 5%N)].


(** "Winter Cup": Sam and Tom have the same four totals, behind Eve and
    Finn. *)
Definition tie_db : Database := {|
  users := [User.mk 5 "Eve"; User.mk 6 "Finn"; User.mk 7 "Sam";
            User.mk 8 "Tom"];
  competitions := [CompetitionRow.mk 12 "Winter Cup"];
  divisions := [Division.mk 24 12 "Open" None];
  competition_participants := [];
  problems := [Problem.mk 35 12 (Some 24%N)];
  ascents := [Ascent.mk 35 8 true (Some 3) true (Some 1);
              Ascent.mk 35 7 true (Some 3) true (Some 1);
              Ascent.mk 35 6 true (Some 2) true (Some 1);
              Ascent.mk 35 5 true (Some 1) true (Some 1)] |}.

Definition tom_row : PodiumRow.t :=
  PodiumRow.mk 12 24 "Open" 8 "Tom" 4 1 1 3 1.

Definition winter_open_report : DivisionReport.t :=
  DivisionReport.mk 24 "Open" 4 1 4 4
    [Standing.mk 5 "Eve" 1 1 1 1 1; Standing.mk 6 "Finn" 2 1 1 2 1;
     Standing.mk 7 "Sam" 3 1 1 3 1].
Definition winter_report : CompetitionReport.t :=
  CompetitionReport.mk (CompetitionRow.mk 12 "Winter Cup")
    [winter_open_report].

(** Closed decidable facts about the sample data are settled by evaluation. *)
Ltac by_compute := apply (bool_decide_unpack _); vm_compute; exact I.

(** * Theory of the combinators *)

(** ** Joins and filters *)

Lemma filter_nil_elem {A} (P : A → Prop) `{∀ x, Decision (P x)} (l : list A) :
  (∀ x, x ∈ l → ¬ P x) → filter P l = [].
Proof.
  intros Hnone. apply list.elem_of_nil_inv. intros x [? ?]%list_elem_of_filter.
  by apply (Hnone x).
Qed.

Lemma filter_all_elem {A} (P : A → Prop) `{∀ x, Decision (P x)} (l : list A) :
  (∀ x, x ∈ l → P x) → filter P l = l.
Proof.
  induction l as [|x l IH]; intros Hall; [done|].
  rewrite filter_cons_True by (apply Hall; left).
  f_equal. apply IH. intros y ?. apply Hall. by right.
Qed.

Lemma filter_ext_elem {A} (P Q : A → Prop)
    `{∀ x, Decision (P x)} `{∀ x, Decision (Q x)} (l : list A) :
  (∀ x, x ∈ l → P x ↔ Q x) → filter P l = filter Q l.
Proof.
  induction l as [|x l IH]; intros Hiff; [done|].
  assert (filter P l = filter Q l) as E.
  { apply IH. intros y ?. apply Hiff. by right. }
  rewrite !filter_cons, E.
  destruct (decide (P x)) as [HP|HP], (decide (Q x)) as [HQ|HQ]; try done.
  - destruct HQ. apply Hiff; [left|done].
  - destruct HP. apply Hiff; [left|done].
Qed.

Lemma bind_ext_elem {A B} (f g : A → list B) (l : list A) :
  (∀ x, x ∈ l → f x = g x) → l ≫= f = l ≫= g.
Proof.
  induction l as [|x l IH]; intros Hext; [done|].
  rewrite !bind_cons, IH, (Hext x); [done|left|].
  intros y ?. apply Hext. by right.
Qed.

Lemma bind_nil_elem {A B} (f : A → list B) (l : list A) :
  (∀ x, x ∈ l → f x = []) → l ≫= f = [].
Proof.
  induction l as [|x l IH]; intros Hnil; [done|].
  rewrite bind_cons, IH, (Hnil x); [done|left|].
  intros y ?. apply Hnil. by right.
Qed.

Lemma filter_bind {A B} (P : B → Prop) `{∀ y, Decision (P y)}
    (f : A → list B) (l : list A) :
  filter P (l ≫= f) = l ≫= (λ x, filter P (f x)).
Proof.
  induction l as [|x l IH]; [done|].
  by rewrite !bind_cons, list.filter_app, IH.
Qed.

Lemma bind_filter {A B} (P : A → Prop) `{∀ x, Decision (P x)}
    (f : A → list B) (l : list A) :
  filter P l ≫= f = l ≫= (λ x, if decide (P x) then f x else []).
Proof.
  induction l as [|x l IH]; [done|].
  rewrite filter_cons, bind_cons. case_decide.
  - by rewrite bind_cons, IH.
  - by rewrite IH.
Qed.

Section joins.
Context {A B : Type} (on : A * B → Prop) `{∀ r, Decision (on r)}.

Lemma elem_of_inner_join (l : list A) (k : list B) r :
  r ∈ inner_join l k on ↔ r.1 ∈ l ∧ r.2 ∈ k ∧ on r.
Proof.
  unfold inner_join. rewrite list_elem_of_bind.
  setoid_rewrite list_elem_of_bind. destruct r as [x y]. simpl. split.
  - intros (x' & (y' & Hr & ?) & ?). case_decide; [|by apply elem_of_nil in Hr].
    apply list_elem_of_singleton in Hr as [= -> ->]. done.
  - intros (? & ? & ?). exists x. split; [|done]. exists y. split; [|done].
    rewrite decide_True by done. by left.
Qed.

(** Restricting both sides of a join to rows that every joined pair is made
    of changes nothing. *)
Lemma inner_join_filter (P : A → Prop) (Q : B → Prop)
    `{∀ x, Decision (P x)} `{∀ y, Decision (Q y)} (l : list A) (k : list B) :
  inner_join (filter P l) (filter Q k) on
  = filter (λ r, P r.1 ∧ Q r.2) (inner_join l k on).
Proof.
  unfold inner_join. rewrite bind_filter, filter_bind.
  apply bind_ext_elem. intros x _. rewrite filter_bind. case_decide as HP.
  - rewrite bind_filter. apply bind_ext_elem. intros y _.
    destruct (decide (Q y)) as [HQ|HQ], (decide (on (x, y))); try done.
    + by rewrite filter_cons_True.
    + rewrite filter_cons_False; [done|]. simpl. by intros [_ ?].
  - symmetry. apply bind_nil_elem. intros y _.
    destruct (decide (on (x, y))); [|done].
    rewrite filter_cons_False; [done|]. simpl. by intros [? _].
Qed.

Lemma NoDup_inner_join (l : list A) (k : list B) :
  NoDup l → NoDup k → NoDup (inner_join l k on).
Proof.
  intros Hl Hk. unfold inner_join. apply NoDup_bind; [| |done].
  - intros x1 x2 r _ _ (y1 & Hr1 & _)%list_elem_of_bind
                       (y2 & Hr2 & _)%list_elem_of_bind.
    destruct (decide (on (x1, y1))); [|by apply elem_of_nil in Hr1].
    destruct (decide (on (x2, y2))); [|by apply elem_of_nil in Hr2].
    apply list_elem_of_singleton in Hr1, Hr2. congruence.
  - intros x _. apply NoDup_bind; [| |done].
    + intros y1 y2 r _ _ Hr1 Hr2.
      destruct (decide (on (x, y1))); [|by apply elem_of_nil in Hr1].
      destruct (decide (on (x, y2))); [|by apply elem_of_nil in Hr2].
      apply list_elem_of_singleton in Hr1, Hr2. congruence.
    + intros y _. case_decide; [apply NoDup_singleton|apply NoDup_nil_2].
Qed.


Lemma inner_join_filter_fst (P : A → Prop) `{∀ x, Decision (P x)}
    (l : list A) (k : list B) :
  inner_join (filter P l) k on = filter (λ r, P r.1) (inner_join l k on).
Proof.
  unfold inner_join. rewrite bind_filter, filter_bind.
  apply bind_ext_elem. intros x _. rewrite filter_bind. case_decide as HP.
  - apply bind_ext_elem. intros y _. destruct (decide (on (x, y))); [|done].
    by rewrite filter_cons_True.
  - symmetry. apply bind_nil_elem. intros y _.
    destruct (decide (on (x, y))); [|done]. by rewrite filter_cons_False.
Qed.

Lemma inner_join_filter_snd (Q : B → Prop) `{∀ y, Decision (Q y)}
    (l : list A) (k : list B) :
  inner_join l (filter Q k) on = filter (λ r, Q r.2) (inner_join l k on).
Proof.
  unfold inner_join. rewrite filter_bind.
  apply bind_ext_elem. intros x _. rewrite filter_bind, bind_filter.
  apply bind_ext_elem. intros y _.
  destruct (decide (Q y)) as [HQ|HQ], (decide (on (x, y))); try done.
  - by rewrite filter_cons_True.
  - by rewrite filter_cons_False.
Qed.

Lemma left_join_row_fst (k : list B) x r : r ∈ left_join_row k on x → r.1 = x.
Proof.
  unfold left_join_row. destruct (filter _ k) as [|y0 ys].
  - by intros ->%list_elem_of_singleton.
  - by intros (y & -> & _)%list_elem_of_fmap.
Qed.

(** A filter on the left rows of a left join sees no difference when rows it
    rejects are removed from the left table, and rows that join only with
    rejected rows from the right table. *)
Lemma filter_left_join_filter (D P : A → Prop) (G : option B → Prop)
    (Q : B → Prop) `{∀ x, Decision (D x)} `{∀ x, Decision (P x)}
    `{∀ o, Decision (G o)} `{∀ y, Decision (Q y)} (l : list A) (k : list B) :
  (∀ x, x ∈ l → D x → P x) →
  (∀ x y, x ∈ l → y ∈ k → D x → on (x, y) → Q y) →
  filter (λ r, D r.1 ∧ G r.2) (left_join (filter P l) (filter Q k) on)
  = filter (λ r, D r.1 ∧ G r.2) (left_join l k on).
Proof.
  intros HP HQ. unfold left_join. rewrite bind_filter, !filter_bind.
  apply bind_ext_elem. intros x Hx. destruct (decide (D x)) as [HD|HD].
  - rewrite decide_True by by apply HP. f_equal. unfold left_join_row.
    rewrite list_filter_filter.
    rewrite (filter_ext_elem _ (λ y, on (x, y))); [done|].
    intros y Hy. split; [by intros [? _]|]. intros Hon. split; [done|].
    by apply (HQ x y).
  - assert (∀ k', filter (λ r, D r.1 ∧ G r.2) (left_join_row k' on x) = [])
      as Hnil.
    { intros k'. apply filter_nil_elem. intros r Hr [HD' _].
      by rewrite (left_join_row_fst _ _ _ Hr) in HD'. }
    rewrite Hnil. by case_decide.
Qed.
End joins.

Lemma sql_sum_coalesce (l : list (option Z)) :
  coalesce (sql_sum l) 0 = foldr Z.add 0 (default 0 <$> l).
Proof.
  unfold sql_sum.
  assert (∀ acc, coalesce
            (foldl (λ acc v, match v, acc with
                             | None, _ => acc
                             | Some x, None => Some x
                             | Some x, Some s => Some (s + x)
                             end) acc l) 0
          = coalesce acc 0 + foldr Z.add 0 (default 0 <$> l)) as Hgen.
  { induction l as [|[x|] l IH]; intros acc; simpl.
    - lia.
    - rewrite IH. destruct acc; unfold coalesce, fmap; simpl; lia.
    - rewrite IH. unfold fmap. lia. }
  rewrite Hgen. unfold coalesce. simpl. lia.
Qed.

(** ** Comparisons that order *)

Section cmp_order.
Context {A} (cmp : A → A → comparison) `{!CmpOrder cmp}.

Lemma cmp_refl x : cmp x x = Eq.
Proof. pose proof (cmp_antisym cmp x x) as E. by destruct (cmp x x). Qed.

Lemma cmp_eq_sym x y : cmp x y = Eq → cmp y x = Eq.
Proof. intros E. by rewrite (cmp_antisym cmp x y), E. Qed.

Lemma cmp_eq_r x y z : cmp y z = Eq → cmp x y = cmp x z.
Proof.
  intros E. rewrite (cmp_antisym cmp y x), (cmp_antisym cmp z x).
  f_equal. by apply (cmp_eq_l cmp).
Qed.

Lemma cmp_gt_lt x y : cmp x y = Gt ↔ cmp y x = Lt.
Proof. rewrite (cmp_antisym cmp x y). destruct (cmp x y); naive_solver. Qed.

Lemma cmp_le_lt x y : cmp_le cmp x y ↔ cmp y x ≠ Lt.
Proof. unfold cmp_le. by rewrite cmp_gt_lt. Qed.

#[global] Instance cmp_le_total : Total (cmp_le cmp).
Proof.
  intros x y. unfold cmp_le. rewrite (cmp_antisym cmp x y).
  destruct (cmp x y); naive_solver.
Qed.

#[global] Instance cmp_le_trans : Transitive (cmp_le cmp).
Proof.
  intros x y z. unfold cmp_le. intros Hxy Hyz.
  destruct (cmp x y) eqn:E1; [|clear Hxy|done].
  - by rewrite (cmp_eq_l _ x y z E1).
  - destruct (cmp y z) eqn:E2; [| |done].
    + by rewrite <-(cmp_eq_r x y z E2), E1.
    + by rewrite (cmp_lt_trans _ x y z E1 E2).
Qed.

Lemma cmp_le_antisym x y : cmp_le cmp x y → cmp_le cmp y x → cmp x y = Eq.
Proof.
  unfold cmp_le. rewrite (cmp_antisym cmp x y). by destruct (cmp x y).
Qed.

Lemma order_by_perm l : order_by cmp l ≡ₚ l.
Proof. apply merge_sort_Permutation. Qed.

Lemma order_by_sorted l : StronglySorted (cmp_le cmp) (order_by cmp l).
Proof. apply StronglySorted_merge_sort; apply _. Qed.

Lemma elem_of_order_by l x : x ∈ order_by cmp l ↔ x ∈ l.
Proof. by rewrite order_by_perm. Qed.
End cmp_order.

#[global] Instance Z_compare_order : CmpOrder Z.compare.
Proof.
  split.
  - intros x y. apply Z.compare_antisym.
  - intros x y z. rewrite !Z.compare_lt_iff. lia.
  - intros x y z E. apply Z.compare_eq in E. by subst.
Qed.

Lemma ascii_compare_lt_trans a b c :
  Ascii.compare a b = Lt → Ascii.compare b c = Lt → Ascii.compare a c = Lt.
Proof. unfold Ascii.compare. rewrite !N.compare_lt_iff. lia. Qed.

Lemma string_compare_lt_trans s1 s2 s3 :
  String.compare s1 s2 = Lt → String.compare s2 s3 = Lt →
  String.compare s1 s3 = Lt.
Proof.
  revert s2 s3. induction s1 as [|a s1 IH]; intros [|b s2] [|c s3]; simpl;
    try done.
  destruct (Ascii.compare a b) eqn:Eab; [| |done];
    destruct (Ascii.compare b c) eqn:Ebc; try done.
  - apply Ascii.compare_eq_iff in Eab, Ebc. subst.
    assert (Ascii.compare c c = Eq) as ->; [|by eauto].
    pose proof (Ascii.compare_antisym c c) as E.
    by destruct (Ascii.compare c c).
  - apply Ascii.compare_eq_iff in Eab. subst. by rewrite Ebc.
  - apply Ascii.compare_eq_iff in Ebc. subst. by rewrite Eab.
  - by rewrite (ascii_compare_lt_trans a b c).
Qed.

#[global] Instance string_compare_order : CmpOrder String.compare.
Proof.
  split.
  - intros x y. apply String.compare_antisym.
  - apply string_compare_lt_trans.
  - intros x y z E. apply String.compare_eq_iff in E. by subst.
Qed.

#[global] Instance asc_order {A K} (cmp : K → K → comparison) (f : A → K) :
  CmpOrder cmp → CmpOrder (asc cmp f).
Proof.
  intros ?. unfold asc. split.
  - intros x y. apply (cmp_antisym cmp).
  - intros x y z. apply (cmp_lt_trans cmp).
  - intros x y z. apply (cmp_eq_l cmp).
Qed.

#[global] Instance desc_order {A K} (cmp : K → K → comparison) (f : A → K) :
  CmpOrder cmp → CmpOrder (desc cmp f).
Proof.
  intros ?. unfold desc. split.
  - intros x y. apply (cmp_antisym cmp).
  - intros x y z ??. by apply (cmp_lt_trans cmp) with (f y).
  - intros x y z E. by apply (cmp_eq_r cmp), cmp_eq_sym.
Qed.

#[global] Instance then_by_order {A} (c1 c2 : A → A → comparison) :
  CmpOrder c1 → CmpOrder c2 → CmpOrder (then_by c1 c2).
Proof.
  intros ??. unfold then_by. split.
  - intros x y. rewrite (cmp_antisym c1 x y), (cmp_antisym c2 x y).
    by destruct (c1 x y).
  - intros x y z.
    destruct (c1 x y) eqn:E1; [|intros _|done].
    + rewrite (cmp_eq_l _ x y z E1). destruct (c1 y z); [|done..].
      apply (cmp_lt_trans c2).
    + destruct (c1 y z) eqn:E2; [intros _| intros _|done].
      * by rewrite <-(cmp_eq_r c1 x y z E2), E1.
      * by rewrite (cmp_lt_trans _ x y z E1 E2).
  - intros x y z. destruct (c1 x y) eqn:E1; [|done..]. intros E2.
    by rewrite (cmp_eq_l _ x y z E1), (cmp_eq_l _ x y z E2).
Qed.

#[global] Instance nulls_last_order {K} (cmp : K → K → comparison) :
  CmpOrder cmp → CmpOrder (nulls_last cmp).
Proof.
  intros ?. split.
  - intros [x|] [y|]; simpl; try done. apply (cmp_antisym cmp).
  - intros [x|] [y|] [z|]; simpl; try done. apply (cmp_lt_trans cmp).
  - intros [x|] [y|] [z|]; simpl; try done. apply (cmp_eq_l cmp).
Qed.

(** ** Dense rank *)

Section dense_rank.
Context {A K : Type} `{Countable K}.
Context (cmp : A → A → comparison) `{!CmpOrder cmp}.
Context (key : A → K).
Hypothesis cmp_key : ∀ x y, cmp x y = Eq ↔ key x = key y.

Local Abbreviation ahd := (ahead cmp key).

Lemma elem_of_ahead l x k :
  k ∈ ahd l x ↔ ∃ y, y ∈ l ∧ cmp y x = Lt ∧ key y = k.
Proof.
  unfold ahead. rewrite elem_of_list_to_set, list_elem_of_fmap.
  setoid_rewrite list_elem_of_filter. split.
  - intros (y & -> & ? & ?). by exists y.
  - intros (y & ? & ? & <-). by exists y.
Qed.

Lemma ahead_perm l1 l2 x : l1 ≡ₚ l2 → ahd l1 x = ahd l2 x.
Proof.
  intros E. apply set_eq. intros k. rewrite !elem_of_ahead.
  by setoid_rewrite E.
Qed.

Lemma ahead_peer l x y : cmp x y = Eq → ahd l x = ahd l y.
Proof.
  intros E. apply set_eq. intros k. rewrite !elem_of_ahead.
  by setoid_rewrite (cmp_eq_r cmp _ x y E).
Qed.

Lemma key_not_ahead l x : key x ∉ ahd l x.
Proof.
  rewrite elem_of_ahead. intros (y & _ & Hlt & Hk).
  apply cmp_key in Hk. congruence.
Qed.

Lemma ahead_lt_subseteq l x y :
  x ∈ l → cmp x y = Lt → ahd l x ∪ {[key x]} ⊆ ahd l y.
Proof.
  intros Hx Hlt k. rewrite elem_of_union, elem_of_singleton, !elem_of_ahead.
  intros [(z & ? & ? & ?)| ->].
  - exists z. split_and!; [done| |done]. by apply (cmp_lt_trans cmp) with x.
  - by exists x.
Qed.

Lemma ahead_lt_size l x y :
  x ∈ l → cmp x y = Lt → (size (ahd l x) < size (ahd l y))%nat.
Proof.
  intros Hx Hlt. pose proof (ahead_lt_subseteq l x y Hx Hlt) as Hsub.
  apply subseteq_size in Hsub.
  rewrite size_union, size_singleton in Hsub; [lia|].
  apply disjoint_singleton_r, key_not_ahead.
Qed.

(** Nothing lies strictly between [x] and [y]: [y] has one more key before
    it than [x]. *)
Lemma ahead_next l x y :
  x ∈ l → cmp x y = Lt →
  (∀ z, z ∈ l → ¬ (cmp x z = Lt ∧ cmp z y = Lt)) →
  ahd l y = ahd l x ∪ {[key x]}.
Proof.
  intros Hx Hlt Hnone. apply set_eq. intros k. split.
  - rewrite elem_of_union, elem_of_singleton, !elem_of_ahead.
    intros (z & Hz & Hzy & Hk).
    destruct (cmp z x) eqn:Hzx.
    + right. rewrite <-Hk. by apply cmp_key.
    + left. by exists z.
    + apply (cmp_gt_lt cmp) in Hzx. destruct (Hnone z Hz). done.
  - apply ahead_lt_subseteq; done.
Qed.

Lemma ahead_next_size l x y :
  x ∈ l → cmp x y = Lt →
  (∀ z, z ∈ l → ¬ (cmp x z = Lt ∧ cmp z y = Lt)) →
  size (ahd l y) = S (size (ahd l x)).
Proof.
  intros Hx Hlt Hnone. rewrite (ahead_next l x y Hx Hlt Hnone).
  rewrite size_union, size_singleton; [lia|].
  apply disjoint_singleton_r, key_not_ahead.
Qed.

Lemma dense_rank_from_fst prev r l : (dense_rank_from cmp prev r l).*1 = l.
Proof.
  revert prev r. induction l as [|x l IH]; intros prev r; simpl; [done|].
  by rewrite IH.
Qed.

Lemma dense_rank_fst l : (dense_rank cmp l).*1 = l.
Proof. destruct l; simpl; [done|]. by rewrite dense_rank_from_fst. Qed.

(** The walk over an ordered list numbers each row with one more than the
    number of distinct keys before it. *)
Lemma dense_rank_from_spec pre prev r l :
  StronglySorted (cmp_le cmp) (pre ++ prev :: l) →
  r = 1 + Z.of_nat (size (ahd (pre ++ prev :: l) prev)) →
  ∀ x rx, (x, rx) ∈ dense_rank_from cmp prev r l →
          rx = 1 + Z.of_nat (size (ahd (pre ++ prev :: l) x)).
Proof.
  revert pre prev r. induction l as [|y l IH]; intros pre prev r Hs Hr x rx;
    simpl; [by rewrite elem_of_nil|].
  assert (cmp_le cmp prev y) as Hle.
  { pose proof (StronglySorted_app_1_r _ _ _ Hs) as Hs2.
    apply StronglySorted_cons in Hs2 as [Hall _].
    by inv Hall. }
  assert ((if decide (cmp prev y = Eq) then r else r + 1)
          = 1 + Z.of_nat (size (ahd (pre ++ prev :: y :: l) y))) as Hy.
  { case_decide as E.
    - by rewrite <-(ahead_peer _ prev y E).
    - assert (cmp prev y = Lt) as Hlt.
      { unfold cmp_le in Hle. by destruct (cmp prev y). }
      rewrite (ahead_next_size _ prev y);
        [lia|by apply elem_of_app; right; left|done|].
      intros z Hz [Hpz Hzy].
      apply elem_of_app in Hz as [Hz|Hz].
      + apply (StronglySorted_app_1_elem_of _ _ _ z prev) in Hs;
          [|done|by left].
        apply (cmp_le_lt cmp) in Hs. done.
      + apply elem_of_cons in Hz as [->|Hz].
        { rewrite cmp_refl in Hpz; done. }
        apply StronglySorted_app_1_r, StronglySorted_cons in Hs as [_ Hs].
        apply elem_of_cons in Hz as [->|Hz].
        { rewrite cmp_refl in Hzy; done. }
        apply StronglySorted_cons in Hs as [Hs _].
        rewrite list.Forall_forall in Hs. apply Hs, (cmp_le_lt cmp) in Hz. done. }
  rewrite elem_of_cons. intros [[= -> ->]|Hin]; [done|].
  assert (pre ++ prev :: y :: l = (pre ++ [prev]) ++ y :: l) as E
    by (by rewrite <-(assoc_L (++))).
  rewrite E in Hs, Hy |- *.
  by apply (IH (pre ++ [prev]) y _ Hs Hy).
Qed.

Lemma dense_rank_spec l x rx :
  StronglySorted (cmp_le cmp) l →
  (x, rx) ∈ dense_rank cmp l → rx = 1 + Z.of_nat (size (ahd l x)).
Proof.
  destruct l as [|y l]; simpl; [by rewrite elem_of_nil|].
  intros Hs. assert (ahd (y :: l) y = ∅) as Hy.
  { apply set_eq. intros k. rewrite elem_of_ahead, elem_of_empty.
    split; [|done].
    intros (z & Hz & Hlt & _). apply elem_of_cons in Hz as [->|Hz].
    - rewrite cmp_refl in Hlt; done.
    - apply StronglySorted_cons in Hs as [Hs _]. rewrite list.Forall_forall in Hs.
      apply Hs, (cmp_le_lt cmp) in Hz. done. }
  rewrite elem_of_cons. intros [[= -> ->]|Hin].
  - by rewrite Hy, size_empty.
  - apply (dense_rank_from_spec [] y 1 l); [done| |done].
    simpl. by rewrite Hy, size_empty.
Qed.

Context {P : Type} `{EqDecision P} (part : A → P).

Lemma elem_of_dense_rank_over rows x rx :
  (x, rx) ∈ dense_rank_over part cmp rows ↔
  x ∈ rows ∧
  (x, rx) ∈ dense_rank cmp (order_by cmp (filter (λ y, part y = part x) rows)).
Proof.
  unfold dense_rank_over. rewrite list_elem_of_bind. split.
  - intros (g & Hin & Hg).
    assert (x ∈ filter (λ y, part y = g) rows) as Hx.
    { rewrite <-(elem_of_order_by cmp), <-(dense_rank_fst (order_by _ _)).
      by apply (list_elem_of_fmap_2 fst) in Hin. }
    apply list_elem_of_filter in Hx as [<- ?]. done.
  - intros [Hx Hin]. exists (part x). split; [done|].
    rewrite elem_of_remove_dups. by apply list_elem_of_fmap_2.
Qed.

Lemma dense_rank_over_spec rows x rx :
  (x, rx) ∈ dense_rank_over part cmp rows →
  rx = 1 + Z.of_nat (size (ahd (filter (λ y, part y = part x) rows) x)).
Proof.
  rewrite elem_of_dense_rank_over. intros [_ Hin].
  apply dense_rank_spec in Hin; [|by apply order_by_sorted].
  by rewrite (ahead_perm _ _ _ (order_by_perm cmp _)) in Hin.
Qed.

Lemma dense_rank_over_fst rows x :
  x ∈ rows ↔ ∃ rx, (x, rx) ∈ dense_rank_over part cmp rows.
Proof.
  split.
  - intros Hx.
    assert (x ∈ (dense_rank cmp
                   (order_by cmp (filter (λ y, part y = part x) rows))).*1)
      as Hin.
    { rewrite dense_rank_fst, elem_of_order_by, list_elem_of_filter. done. }
    apply list_elem_of_fmap in Hin as ([x' rx] & -> & Hin).
    exists rx. by apply elem_of_dense_rank_over.
  - intros [rx Hin]. by apply elem_of_dense_rank_over in Hin as [? _].
Qed.
End dense_rank.

(** * The ranking of a division *)

Lemma ranking_order_key x y :
  ranking_order x y = Eq ↔ ranking_key x = ranking_key y.
Proof.
  unfold ranking_order, ranking_key, tally_tuple, then_by, asc, desc. split.
  - destruct (Z.compare_spec (PodiumRow.total_tops y) (PodiumRow.total_tops x));
      [|done..].
    destruct (Z.compare_spec (PodiumRow.total_zones y) (PodiumRow.total_zones x));
      [|done..].
    destruct (Z.compare_spec (PodiumRow.total_top_attempts x)
                (PodiumRow.total_top_attempts y)); [|done..].
    destruct (Z.compare_spec (PodiumRow.total_zone_attempts x)
                (PodiumRow.total_zone_attempts y)); [|done..].
    intros E%String.compare_eq_iff. congruence.
  - intros [= -> -> -> -> ->]. rewrite !Z.compare_refl.
    apply (cmp_refl String.compare).
Qed.

Lemma elem_of_ranked db cid r :
  r ∈ ranked db cid ↔
  ∃ x rx, r = ranked_row cid (x, rx) ∧
    (x, rx) ∈ dense_rank_over (λ r, PerUser.division_id r.1) ranked_order
                (ranked_joined db cid).
Proof.
  unfold ranked. rewrite list_elem_of_fmap. split.
  - intros ([x rx] & -> & ?). by exists x, rx.
  - intros (x & rx & -> & ?). by exists (x, rx).
Qed.

Lemma ranked_order_key cid x y :
  ranked_order x y = Eq ↔
  ranking_key (ranked_row cid (x, 0)) = ranking_key (ranked_row cid (y, 0)).
Proof.
  apply (ranking_order_key (ranked_row cid (x, 0)) (ranked_row cid (y, 0))).
Qed.

(** The rank that [ranked] gives a row is one more than the number of
    distinct ranking keys that the rows of its division have before it. *)
Lemma ranked_rank db cid r :
  r ∈ ranked db cid →
  PodiumRow.rank r
  = 1 + Z.of_nat (size (ahead ranking_order ranking_key
                          (division_peers db cid r) r)).
Proof.
  intros (x & rx & -> & Hin)%elem_of_ranked.
  pose proof (dense_rank_over_spec ranked_order _ (ranked_order_key cid)
                _ _ _ _ Hin) as Hrx.
  simpl PodiumRow.rank. rewrite Hrx. do 3 f_equal.
  apply set_eq. intros k. rewrite !elem_of_ahead. unfold division_peers. split.
  - intros (y & [Hp Hy]%list_elem_of_filter & Hlt & Hk).
    apply (dense_rank_over_fst ranked_order (λ r, PerUser.division_id r.1))
      in Hy as [ry Hy].
    exists (ranked_row cid (y, ry)). split_and!; [|done..].
    apply list_elem_of_filter. split; [done|].
    apply elem_of_ranked. by exists y, ry.
  - intros (r' & [Hp (y & ry & -> & Hy)%elem_of_ranked]%list_elem_of_filter
            & Hlt & Hk).
    exists y. split_and!; [|done..].
    apply list_elem_of_filter. split; [done|].
    apply (dense_rank_over_fst ranked_order (λ r, PerUser.division_id r.1)).
    by exists ry.
Qed.

Lemma ranked_sample_db :
  ranked sample_db 10 = [alice_row; bob_row; carol_row].
Proof. vm_compute. reflexivity. Qed.

Example spring_report_computed :
  competition_summary sample_db 10 None = Report spring_report.
Proof. vm_compute. reflexivity. Qed.

Example spring_open_report_computed :
  competition_summary sample_db 10 (Some 20%N) = Report spring_open_report.
Proof. vm_compute. reflexivity. Qed.

Example unknown_competition_not_found :
  competition_summary sample_db 12 None = NotFound.
Proof. vm_compute. reflexivity. Qed.

(** C1, as stated, fails: Alice and Bob have the same four totals in the same
    division, and [ranked] gives them the ranks 1 and 2. *)
Lemma same_tuple_distinct_rank :
  ¬ (∀ db cid r1 r2,
       r1 ∈ ranked db cid → r2 ∈ ranked db cid →
       PodiumRow.division_id r1 = PodiumRow.division_id r2 →
       tally_tuple r1 = tally_tuple r2 →
       PodiumRow.rank r1 = PodiumRow.rank r2).
Proof.
  intros Hclaim.
  specialize (Hclaim sample_db 10%N alice_row bob_row).
  rewrite ranked_sample_db in Hclaim.
  assert (PodiumRow.rank alice_row = PodiumRow.rank bob_row) as Hrank.
  { apply Hclaim; [by left|by right; left|reflexivity|reflexivity]. }
  discriminate Hrank.
Qed.

(** C1, amended: in every division the rank of a tallied user is the dense
    rank of the five-stage key (tops and zones descending, top and zone
    attempts ascending, display name ascending). It is one more than the
    number of distinct keys before the user's; two users of a division share
    a rank exactly when their four totals and their display names agree; a
    better key has a smaller rank; and the next distinct key has the previous
    rank plus one. *)
Theorem rank_is_dense_rank_of_ranking_key db cid r :
  r ∈ ranked db cid →
  PodiumRow.rank r
    = 1 + Z.of_nat (size (ahead ranking_order ranking_key
                            (division_peers db cid r) r))
  ∧ ∀ r', r' ∈ ranked db cid →
          PodiumRow.division_id r' = PodiumRow.division_id r →
          (PodiumRow.rank r' = PodiumRow.rank r ↔ ranking_key r' = ranking_key r)
          ∧ (PodiumRow.rank r' < PodiumRow.rank r ↔ ranking_order r' r = Lt)
          ∧ (ranking_order r' r = Lt →
             (∀ r'', r'' ∈ ranked db cid →
                     PodiumRow.division_id r'' = PodiumRow.division_id r →
                     ¬ (ranking_order r' r'' = Lt ∧ ranking_order r'' r = Lt)) →
             PodiumRow.rank r = PodiumRow.rank r' + 1).
Proof.
  intros Hr. split; [by apply ranked_rank|].
  intros r' Hr' Hdiv.
  assert (division_peers db cid r' = division_peers db cid r) as Hpeers.
  { unfold division_peers. by rewrite Hdiv. }
  assert (r' ∈ division_peers db cid r) as Hin'.
  { by apply list_elem_of_filter. }
  assert (r ∈ division_peers db cid r) as Hin.
  { by apply list_elem_of_filter. }
  rewrite (ranked_rank db cid r Hr), (ranked_rank db cid r' Hr'), Hpeers.
  set (l := division_peers db cid r) in *.
  assert (∀ x y, x ∈ l → ranking_order x y = Lt →
                 (size (ahead ranking_order ranking_key l x)
                  < size (ahead ranking_order ranking_key l y))%nat) as Hlt.
  { intros x y. apply ahead_lt_size; [apply _|apply ranking_order_key]. }
  assert (∀ x y, ranking_order x y = Eq →
                 ahead ranking_order ranking_key l x
                 = ahead ranking_order ranking_key l y) as Heq.
  { intros x y. apply ahead_peer; apply _. }
  split_and!.
  - rewrite <-ranking_order_key. split.
    + intros E. destruct (ranking_order r' r) eqn:Hc; [done| |].
      * apply Hlt in Hc; [lia|done].
      * apply (cmp_gt_lt ranking_order), Hlt in Hc; [lia|done].
    + intros E. by rewrite (Heq r' r E).
  - split.
    + intros E. destruct (ranking_order r' r) eqn:Hc; [|done|].
      * rewrite (Heq r' r Hc) in E. lia.
      * apply (cmp_gt_lt ranking_order), Hlt in Hc; [lia|done].
    + intros Hc. apply Hlt in Hc; [lia|done].
  - intros Hc Hnone.
    rewrite (ahead_next_size ranking_order ranking_key ranking_order_key
               l r' r Hin' Hc); [lia|].
    intros z [Hz1 Hz2]%list_elem_of_filter. by apply Hnone.
Qed.

Lemma rank_is_dense_rank_of_ranking_key_witness :
  PodiumRow.rank bob_row
    = 1 + Z.of_nat (size (ahead ranking_order ranking_key
                            (division_peers sample_db 10 bob_row) bob_row))
  ∧ ∀ r', r' ∈ ranked sample_db 10 →
          PodiumRow.division_id r' = PodiumRow.division_id bob_row →
          (PodiumRow.rank r' = PodiumRow.rank bob_row
           ↔ ranking_key r' = ranking_key bob_row)
          ∧ (PodiumRow.rank r' < PodiumRow.rank bob_row
             ↔ ranking_order r' bob_row = Lt)
          ∧ (ranking_order r' bob_row = Lt →
             (∀ r'', r'' ∈ ranked sample_db 10 →
                     PodiumRow.division_id r'' = PodiumRow.division_id bob_row →
                     ¬ (ranking_order r' r'' = Lt
                        ∧ ranking_order r'' bob_row = Lt)) →
             PodiumRow.rank bob_row = PodiumRow.rank r' + 1).
Proof.
  apply (rank_is_dense_rank_of_ranking_key sample_db 10%N bob_row).
  rewrite ranked_sample_db. right. left.
Defined.


(** * The report *)

(** What a report is made of, when there is one. *)
Lemma competition_summary_report db id division_id rep :
  competition_summary db id division_id = Report rep →
  CompetitionReport.competition rep ∈ competitions db
  ∧ CompetitionRow.id (CompetitionReport.competition rep) = id
  ∧ CompetitionReport.divisions rep
    = division_report (podium_filter division_id (podiums_select db id 3))
        <$> summaries db id division_id.
Proof.
  unfold competition_summary, podiumRows, competition_division_podiums.
  destruct (filter _ (competitions db)) as [|comp comps] eqn:E; [done|].
  case_decide; [|done].
  intros [= <-]. simpl.
  assert (comp ∈ filter (λ c, CompetitionRow.id c = id) (competitions db))
    as [? ?]%list_elem_of_filter by (rewrite E; left).
  by destruct comp.
Qed.





Lemma elem_of_summaries db id division_id s :
  s ∈ summaries db id division_id ↔
  ∃ d, d ∈ divisions db ∧ Division.competition_id d = id
       ∧ divisionFilterClause division_id d ∧ s = summary_row db id d.
Proof.
  unfold summaries. rewrite list_elem_of_fmap.
  setoid_rewrite (elem_of_order_by summary_order).
  setoid_rewrite list_elem_of_filter. split.
  - intros (d & -> & [? ?] & ?). by exists d.
  - intros (d & ? & ? & ? & ->). by exists d.
Qed.


(** The rows that the handler keeps for a division that passes the filter
    are the rows of the procedure for that division. *)
Lemma podiumRows_division db id division_id d :
  divisionFilterClause division_id d →
  filter (λ p, PodiumRow.division_id p = Division.id d)
    (podium_filter division_id (podiums_select db id 3))
  = filter (λ p, PodiumRow.division_id p = Division.id d)
      (podiums_select db id 3).
Proof.
  unfold podium_filter. destruct division_id as [f|]; simpl; [|done].
  intros <-. by apply list_filter_filter_l.
Qed.

(** The divisions of a report, one by one. *)
Lemma elem_of_report_divisions db id division_id rep dr :
  competition_summary db id division_id = Report rep →
  dr ∈ CompetitionReport.divisions rep ↔
  ∃ d, d ∈ divisions db ∧ Division.competition_id d = id
       ∧ divisionFilterClause division_id d
       ∧ dr = division_report (podiums_select db id 3)
                (summary_row db id d).
Proof.
  intros (_ & _ & ->)%competition_summary_report.
  rewrite list_elem_of_fmap. setoid_rewrite elem_of_summaries. split.
  - intros (s & -> & d & ? & ? & Hf & ->). exists d. split_and!; [done..|].
    unfold division_report. simpl. by rewrite (podiumRows_division _ _ _ _ Hf).
  - intros (d & ? & ? & Hf & ->). exists (summary_row db id d).
    split; [|by exists d].
    unfold division_report. simpl. by rewrite (podiumRows_division _ _ _ _ Hf).
Qed.






(** ** Where the rows of the procedure come from *)

Lemma elem_of_division_problems db cid dp :
  dp ∈ division_problems db cid ↔
  ∃ p d, p ∈ problems db ∧ d ∈ divisions db
         ∧ Problem.division_id p = Some (Division.id d)
         ∧ Problem.competition_id p = cid
         ∧ dp = DivisionProblem.mk (Problem.id p) (Division.id d)
                  (Division.name d).
Proof.
  unfold division_problems. rewrite list_elem_of_fmap. split.
  - intros ([p d] & -> & [Hc (? & ? & ?)%elem_of_inner_join]%list_elem_of_filter).
    by exists p, d.
  - intros (p & d & ? & ? & ? & ? & ->). exists (p, d). split; [done|].
    apply list_elem_of_filter. split; [done|]. by apply elem_of_inner_join.
Qed.

Lemma elem_of_per_user_joined db cid r :
  r ∈ per_user_joined db cid ↔
  r.1 ∈ division_problems db cid ∧ r.2 ∈ ascents db
  ∧ Ascent.problem_id r.2 = DivisionProblem.problem_id r.1.
Proof.
  apply (elem_of_inner_join
           (λ r, Ascent.problem_id r.2 = DivisionProblem.problem_id r.1)).
Qed.

Lemma elem_of_per_user db cid t :
  t ∈ per_user db cid ↔
  ∃ r, r ∈ per_user_joined db cid
       ∧ t = per_user_row (per_user_joined db cid) (per_user_group r).
Proof.
  unfold per_user. rewrite list_elem_of_fmap.
  setoid_rewrite elem_of_remove_dups. setoid_rewrite list_elem_of_fmap. split.
  - intros (g & -> & r & -> & ?). by exists r.
  - intros (r & ? & ->). exists (per_user_group r). split; [done|]. by exists r.
Qed.

(** A row of [ranked] stands for a user who has an ascent on a problem of the
    competition, in the division of that problem. *)
Lemma ranked_origin db cid r :
  r ∈ ranked db cid →
  ∃ p d a, p ∈ problems db ∧ d ∈ divisions db ∧ a ∈ ascents db
           ∧ Problem.competition_id p = cid
           ∧ Problem.division_id p = Some (Division.id d)
           ∧ Ascent.problem_id a = Problem.id p
           ∧ PodiumRow.division_id r = Division.id d
           ∧ PodiumRow.division_name r = Division.name d
           ∧ PodiumRow.user_id r = Ascent.user_id a.
Proof.
  intros (x & rx & -> & Hin)%elem_of_ranked.
  apply elem_of_dense_rank_over in Hin as [Hx _].
  apply elem_of_inner_join in Hx as (Ht & Hu & Hon).
  apply elem_of_per_user in Ht as ([dp a] & Hr & Ht).
  apply elem_of_per_user_joined in Hr as (Hdp & Ha & Hpa). simpl in *.
  apply elem_of_division_problems in Hdp as (p & d & ? & ? & ? & ? & ->).
  exists p, d, a. simpl in *. rewrite Hon, Ht. done.
Qed.

Lemma NoDup_fmap_elem_inj {A B} (f : A → B) (l : list A) x y :
  NoDup (f <$> l) → x ∈ l → y ∈ l → f x = f y → x = y.
Proof.
  induction l as [|z l IH]; [by intros _ ?%elem_of_nil|].
  csimpl. intros [Hz Hl]%list.NoDup_cons [->|Hx]%elem_of_cons [->|Hy]%elem_of_cons E;
    [done| | |by apply IH].
  - destruct Hz. rewrite E. by apply list_elem_of_fmap_2.
  - destruct Hz. rewrite <-E. by apply list_elem_of_fmap_2.
Qed.

(** With [divisions.id] a key, the division id of a row of [ranked] decides
    its division name. *)
Lemma ranked_division_name db cid r1 r2 :
  divisions_pkey db → r1 ∈ ranked db cid → r2 ∈ ranked db cid →
  PodiumRow.division_id r1 = PodiumRow.division_id r2 →
  PodiumRow.division_name r1 = PodiumRow.division_name r2.
Proof.
  intros Hkey (_ & d1 & _ & _ & Hd1 & _ & _ & _ & _ & Hi1 & Hn1 & _)%ranked_origin
              (_ & d2 & _ & _ & Hd2 & _ & _ & _ & _ & Hi2 & Hn2 & _)%ranked_origin
              E.
  rewrite Hn1, Hn2. f_equal.
  apply (NoDup_fmap_elem_inj Division.id (divisions db)); [done..|congruence].
Qed.

Lemma StronglySorted_filter {A} (R : relation A) (P : A → Prop)
    `{∀ x, Decision (P x)} (l : list A) :
  StronglySorted R l → StronglySorted R (filter P l).
Proof.
  induction 1 as [|x l Hs IH Hall]; [constructor|].
  rewrite filter_cons. case_decide; [|done].
  constructor; [done|]. rewrite list.Forall_forall in Hall.
  apply list.Forall_forall. intros y [_ ?]%list_elem_of_filter. by apply Hall.
Qed.

Lemma StronglySorted_fmap_elem {A B} (R : relation A) (S : relation B)
    (f : A → B) (l : list A) :
  (∀ x y, x ∈ l → y ∈ l → R x y → S (f x) (f y)) →
  StronglySorted R l → StronglySorted S (f <$> l).
Proof.
  intros HRS. induction 1 as [|x l Hs IH Hall]; [constructor|].
  rewrite fmap_cons. constructor.
  - apply IH. intros y z ??. apply HRS; by right.
  - rewrite list.Forall_forall in Hall. apply list.Forall_forall.
    intros ? (y & -> & Hy)%list_elem_of_fmap.
    apply HRS; [left|by right|by apply Hall].
Qed.

Lemma StronglySorted_impl {A} (R S : relation A) (l : list A) :
  (∀ x y, R x y → S x y) → StronglySorted R l → StronglySorted S l.
Proof.
  intros HRS Hs. rewrite <-(list_fmap_id l).
  apply (StronglySorted_fmap_elem R S id); [|done].
  intros x y _ _. apply HRS.
Qed.

(** The podium of a division of the report, as the procedure gives it. *)
Lemma report_podium db id division_id rep dr :
  competition_summary db id division_id = Report rep →
  dr ∈ CompetitionReport.divisions rep →
  DivisionReport.podium dr
  = standing
      <$> filter (λ p, PodiumRow.division_id p = DivisionReport.division_id dr)
            (podiums_select db id 3).
Proof.
  intros Hrep Hdr.
  destruct (proj1 (elem_of_report_divisions _ _ _ _ dr Hrep) Hdr)
    as (d & _ & _ & _ & ->).
  reflexivity.
Qed.

(** Every tally whose user is in [users] is ranked. *)
Lemma per_user_ranked db cid t u :
  t ∈ per_user db cid → u ∈ users db → User.id u = PerUser.user_id t →
  ∃ rnk, ranked_row cid (t, u, rnk) ∈ ranked db cid.
Proof.
  intros Ht Hu Hid.
  assert ((t, u) ∈ ranked_joined db cid) as Hin.
  { apply (elem_of_inner_join (λ r, User.id r.2 = PerUser.user_id r.1)).
    done. }
  apply (dense_rank_over_fst ranked_order (λ r, PerUser.division_id r.1))
    in Hin as [rnk Hin].
  exists rnk. apply elem_of_ranked. by exists (t, u), rnk.
Qed.

(** C3, as stated, fails, when a tie is a tie of the four totals as the spec
    has it: in "Winter Cup" Sam and Tom have the same four totals, so the
    dense rank of the four totals is 3 for both, and Tom is not on the
    podium. *)
Lemma tied_totals_left_off_podium :
  ¬ (∀ db id division_id rep dr r,
       competition_summary db id division_id = Report rep →
       dr ∈ CompetitionReport.divisions rep →
       r ∈ ranked db id →
       PodiumRow.division_id r = DivisionReport.division_id dr →
       tally_dense_rank db id r ≤ 3 →
       PodiumRow.user_id r ∈ Standing.user_id <$> DivisionReport.podium dr).
Proof.
  intros Hclaim.
  specialize (Hclaim tie_db 12%N None winter_report winter_open_report tom_row).
  assert (PodiumRow.user_id tom_row
          ∈ Standing.user_id <$> DivisionReport.podium winter_open_report)
    as Hin.
  { apply Hclaim.
    - vm_compute. reflexivity.
    - left.
    - by_compute.
    - reflexivity.
    - by_compute. }
  revert Hin. by_compute.
Qed.

(** Within [ranked], the rank column is the dense rank of the key. *)
Lemma ranked_key_dense_rank db cid r :
  r ∈ ranked db cid → PodiumRow.rank r = key_dense_rank db cid r.
Proof. apply ranked_rank. Qed.

(** Two rows of a division with one rank have one ranking key. *)
Lemma ranked_rank_key db cid r r' :
  r ∈ ranked db cid → r' ∈ ranked db cid →
  PodiumRow.division_id r' = PodiumRow.division_id r →
  PodiumRow.rank r' = PodiumRow.rank r → ranking_key r' = ranking_key r.
Proof.
  intros Hr Hr' Hdiv.
  assert (division_peers db cid r' = division_peers db cid r) as Hpeers.
  { unfold division_peers. by rewrite Hdiv. }
  assert (r' ∈ division_peers db cid r) as Hin'.
  { by apply list_elem_of_filter. }
  assert (r ∈ division_peers db cid r) as Hin.
  { by apply list_elem_of_filter. }
  rewrite (ranked_rank db cid r Hr), (ranked_rank db cid r' Hr'), Hpeers.
  set (l := division_peers db cid r) in *.
  assert (∀ x y, x ∈ l → ranking_order x y = Lt →
                 (size (ahead ranking_order ranking_key l x)
                  < size (ahead ranking_order ranking_key l y))%nat) as Hlt.
  { intros x y. apply ahead_lt_size; [apply _|apply ranking_order_key]. }
  rewrite <-ranking_order_key.
  intros E. destruct (ranking_order r' r) eqn:Hc; [done| |].
  - apply Hlt in Hc; [lia|done].
  - apply (cmp_gt_lt ranking_order), Hlt in Hc; [lia|done].
Qed.

(** A podium of more than three standings has two standings, at different
    places, with one rank, one display name and the same four totals. *)
Lemma crowded_podium_ties db id division_id rep dr :
  competition_summary db id division_id = Report rep →
  dr ∈ CompetitionReport.divisions rep →
  (3 < length (DivisionReport.podium dr))%nat →
  ∃ i j s1 s2,
    i ≠ j
    ∧ DivisionReport.podium dr !! i = Some s1
    ∧ DivisionReport.podium dr !! j = Some s2
    ∧ Standing.rank s1 = Standing.rank s2
    ∧ Standing.user_display_name s1 = Standing.user_display_name s2
    ∧ Standing.total_tops s1 = Standing.total_tops s2
    ∧ Standing.total_zones s1 = Standing.total_zones s2
    ∧ Standing.total_top_attempts s1 = Standing.total_top_attempts s2
    ∧ Standing.total_zone_attempts s1 = Standing.total_zone_attempts s2.
Proof.
  intros Hrep Hdr.
  rewrite (report_podium _ _ _ _ _ Hrep Hdr).
  set (L := filter _ _).
  assert (∀ r, r ∈ L → r ∈ ranked db id
                        ∧ PodiumRow.division_id r = DivisionReport.division_id dr
                        ∧ 1 ≤ PodiumRow.rank r ≤ 3) as HL.
  { intros r [Hdiv Hr]%list_elem_of_filter. unfold podiums_select in Hr.
    rewrite (elem_of_order_by podiums_order) in Hr.
    apply list_elem_of_filter in Hr as [Hle Hr].
    split_and!; [done..| |done].
    rewrite (ranked_rank db id r Hr). lia. }
  assert (∀ i j r1 r2, i ≠ j → L !! i = Some r1 → L !! j = Some r2 →
            PodiumRow.rank r1 = PodiumRow.rank r2 →
            ∃ i j s1 s2,
              i ≠ j
              ∧ (standing <$> L) !! i = Some s1
              ∧ (standing <$> L) !! j = Some s2
              ∧ Standing.rank s1 = Standing.rank s2
              ∧ Standing.user_display_name s1 = Standing.user_display_name s2
              ∧ Standing.total_tops s1 = Standing.total_tops s2
              ∧ Standing.total_zones s1 = Standing.total_zones s2
              ∧ Standing.total_top_attempts s1 = Standing.total_top_attempts s2
              ∧ Standing.total_zone_attempts s1 = Standing.total_zone_attempts s2)
    as Hpair.
  { intros i j r1 r2 Hij H1 H2 Hrk.
    destruct (HL r1) as (Hr1 & Hd1 & _); [by eapply list_elem_of_lookup_2|].
    destruct (HL r2) as (Hr2 & Hd2 & _); [by eapply list_elem_of_lookup_2|].
    assert (ranking_key r1 = ranking_key r2) as Hk.
    { apply (ranked_rank_key db id r2 r1); [done..|congruence|done]. }
    injection Hk as ? ? ? ? ?.
    exists i, j, (standing r1), (standing r2).
    rewrite !list_lookup_fmap, H1, H2. by split_and!. }
  rewrite length_fmap. intros Hlen.
  destruct L as [|a [|b [|c [|d L']]]]; simpl in Hlen; try lia.
  destruct (HL a) as (_ & _ & ?); [left|].
  destruct (HL b) as (_ & _ & ?); [right; left|].
  destruct (HL c) as (_ & _ & ?); [do 2 right; left|].
  destruct (HL d) as (_ & _ & ?); [do 3 right; left|].
  destruct (decide (PodiumRow.rank a = PodiumRow.rank b)) as [E|?];
    [by apply (Hpair 0%nat 1%nat a b)|].
  destruct (decide (PodiumRow.rank a = PodiumRow.rank c)) as [E|?];
    [by apply (Hpair 0%nat 2%nat a c)|].
  destruct (decide (PodiumRow.rank a = PodiumRow.rank d)) as [E|?];
    [by apply (Hpair 0%nat 3%nat a d)|].
  destruct (decide (PodiumRow.rank b = PodiumRow.rank c)) as [E|?];
    [by apply (Hpair 1%nat 2%nat b c)|].
  destruct (decide (PodiumRow.rank b = PodiumRow.rank d)) as [E|?];
    [by apply (Hpair 1%nat 3%nat b d)|].
  destruct (decide (PodiumRow.rank c = PodiumRow.rank d)) as [E|?];
    [by apply (Hpair 2%nat 3%nat c d)|].
  lia.
Qed.

(** C3, amended: every tallied user is ranked, and the podium of a division
    holds exactly the tallied users of that division whose dense rank by the
    five-stage key (the four totals, then the display name) is at most 3,
    each once: those of a greater rank are left out, also when they have the
    four totals of a user on the podium. A podium of more than three
    standings holds two standings that share a rank, the four totals and the
    display name, and there is such a podium: of four standings, with two
    users called Sam on rank 3. *)
Theorem podium_is_key_dense_rank_at_most_3 :
  (∀ db id t u,
     t ∈ per_user db id → u ∈ users db → User.id u = PerUser.user_id t →
     ∃ rnk, ranked_row id (t, u, rnk) ∈ ranked db id)
  ∧ (∀ db id division_id rep dr,
       competition_summary db id division_id = Report rep →
       dr ∈ CompetitionReport.divisions rep →
       DivisionReport.podium dr
       ≡ₚ standing
            <$> filter (λ r, PodiumRow.division_id r
                             = DivisionReport.division_id dr
                             ∧ key_dense_rank db id r ≤ 3)
                  (ranked db id))
  ∧ (∀ db id division_id rep dr r,
       competition_summary db id division_id = Report rep →
       dr ∈ CompetitionReport.divisions rep →
       r ∈ ranked db id →
       PodiumRow.division_id r = DivisionReport.division_id dr →
       standing r ∈ DivisionReport.podium dr ↔ key_dense_rank db id r ≤ 3)
  ∧ (∀ db id division_id rep dr,
       competition_summary db id division_id = Report rep →
       dr ∈ CompetitionReport.divisions rep →
       (3 < length (DivisionReport.podium dr))%nat →
       ∃ i j s1 s2,
         i ≠ j
         ∧ DivisionReport.podium dr !! i = Some s1
         ∧ DivisionReport.podium dr !! j = Some s2
         ∧ Standing.rank s1 = Standing.rank s2
         ∧ Standing.user_display_name s1 = Standing.user_display_name s2
         ∧ Standing.total_tops s1 = Standing.total_tops s2
         ∧ Standing.total_zones s1 = Standing.total_zones s2
         ∧ Standing.total_top_attempts s1 = Standing.total_top_attempts s2
         ∧ Standing.total_zone_attempts s1 = Standing.total_zone_attempts s2)
  ∧ (∃ db id division_id rep dr s1 s2,
       competition_summary db id division_id = Report rep
       ∧ dr ∈ CompetitionReport.divisions rep
       ∧ (3 < length (DivisionReport.podium dr))%nat
       ∧ s1 ∈ DivisionReport.podium dr ∧ s2 ∈ DivisionReport.podium dr
       ∧ Standing.user_id s1 ≠ Standing.user_id s2
       ∧ Standing.rank s1 = 3 ∧ Standing.rank s2 = 3
       ∧ Standing.user_display_name s1 = Standing.user_display_name s2
       ∧ Standing.total_tops s1 = Standing.total_tops s2
       ∧ Standing.total_zones s1 = Standing.total_zones s2
       ∧ Standing.total_top_attempts s1 = Standing.total_top_attempts s2
       ∧ Standing.total_zone_attempts s1 = Standing.total_zone_attempts s2).
Proof.
  assert (∀ db id division_id rep dr,
            competition_summary db id division_id = Report rep →
            dr ∈ CompetitionReport.divisions rep →
            DivisionReport.podium dr
            ≡ₚ standing
                 <$> filter (λ r, PodiumRow.division_id r
                                  = DivisionReport.division_id dr
                                  ∧ key_dense_rank db id r ≤ 3)
                       (ranked db id)) as Hperm.
  { intros db id division_id rep dr Hrep Hdr.
    rewrite (report_podium _ _ _ _ _ Hrep Hdr).
    unfold podiums_select.
    rewrite (order_by_perm podiums_order), list_filter_filter.
    f_equiv. apply reflexive_eq, filter_ext_elem. intros r Hr.
    by rewrite (ranked_key_dense_rank db id r Hr). }
  split_and!; [|done| | |].
  - intros db id t u. apply per_user_ranked.
  - intros db id division_id rep dr r Hrep Hdr Hr Hdiv.
    rewrite (Hperm _ _ _ _ _ Hrep Hdr), list_elem_of_fmap. split.
    + intros (r' & E & [[_ Hle] Hr']%list_elem_of_filter).
      rewrite <-(ranked_key_dense_rank db id r Hr).
      rewrite <-(ranked_key_dense_rank db id r' Hr') in Hle.
      assert (Standing.rank (standing r) = Standing.rank (standing r')) as Hrk
        by by rewrite E.
      simpl in Hrk. lia.
    + intros Hle. exists r. split; [done|]. by apply list_elem_of_filter.
  - apply crowded_podium_ties.
  - exists sample_db, 11%N, None. eexists. eexists.
    exists (Standing.mk 7 "Sam" 3 1 1 3 1), (Standing.mk 8 "Sam" 3 1 1 3 1).
    split; [vm_compute; reflexivity|]. split; [left|].
    split; [simpl; lia|].
    split; [simpl; repeat (first [by left|right])|].
    split; [simpl; repeat (first [by left|right])|].
    split; [done|]. by repeat split.
Qed.

(** C10: with [divisions.id] a key, every podium of the report is in order
    of rank, and standings of one rank are in order of display name. *)
Theorem podium_sorted_by_rank_then_name db id division_id rep dr :
  divisions_pkey db →
  competition_summary db id division_id = Report rep →
  dr ∈ CompetitionReport.divisions rep →
  StronglySorted standing_le (DivisionReport.podium dr).
Proof.
  intros Hkey Hrep Hdr. rewrite (report_podium _ _ _ _ _ Hrep Hdr).
  apply (StronglySorted_fmap_elem (cmp_le podiums_order)).
  - intros x y [Hx Hx']%list_elem_of_filter [Hy Hy']%list_elem_of_filter.
    unfold podiums_select in Hx', Hy'.
    rewrite (elem_of_order_by podiums_order) in Hx', Hy'.
    apply list_elem_of_filter in Hx' as [_ Hx'], Hy' as [_ Hy'].
    assert (PodiumRow.division_name x = PodiumRow.division_name y) as Hname.
    { apply (ranked_division_name db id); [done..|congruence]. }
    unfold cmp_le, podiums_order, then_by, asc, standing_le. simpl.
    rewrite Hname, (cmp_refl String.compare).
    destruct (Z.compare_spec (PodiumRow.rank x) (PodiumRow.rank y));
      [by right|by left|done].
  - apply StronglySorted_filter, order_by_sorted. apply _.
Qed.

Lemma podium_sorted_by_rank_then_name_witness :
  StronglySorted standing_le (DivisionReport.podium open_report).
Proof.
  apply (podium_sorted_by_rank_then_name sample_db 10%N (Some 20%N)
           spring_open_report open_report).
  - by_compute.
  - vm_compute. reflexivity.
  - left.
Defined.

(** ** The order of the divisions *)

Lemma summary_order_le d1 d2 :
  cmp_le summary_order d1 d2 ↔ division_le d1 d2.
Proof.
  unfold cmp_le, summary_order, then_by, asc, nulls_last, division_le.
  destruct (Division.sort_order d1) as [k1|], (Division.sort_order d2) as [k2|];
    [|done..].
  destruct (Z.compare_spec k1 k2); split; try done; try lia.
  - by right.
  - by intros [?|[_ ?]]; [lia|].
Qed.

Lemma summary_order_eq_name d1 d2 :
  summary_order d1 d2 = Eq → Division.name d1 = Division.name d2.
Proof.
  unfold summary_order, then_by, asc.
  destruct (nulls_last Z.compare _ _); [|done..].
  apply String.compare_eq_iff.
Qed.

Lemma report_division_ids db id rep :
  competition_summary db id None = Report rep →
  report_label <$> CompetitionReport.divisions rep
  = division_label
      <$> order_by summary_order
            (filter (λ d, Division.competition_id d = id) (divisions db)).
Proof.
  intros (_ & _ & ->)%competition_summary_report. unfold summaries.
  rewrite <-!list_fmap_compose.
  rewrite (list_filter_iff _ (λ d, Division.competition_id d = id));
    [|by intros d; simpl; intuition].
  by apply list_fmap_ext.
Qed.

(** On the divisions of one competition the order is strict when
    (competition_id, name) is a key: two rows that the order does not tell
    apart are the same row. *)
Lemma summary_order_antisym db db' id d1 d2 :
  divisions_competition_id_name_key db → divisions db' ≡ₚ divisions db →
  d1 ∈ filter (λ d, Division.competition_id d = id) (divisions db) →
  d2 ∈ filter (λ d, Division.competition_id d = id) (divisions db') →
  cmp_le summary_order d1 d2 → cmp_le summary_order d2 d1 → d1 = d2.
Proof.
  intros Hkey Hperm [Hc1 Hd1]%list_elem_of_filter [Hc2 Hd2]%list_elem_of_filter
         Hle1 Hle2.
  rewrite Hperm in Hd2.
  apply (NoDup_fmap_elem_inj
           (λ d, (Division.competition_id d, Division.name d)) (divisions db));
    [done..|].
  f_equal; [congruence|].
  by apply summary_order_eq_name, (cmp_le_antisym summary_order).
Qed.

(** C9: without a division filter the report lists exactly the divisions of
    the competition, each once, in the order of the sort key with nulls last
    and then of the name; and, (competition_id, name) being a key, a second
    computation gives the same order whatever the order in which the table
    is stored. *)
Theorem divisions_in_sort_order db id rep :
  divisions_competition_id_name_key db →
  competition_summary db id None = Report rep →
  (∃ ds, ds ≡ₚ filter (λ d, Division.competition_id d = id) (divisions db)
         ∧ StronglySorted division_le ds
         ∧ report_label <$> CompetitionReport.divisions rep
           = division_label <$> ds)
  ∧ (∀ db' rep',
       divisions db' ≡ₚ divisions db →
       competition_summary db' id None = Report rep' →
       report_label <$> CompetitionReport.divisions rep'
       = report_label <$> CompetitionReport.divisions rep).
Proof.
  intros Hkey Hrep. split.
  - eexists. split_and!; [apply (order_by_perm summary_order)| |
                          by apply report_division_ids].
    apply (StronglySorted_impl (cmp_le summary_order)).
    + intros x y. apply summary_order_le.
    + apply order_by_sorted. apply _.
  - intros db' rep' Hperm Hrep'.
    rewrite (report_division_ids _ _ _ Hrep), (report_division_ids _ _ _ Hrep').
    f_equal. symmetry.
    apply (StronglySorted_unique_strong (cmp_le summary_order)).
    + intros d1 d2 Hd1 Hd2.
      rewrite (elem_of_order_by summary_order) in Hd1, Hd2.
      by apply (summary_order_antisym db db' id).
    + apply order_by_sorted. apply _.
    + apply order_by_sorted. apply _.
    + rewrite !(order_by_perm summary_order). by rewrite Hperm.
Qed.

Lemma divisions_in_sort_order_witness :
  (∃ ds, ds ≡ₚ filter (λ d, Division.competition_id d = 10%N)
                 (divisions sample_db)
         ∧ StronglySorted division_le ds
         ∧ report_label <$> CompetitionReport.divisions spring_report
           = division_label <$> ds)
  ∧ (∀ db' rep',
       divisions db' ≡ₚ divisions sample_db →
       competition_summary db' 10 None = Report rep' →
       report_label <$> CompetitionReport.divisions rep'
       = report_label <$> CompetitionReport.divisions spring_report).
Proof.
  apply (divisions_in_sort_order sample_db 10%N spring_report).
  - by_compute.
  - vm_compute. reflexivity.
Defined.

(** ** Divisions without problems or without ascents *)








(** ** The participants of a division *)

Lemma length_remove_dups_size `{Countable A} (l : list A) :
  length (remove_dups l) = size (list_to_set l : gset A).
Proof.
  rewrite <-(size_list_to_set (C:=gset A) (remove_dups l))
    by apply NoDup_remove_dups.
  f_equal. apply set_eq. intros x.
  by rewrite !elem_of_list_to_set, elem_of_remove_dups.
Qed.

Lemma participant_count_size db cid did :
  participant_count db cid did
  = Z.of_nat (size (list_to_set
                      (Participant.user_id
                         <$> filter (λ cp, Participant.competition_id cp = cid
                                           ∧ Participant.division_id cp = Some did)
                               (competition_participants db))
                    ∪ list_to_set
                        ((λ r, Ascent.user_id r.2)
                           <$> filter (λ r, in_division cid did r.1)
                                 (inner_join (problems db) (ascents db)
                                    (λ r, Ascent.problem_id r.2 = Problem.id r.1)))
                    : gset uuid)).
Proof.
  unfold participant_count, count_distinct, sql_union, coalesce, scalar. simpl.
  rewrite <-list_to_set_app_L, !length_remove_dups_size. do 2 f_equal.
  apply set_eq. intros x.
  by rewrite !elem_of_list_to_set, elem_of_remove_dups.
Qed.

(** C2: the participant_count of a division of the report is the number of
    users in the union of the users registered in the division and the users
    with an ascent on a problem of the division: a user in both counts once,
    and a user with an ascent who never joined counts. *)
Theorem participant_count_is_union db id division_id rep dr :
  competition_summary db id division_id = Report rep →
  dr ∈ CompetitionReport.divisions rep →
  ∃ registered climbed : gset uuid,
    (∀ u, u ∈ registered
          ↔ registered_in_division db id (DivisionReport.division_id dr) u)
    ∧ (∀ u, u ∈ climbed
            ↔ climbed_in_division db id (DivisionReport.division_id dr) u)
    ∧ DivisionReport.participant_count dr
      = Z.of_nat (size (registered ∪ climbed)).
Proof.
  intros Hrep Hdr.
  destruct (proj1 (elem_of_report_divisions _ _ _ _ dr Hrep) Hdr)
    as (d & _ & _ & _ & ->).
  simpl. eexists _, _. split_and!; [| |apply participant_count_size].
  - intros u. rewrite elem_of_list_to_set, list_elem_of_fmap.
    unfold registered_in_division. split.
    + intros (cp & -> & [[? ?] ?]%list_elem_of_filter). by exists cp.
    + intros (cp & ? & <- & ? & ?). exists cp. split; [done|].
      by apply list_elem_of_filter.
  - intros u. rewrite elem_of_list_to_set, list_elem_of_fmap.
    unfold climbed_in_division. split.
    + intros ([p a] & -> & [? (? & ? & ?)%elem_of_inner_join]%list_elem_of_filter).
      by exists p, a.
    + intros (p & a & ? & ? & ? & <- & ?). exists (p, a). split; [done|].
      apply list_elem_of_filter. split; [done|]. by apply elem_of_inner_join.
Qed.

Lemma participant_count_is_union_witness :
  ∃ registered climbed : gset uuid,
    (∀ u, u ∈ registered ↔ registered_in_division sample_db 10 20 u)
    ∧ (∀ u, u ∈ climbed ↔ climbed_in_division sample_db 10 20 u)
    ∧ 3 = Z.of_nat (size (registered ∪ climbed)).
Proof.
  apply (participant_count_is_union sample_db 10%N None spring_report
           open_report).
  - vm_compute. reflexivity.
  - right. right. left.
Defined.

(** ** Problems without a division *)

Section unassigned_problem.
Context (db : Database) (pid : uuid).
Hypothesis Hpid : unassigned db pid.

Lemma in_division_not_unassigned cid did p :
  p ∈ problems db → in_division cid did p → Problem.id p ≠ pid.
Proof. intros Hp [_ Hdiv] Hid. by rewrite (Hpid p Hp Hid) in Hdiv. Qed.

Lemma division_problems_without cid :
  division_problems (without_problem pid db) cid = division_problems db cid.
Proof.
  unfold division_problems. simpl.
  rewrite (inner_join_filter_fst
             (λ r, Problem.division_id r.1 = Some (Division.id r.2))).
  f_equal. rewrite list_filter_filter. apply filter_ext_elem.
  intros [p d] (Hp & _ & Hon)%elem_of_inner_join. simpl in *.
  split; [by intros [? _]|]. intros Hc. split; [done|].
  intros Hid. by rewrite (Hpid p Hp Hid) in Hon.
Qed.

Lemma per_user_joined_without cid :
  per_user_joined (without_problem pid db) cid = per_user_joined db cid.
Proof.
  unfold per_user_joined. rewrite division_problems_without. simpl.
  rewrite (inner_join_filter_snd
             (λ r, Ascent.problem_id r.2 = DivisionProblem.problem_id r.1)).
  apply filter_all_elem. intros [dp a] (Hdp & _ & Hon)%elem_of_inner_join.
  simpl in *.
  apply elem_of_division_problems in Hdp as (p & d & Hp & _ & Hpd & _ & ->).
  simpl in Hon. rewrite Hon. intros Hid. by rewrite (Hpid p Hp Hid) in Hpd.
Qed.

Lemma per_user_without cid :
  per_user (without_problem pid db) cid = per_user db cid.
Proof. unfold per_user. by rewrite per_user_joined_without. Qed.

Lemma podiums_select_without cid max_rank :
  podiums_select (without_problem pid db) cid max_rank
  = podiums_select db cid max_rank.
Proof.
  unfold podiums_select, ranked, ranked_joined.
  by rewrite per_user_without.
Qed.

Lemma participant_count_without cid did :
  participant_count (without_problem pid db) cid did
  = participant_count db cid did.
Proof.
  assert (filter (λ r, in_division cid did r.1)
            (inner_join (problems (without_problem pid db))
               (ascents (without_problem pid db))
               (λ r, Ascent.problem_id r.2 = Problem.id r.1))
          = filter (λ r, in_division cid did r.1)
              (inner_join (problems db) (ascents db)
                 (λ r, Ascent.problem_id r.2 = Problem.id r.1))) as E.
  { simpl.
    rewrite (inner_join_filter (λ r, Ascent.problem_id r.2 = Problem.id r.1)).
    rewrite list_filter_filter. apply filter_ext_elem.
    intros [p a] (Hp & _ & Hon)%elem_of_inner_join. simpl in *.
    split; [by intros [? _]|]. intros Hdiv. split; [done|].
    pose proof (in_division_not_unassigned _ _ _ Hp Hdiv). split; congruence. }
  unfold participant_count. by rewrite E.
Qed.

Lemma problem_count_without cid did :
  problem_count (without_problem pid db) cid did = problem_count db cid did.
Proof.
  assert (filter (in_division cid did) (problems (without_problem pid db))
          = filter (in_division cid did) (problems db)) as E.
  { simpl. rewrite list_filter_filter. apply filter_ext_elem. intros p Hp.
    split; [by intros [? _]|]. intros Hdiv. split; [done|].
    by apply (in_division_not_unassigned cid did). }
  unfold problem_count. by rewrite E.
Qed.

Lemma total_flag_without cid did (f : Ascent.t → bool) :
  filter (λ r, in_division cid did r.1 ∧ ascent_flag f r.2)
    (left_join (problems (without_problem pid db))
       (ascents (without_problem pid db))
       (λ r, Ascent.problem_id r.2 = Problem.id r.1))
  = filter (λ r, in_division cid did r.1 ∧ ascent_flag f r.2)
      (left_join (problems db) (ascents db)
         (λ r, Ascent.problem_id r.2 = Problem.id r.1)).
Proof.
  simpl.
  apply (filter_left_join_filter
           (λ r, Ascent.problem_id r.2 = Problem.id r.1)
           (in_division cid did) (λ p, Problem.id p ≠ pid)
           (ascent_flag f) (λ a, Ascent.problem_id a ≠ pid)).
  - intros p Hp Hdiv. by apply (in_division_not_unassigned cid did).
  - intros p a Hp _ Hdiv Hon. simpl in Hon. rewrite Hon.
    by apply (in_division_not_unassigned cid did).
Qed.

Lemma summary_row_without id d :
  summary_row (without_problem pid db) id d = summary_row db id d.
Proof.
  unfold summary_row, total_tops, total_zones.
  by rewrite participant_count_without, problem_count_without,
    !total_flag_without.
Qed.

Lemma summaries_without id division_id :
  summaries (without_problem pid db) id division_id
  = summaries db id division_id.
Proof.
  unfold summaries. simpl. apply list_fmap_ext. intros _ d _.
  apply summary_row_without.
Qed.

Lemma competition_summary_without id division_id :
  competition_summary (without_problem pid db) id division_id
  = competition_summary db id division_id.
Proof.
  unfold competition_summary, podiumRows, competition_division_podiums.
  by rewrite summaries_without, podiums_select_without.
Qed.
End unassigned_problem.

(** C8: a problem without a division, and the ascents on it, contribute to
    nothing: with them removed, the tallies of every user and the whole
    report (the counts, totals and podium of every division) stay the same. *)
Theorem unassigned_problem_contributes_nothing db pid :
  unassigned db pid →
  (∀ cid, per_user (without_problem pid db) cid = per_user db cid)
  ∧ (∀ id division_id,
       competition_summary (without_problem pid db) id division_id
       = competition_summary db id division_id).
Proof.
  intros Hpid. split.
  - intros cid. by apply per_user_without.
  - intros id division_id. by apply competition_summary_without.
Qed.

Lemma unassigned_problem_contributes_nothing_witness :
  (∀ cid, per_user (without_problem 32 sample_db) cid = per_user sample_db cid)
  ∧ (∀ id division_id,
       competition_summary (without_problem 32 sample_db) id division_id
       = competition_summary sample_db id division_id).
Proof.
  apply (unassigned_problem_contributes_nothing sample_db 32%N).
  unfold unassigned.
  apply (list.Forall_forall
           (λ p, Problem.id p = 32%N → Problem.division_id p = None)).
  by_compute.
Defined.

(** ** The tallies of [per_user] *)

Lemma filter_fmap {A B} (f : A → B) (P : B → Prop) `{∀ y, Decision (P y)}
    (l : list A) :
  filter P (f <$> l) = f <$> filter (λ x, P (f x)) l.
Proof.
  induction l as [|x l IH]; [done|]. csimpl.
  rewrite !filter_cons, IH. by case_decide.
Qed.

Lemma filter_eq_NoDup {A} `{EqDecision A} (x : A) (l : list A) :
  NoDup l → filter (λ y, y = x) l = if decide (x ∈ l) then [x] else [].
Proof.
  induction 1 as [|y l Hy Hl IH]; [done|].
  rewrite filter_cons, IH. destruct (decide (y = x)) as [->|Hne].
  - rewrite decide_False by done. rewrite decide_True by left. done.
  - destruct (decide (x ∈ l)) as [Hx|Hx].
    + rewrite decide_True by by right. done.
    + rewrite decide_False; [done|]. by intros [->|?]%elem_of_cons.
Qed.

Lemma foldr_add_Permutation (l k : list Z) :
  l ≡ₚ k → foldr Z.add 0 l = foldr Z.add 0 k.
Proof. induction 1; simpl; lia. Qed.

Section tallies.
Context (db : Database) (cid : uuid).
Hypothesis Hdivisions : divisions_pkey db.
Hypothesis Hproblems : problems_pkey db.
Hypothesis Hascents : ascents_pkey db.

(** A problem has one row in [division_problems] at most. *)
Lemma division_problem_unique dp dp' :
  dp ∈ division_problems db cid → dp' ∈ division_problems db cid →
  DivisionProblem.problem_id dp = DivisionProblem.problem_id dp' → dp = dp'.
Proof.
  intros (p & d & Hp & Hd & Hpd & _ & ->)%elem_of_division_problems
         (p' & d' & Hp' & Hd' & Hpd' & _ & ->)%elem_of_division_problems E.
  simpl in E.
  assert (p = p') as <-
    by by apply (NoDup_fmap_elem_inj Problem.id (problems db)).
  assert (d = d') as <-; [|done].
  apply (NoDup_fmap_elem_inj Division.id (divisions db)); [done..|congruence].
Qed.

Lemma NoDup_division_problems : NoDup (division_problems db cid).
Proof.
  unfold division_problems. apply NoDup_fmap_2_strong.
  - intros [p d] [p' d']
      [_ (Hp & Hd & _)%elem_of_inner_join]%list_elem_of_filter
      [_ (Hp' & Hd' & _)%elem_of_inner_join]%list_elem_of_filter [= E1 E2 _].
    simpl in *. f_equal.
    + by apply (NoDup_fmap_elem_inj Problem.id (problems db)).
    + by apply (NoDup_fmap_elem_inj Division.id (divisions db)).
  - apply list.NoDup_filter, NoDup_inner_join.
    + by apply (NoDup_fmap_1 Problem.id).
    + by apply (NoDup_fmap_1 Division.id).
Qed.

Lemma NoDup_per_user_joined : NoDup (per_user_joined db cid).
Proof.
  apply NoDup_inner_join; [apply NoDup_division_problems|].
  by apply (NoDup_fmap_1 (λ a, (Ascent.problem_id a, Ascent.user_id a))).
Qed.

(** The rows of the group of a division and a user are the ascent rows of
    that user on the problems of the division. *)
Lemma group_ascents d u :
  d ∈ divisions db →
  (filter (λ r, per_user_group r = (Division.id d, Division.name d, u))
     (per_user_joined db cid)).*2
  ≡ₚ division_ascents db cid (Division.id d) u.
Proof.
  intros Hd. apply NoDup_Permutation.
  - apply NoDup_fmap_2_strong; [|apply list.NoDup_filter, NoDup_per_user_joined].
    intros [dp a] [dp' a']
      [_ (Hdp & _ & Hon)%elem_of_per_user_joined]%list_elem_of_filter
      [_ (Hdp' & _ & Hon')%elem_of_per_user_joined]%list_elem_of_filter.
    simpl in *. intros <-. f_equal.
    apply division_problem_unique; [done..|congruence].
  - apply list.NoDup_filter.
    by apply (NoDup_fmap_1 (λ a, (Ascent.problem_id a, Ascent.user_id a))).
  - intros a. unfold division_ascents, on_division_problem.
    rewrite list_elem_of_fmap, list_elem_of_filter, list.Exists_exists. split.
    + intros ([dp a'] & -> & [Hg (Hdp & Ha & Hon)%elem_of_per_user_joined]
                              %list_elem_of_filter).
      simpl in *.
      apply elem_of_division_problems in Hdp
        as (p & d' & Hp & _ & Hpd & Hc & ->).
      injection Hg as Hid _ Hu. simpl in *.
      split_and!; [done| |done]. exists p. split_and!; [done..|].
      split; [done|]. by rewrite <-Hid.
    + intros [[Hu (p & Hp & Hid & Hc & Hpd)] Ha].
      exists (DivisionProblem.mk (Problem.id p) (Division.id d)
                (Division.name d), a).
      split; [done|]. apply list_elem_of_filter. split.
      { unfold per_user_group. simpl. by rewrite Hu. }
      apply elem_of_per_user_joined. simpl. split_and!; [|done..].
      apply elem_of_division_problems. by exists p, d.
Qed.

(** With [divisions.id] a key, a group is known by its division id and its
    user. *)
Lemma per_user_group_division d r :
  d ∈ divisions db → r ∈ per_user_joined db cid →
  DivisionProblem.division_id r.1 = Division.id d →
  DivisionProblem.division_name r.1 = Division.name d.
Proof.
  intros Hd (Hdp & _)%elem_of_per_user_joined Hid.
  apply elem_of_division_problems in Hdp as (p & d' & _ & Hd' & _ & _ & E).
  rewrite E in Hid |- *. simpl in *. f_equal.
  by apply (NoDup_fmap_elem_inj Division.id (divisions db)).
Qed.

Lemma tallies_of_group d u :
  d ∈ divisions db →
  tallies_of db cid (Division.id d) u
  = per_user_row (per_user_joined db cid)
      <$> filter (λ g, g = (Division.id d, Division.name d, u))
            (remove_dups (per_user_group <$> per_user_joined db cid)).
Proof.
  intros Hd. unfold tallies_of, per_user. rewrite filter_fmap. f_equal.
  apply filter_ext_elem. intros [[did dname] u'].
  rewrite elem_of_remove_dups. intros (r & Hg & Hr)%list_elem_of_fmap.
  simpl. split.
  - intros [-> ->]. do 2 f_equal.
    injection Hg as Hid Hname _. rewrite Hname.
    by apply per_user_group_division.
  - by intros [= -> _ ->].
Qed.
End tallies.

Lemma group_in_per_user_groups db cid g :
  g ∈ remove_dups (per_user_group <$> per_user_joined db cid) ↔
  filter (λ r, per_user_group r = g) (per_user_joined db cid) ≠ [].
Proof.
  rewrite elem_of_remove_dups, list_elem_of_fmap. split.
  - intros (r & -> & Hr) E.
    by apply (filter_nil_not_elem_of _ _ r E).
  - intros Hne.
    destruct (filter _ (per_user_joined db cid)) as [|r rs] eqn:E; [done|].
    assert (r ∈ filter (λ r, per_user_group r = g) (per_user_joined db cid))
      as [? ?]%list_elem_of_filter by (rewrite E; left).
    by exists r.
Qed.

(** A ranked row of a user in a division comes with an ascent row of that
    user on a problem of the division. *)
Lemma ranked_division_ascents db cid r :
  r ∈ ranked db cid →
  division_ascents db cid (PodiumRow.division_id r) (PodiumRow.user_id r) ≠ [].
Proof.
  intros (p & d & a & Hp & _ & Ha & Hc & Hpd & Hpa & Hrd & _ & Hu)%ranked_origin
         E.
  apply (filter_nil_not_elem_of _ _ a E); [|done].
  split; [done|]. apply list.Exists_exists. exists p.
  split_and!; [done..|]. split; [done|]. by rewrite Hrd.
Qed.

(** C4: with the primary keys of divisions, problems and ascents, a user with
    an ascent row on a problem of a division has exactly one tally there,
    whose total_tops and total_zones count the rows with topped and with zone
    set and whose attempt totals sum top_attempts and zone_attempts with null
    as 0; a user without such a row has no tally, no rank and no podium entry
    in the division. *)
Theorem tally_counts_division_ascents db cid d u :
  divisions_pkey db → problems_pkey db → ascents_pkey db →
  d ∈ divisions db →
  (division_ascents db cid (Division.id d) u ≠ [] →
   ∃ t, tallies_of db cid (Division.id d) u = [t]
        ∧ PerUser.total_tops t
          = count_true Ascent.topped
              (division_ascents db cid (Division.id d) u)
        ∧ PerUser.total_zones t
          = count_true Ascent.zone
              (division_ascents db cid (Division.id d) u)
        ∧ PerUser.total_top_attempts t
          = sum_null_as_zero Ascent.top_attempts
              (division_ascents db cid (Division.id d) u)
        ∧ PerUser.total_zone_attempts t
          = sum_null_as_zero Ascent.zone_attempts
              (division_ascents db cid (Division.id d) u))
  ∧ (division_ascents db cid (Division.id d) u = [] →
     tallies_of db cid (Division.id d) u = []
     ∧ (∀ r, r ∈ ranked db cid →
             PodiumRow.division_id r = Division.id d →
             PodiumRow.user_id r ≠ u)
     ∧ (∀ division_id rep dr s,
          competition_summary db cid division_id = Report rep →
          dr ∈ CompetitionReport.divisions rep →
          DivisionReport.division_id dr = Division.id d →
          s ∈ DivisionReport.podium dr → Standing.user_id s ≠ u)).
Proof.
  intros Hdivisions Hproblems Hascents Hd.
  pose proof (group_ascents db cid Hdivisions Hproblems Hascents d u Hd)
    as Hperm.
  pose proof (tallies_of_group db cid Hdivisions d u Hd) as Htallies.
  rewrite filter_eq_NoDup in Htallies by apply NoDup_remove_dups.
  set (g := (Division.id d, Division.name d, u)) in *.
  set (rows := division_ascents db cid (Division.id d) u) in *.
  set (G := filter (λ r, per_user_group r = g) (per_user_joined db cid)) in *.
  assert (G = [] ↔ rows = []) as Hnil.
  { split; intros E; rewrite E in Hperm.
    - by apply Permutation_nil_l in Hperm.
    - apply Permutation_nil_r, fmap_nil_inv in Hperm. done. }
  split.
  - intros Hrows. exists (per_user_row (per_user_joined db cid) g).
    rewrite Htallies, decide_True
      by (apply group_in_per_user_groups; fold G; by rewrite Hnil).
    split; [done|]. unfold per_user_row. fold G.
    assert (∀ f, count (filter (λ r, f r.2 = true) G) = count_true f rows)
      as Hcount.
    { intros f. unfold count_true, count.
      by rewrite <-Hperm, filter_fmap, length_fmap. }
    assert (∀ f, coalesce (sql_sum ((λ r, f r.2) <$> G)) 0
                 = sum_null_as_zero f rows) as Hsum.
    { intros f. rewrite sql_sum_coalesce. unfold sum_null_as_zero.
      apply foldr_add_Permutation.
      by rewrite <-Hperm, <-!list_fmap_compose. }
    split_and!;
      [apply (Hcount Ascent.topped)|apply (Hcount Ascent.zone)
      |apply (Hsum Ascent.top_attempts)|apply (Hsum Ascent.zone_attempts)].
  - intros Hrows.
    assert (∀ r, r ∈ ranked db cid →
                 PodiumRow.division_id r = Division.id d →
                 PodiumRow.user_id r ≠ u) as Hranked.
    { intros r Hr Hrd Hru.
      apply (ranked_division_ascents db cid r Hr). by rewrite Hrd, Hru. }
    split_and!; [|done|].
    + rewrite Htallies, decide_False; [reflexivity|].
      rewrite group_in_per_user_groups. fold G.
      intros Hne. apply Hne. by apply Hnil.
    + intros division_id rep dr s Hrep Hdr Hdrd.
      rewrite (report_podium _ _ _ _ _ Hrep Hdr).
      intros (r & -> & [Hrd Hr]%list_elem_of_filter)%list_elem_of_fmap.
      unfold podiums_select in Hr.
      rewrite (elem_of_order_by podiums_order) in Hr.
      apply list_elem_of_filter in Hr as [_ Hr].
      apply (Hranked r Hr). congruence.
Qed.

Lemma tally_counts_division_ascents_witness :
  (division_ascents sample_db 10 20 1 ≠ [] →
   ∃ t, tallies_of sample_db 10 20 1 = [t]
        ∧ PerUser.total_tops t
          = count_true Ascent.topped (division_ascents sample_db 10 20 1)
        ∧ PerUser.total_zones t
          = count_true Ascent.zone (division_ascents sample_db 10 20 1)
        ∧ PerUser.total_top_attempts t
          = sum_null_as_zero Ascent.top_attempts
              (division_ascents sample_db 10 20 1)
        ∧ PerUser.total_zone_attempts t
          = sum_null_as_zero Ascent.zone_attempts
              (division_ascents sample_db 10 20 1))
  ∧ (division_ascents sample_db 10 20 1 = [] →
     tallies_of sample_db 10 20 1 = []
     ∧ (∀ r, r ∈ ranked sample_db 10 →
             PodiumRow.division_id r = 20%N → PodiumRow.user_id r ≠ 1%N)
     ∧ (∀ division_id rep dr s,
          competition_summary sample_db 10 division_id = Report rep →
          dr ∈ CompetitionReport.divisions rep →
          DivisionReport.division_id dr = 20%N →
          s ∈ DivisionReport.podium dr → Standing.user_id s ≠ 1%N)).
Proof.
  apply (tally_counts_division_ascents sample_db 10%N
           (Division.mk 20 10 "Open" None) 1%N).
  - by_compute.
  - by_compute.
  - by_compute.
  - by_compute.
Defined.

(** * The handlers that write *)

(** ** Logging an ascent *)

Lemma ascent_do_update_conflict a b :
  ascent_key b = ascent_key a → ascent_do_update a b = a.
Proof. destruct a, b. unfold ascent_key, ascent_do_update. simpl. congruence. Qed.

Lemma upsert_ascent_conflict a l :
  Exists (λ b, ascent_key b = ascent_key a) l ↔ ascent_key a ∈ ascent_key <$> l.
Proof.
  rewrite list.Exists_exists, list_elem_of_fmap. split.
  - intros (b & ? & E). by exists b.
  - intros (b & E & ?). by exists b.
Qed.

Lemma upsert_ascent_keys a l :
  ascent_key <$> upsert_ascent a l
  = if decide (ascent_key a ∈ ascent_key <$> l)
    then ascent_key <$> l
    else (ascent_key <$> l) ++ [ascent_key a].
Proof.
  unfold upsert_ascent.
  destruct (decide (Exists _ l)) as [Hc|Hc]; rewrite upsert_ascent_conflict in Hc.
  - rewrite decide_True by done. rewrite <-list_fmap_compose.
    apply list_fmap_ext. intros _ b _. simpl. by case_decide.
  - rewrite decide_False by done. by rewrite fmap_app.
Qed.

Lemma elem_of_upsert_ascent_keys a l k :
  k ∈ ascent_key <$> upsert_ascent a l ↔ k ∈ ascent_key <$> l ∨ k = ascent_key a.
Proof.
  rewrite upsert_ascent_keys. case_decide as Hc.
  - split; [by left|]. by intros [?| ->].
  - rewrite elem_of_app, list_elem_of_singleton. done.
Qed.

Lemma upsert_ascent_NoDup a l :
  NoDup (ascent_key <$> l) → NoDup (ascent_key <$> upsert_ascent a l).
Proof.
  intros Hl. rewrite upsert_ascent_keys. case_decide as Hc; [done|].
  apply list.NoDup_app. split_and!; [done| |apply list.NoDup_singleton].
  by intros k ? ->%list_elem_of_singleton.
Qed.

(** The rows under another key are left as they are. *)
Lemma upsert_ascent_filter_others a l :
  filter (λ b, ascent_key b ≠ ascent_key a) (upsert_ascent a l)
  = filter (λ b, ascent_key b ≠ ascent_key a) l.
Proof.
  unfold upsert_ascent. destruct (decide (Exists _ l)) as [Hc|Hc].
  - induction l as [|b l IH]; [done|]. csimpl.
    assert (filter (λ b, ascent_key b ≠ ascent_key a)
              ((λ b, if decide (ascent_key b = ascent_key a)
                     then ascent_do_update a b else b) <$> l)
            = filter (λ b, ascent_key b ≠ ascent_key a) l) as E.
    { clear IH Hc. induction l as [|c l IH]; [done|]. csimpl.
      rewrite !filter_cons, IH. destruct (decide (ascent_key c = ascent_key a)).
      - rewrite !decide_False; [done|by intros []|by intros []].
      - by rewrite !decide_True. }
    rewrite !filter_cons, E. destruct (decide (ascent_key b = ascent_key a)).
    + rewrite !decide_False; [done|by intros []|by intros []].
    + by rewrite !decide_True.
  - rewrite list.filter_app, filter_cons_False, filter_nil, app_nil_r; [done|].
    by intros [].
Qed.

(** Under the primary key, the key of [a] then holds the row [a] alone. *)
Lemma upsert_ascent_filter_key a l :
  NoDup (ascent_key <$> l) →
  filter (λ b, ascent_key b = ascent_key a) (upsert_ascent a l) = [a].
Proof.
  intros Hl. unfold upsert_ascent. destruct (decide (Exists _ l)) as [Hc|Hc].
  - induction l as [|b l IH]; [by apply Exists_nil in Hc|].
    csimpl in *. apply list.NoDup_cons in Hl as [Hb Hl].
    rewrite filter_cons. destruct (decide (ascent_key b = ascent_key a)) as [E|E].
    + rewrite decide_True by done. rewrite ascent_do_update_conflict by done.
      f_equal. apply filter_nil_elem.
      intros c (c' & -> & Hc')%list_elem_of_fmap Hk. destruct Hb.
      rewrite E. apply list_elem_of_fmap. exists c'. split; [|done].
      by case_decide.
    + rewrite decide_False by done. apply IH; [done|].
      by apply Exists_cons in Hc as [?|?].
  - rewrite list.filter_app, filter_cons_True, filter_nil by done.
    rewrite filter_nil_elem; [done|].
    intros b Hb E. apply Hc, list.Exists_exists. by exists b.
Qed.

(** A second write under the same key replaces the first. *)
Lemma upsert_ascent_twice a1 a2 l :
  ascent_key a1 = ascent_key a2 →
  upsert_ascent a2 (upsert_ascent a1 l) = upsert_ascent a2 l.
Proof.
  intros E. unfold upsert_ascent at 1 3.
  assert (Exists (λ b, ascent_key b = ascent_key a2) (upsert_ascent a1 l)) as H1.
  { apply upsert_ascent_conflict, elem_of_upsert_ascent_keys. by right. }
  rewrite decide_True by done. unfold upsert_ascent.
  destruct (decide (Exists (λ b, ascent_key b = ascent_key a1) l)) as [Hc|Hc].
  - rewrite decide_True by (by rewrite <-E).
    rewrite <-list_fmap_compose. apply list_fmap_ext. intros _ b _. simpl.
    destruct (decide (ascent_key b = ascent_key a1)) as [Hb|Hb].
    + rewrite (decide_True (P:=ascent_key b = ascent_key a2)) by congruence.
      rewrite decide_True; [done|].
      change (ascent_key b = ascent_key a2). congruence.
    + destruct (decide (ascent_key b = ascent_key a2)); [congruence|done].
  - rewrite decide_False by (by rewrite <-E). rewrite fmap_app. csimpl.
    rewrite decide_True by done.
    rewrite (ascent_do_update_conflict a2 a1) by done. f_equal.
    rewrite <-(list_fmap_id l) at 2. apply list_fmap_ext. intros i b Hb. simpl.
    rewrite decide_False; [done|]. intros Hk. apply Hc, list.Exists_exists.
    exists b. split; [by eapply list_elem_of_lookup_2|congruence].
Qed.

(** What a stored answer says of the request and of the database. *)
Lemma post_problem_ascents_ok db user id body db' a :
  post_problem_ascents db user id body = (db', Http.Ok a) ↔
  ∃ userId, user = Some userId
            ∧ Exists (λ p, Problem.id p = id) (problems db)
            ∧ insert_accepted db userId body
            ∧ a = ascent_values id userId body
            ∧ db' = set_ascents db (upsert_ascent a (ascents db)).
Proof.
  unfold post_problem_ascents. destruct user as [userId|]; [|split; [done|]].
  - destruct (filter _ (problems db)) as [|p ps] eqn:Ep.
    + split; [done|]. intros (? & [= <-] & (p & Hp & ?)%list.Exists_exists & _).
      by destruct (filter_nil_not_elem_of _ _ p Ep).
    + assert (Exists (λ p, Problem.id p = id) (problems db)) as Hex.
      { apply list.Exists_exists. exists p.
        assert (p ∈ filter (λ p, Problem.id p = id) (problems db)) as Hp
          by (rewrite Ep; left).
        by apply list_elem_of_filter in Hp as [? ?]. }
      case_decide as Hu.
      * split.
        -- intros [= <- <-]. by exists userId.
        -- by intros (? & [= <-] & _ & _ & -> & ->).
      * split; [done|]. by intros (? & [= <-] & _ & ? & _).
  - by intros (? & ? & _).
Qed.

Lemma post_problem_ascents_refused db user id body :
  (∀ a, (post_problem_ascents db user id body).2 ≠ Http.Ok a) →
  (post_problem_ascents db user id body).1 = db.
Proof.
  unfold post_problem_ascents. destruct user as [userId|]; [|done].
  destruct (filter _ (problems db)); [done|]. case_decide; [|done].
  intros Hno. by destruct (Hno (ascent_values id userId body)).
Qed.

Lemma ascents_fkeys_keys db l :
  Forall (λ a, Exists (λ p, Problem.id p = Ascent.problem_id a) (problems db)
               ∧ user_exists db (Ascent.user_id a)) l
  ↔ ∀ k, k ∈ ascent_key <$> l →
         Exists (λ p, Problem.id p = k.1) (problems db) ∧ user_exists db k.2.
Proof.
  rewrite list.Forall_forall. split.
  - intros Hall k (a & -> & Ha)%list_elem_of_fmap. by apply Hall.
  - intros Hall a Ha. apply (Hall (ascent_key a)). by apply list_elem_of_fmap_2.
Qed.

(** X1: logging an ascent keeps the primary key of [ascents] and its two
    foreign keys, whatever the answer: after the request there is still at
    most one row for a problem and a user, and every row is on a stored
    problem and by a stored user. *)
Theorem post_problem_ascents_keeps_keys db user id body :
  ascents_pkey db → ascents_fkeys db →
  ascents_pkey (post_problem_ascents db user id body).1
  ∧ ascents_fkeys (post_problem_ascents db user id body).1.
Proof.
  intros Hpk Hfk.
  destruct (post_problem_ascents db user id body) as [db' r] eqn:E.
  pose proof (post_problem_ascents_refused db user id body) as Hno.
  rewrite E in Hno. simpl in Hno.
  destruct r as [a| | | | |]; try (by rewrite Hno).
  clear Hno. apply post_problem_ascents_ok in E
    as (userId & -> & Hp & [Hu _] & Ha & ->). simpl. split.
  - by apply upsert_ascent_NoDup.
  - unfold ascents_fkeys in *. simpl.
    change (Forall
              (λ a0, Exists (λ p, Problem.id p = Ascent.problem_id a0) (problems db)
                     ∧ user_exists db (Ascent.user_id a0))
              (upsert_ascent a (ascents db))).
    rewrite ascents_fkeys_keys in Hfk. apply ascents_fkeys_keys.
    intros k [Hk| ->]%elem_of_upsert_ascent_keys; [by apply Hfk|].
    by rewrite Ha.
Qed.

Lemma post_problem_ascents_keeps_keys_witness :
  ascents_pkey
    (post_problem_ascents sample_db (Some 4%N) 30%N
       (AscentBody.mk (Some true) (Some 5) None None)).1
  ∧ ascents_fkeys
      (post_problem_ascents sample_db (Some 4%N) 30%N
         (AscentBody.mk (Some true) (Some 5) None None)).1.
Proof.
  apply (post_problem_ascents_keeps_keys sample_db (Some 4%N) 30%N
           (AscentBody.mk (Some true) (Some 5) None None)); by_compute.
Defined.

(** X2: when an ascent is stored, the row sent back is the request with a
    missing [topped] or [zone] read as false; under the primary key it is
    afterwards the only row of that problem and user, and the rows of every
    other problem or user are as they were. *)
Theorem post_problem_ascents_stores_row db userId id body db' a :
  ascents_pkey db →
  post_problem_ascents db (Some userId) id body = (db', Http.Ok a) →
  a = Ascent.mk id userId
        (default false (AscentBody.topped body)) (AscentBody.top_attempts body)
        (default false (AscentBody.zone body)) (AscentBody.zone_attempts body)
  ∧ filter (λ b, ascent_key b = (id, userId)) (ascents db') = [a]
  ∧ filter (λ b, ascent_key b ≠ (id, userId)) (ascents db')
    = filter (λ b, ascent_key b ≠ (id, userId)) (ascents db).
Proof.
  intros Hpk (? & [= <-] & _ & _ & -> & ->)%post_problem_ascents_ok.
  split_and!; [done|..]; simpl.
  - by apply (upsert_ascent_filter_key (ascent_values id userId body)).
  - apply (upsert_ascent_filter_others (ascent_values id userId body)).
Qed.

Lemma post_problem_ascents_stores_row_witness :
  Ascent.mk 30 1 true (Some 2) true (Some 1)
  ∈ ascents sample_db
  ∧ filter (λ b, ascent_key b = (30%N, 1%N))
      (ascents (post_problem_ascents sample_db (Some 1%N) 30%N
                  (AscentBody.mk None (Some 4) (Some true) None)).1)
    = [Ascent.mk 30 1 false (Some 4) true None].
Proof.
  split; [by_compute|].
  apply (post_problem_ascents_stores_row sample_db 1%N 30%N
           (AscentBody.mk None (Some 4) (Some true) None)
           (post_problem_ascents sample_db (Some 1%N) 30%N
              (AscentBody.mk None (Some 4) (Some true) None)).1
           (Ascent.mk 30 1 false (Some 4) true None)).
  - by_compute.
  - vm_compute. reflexivity.
Defined.

(** X3: the last write wins. Logging twice for the same problem as the same
    user, the second time with attempt counts that are [integer]s, leaves
    the database, and gives the answer, of the second request alone: no
    trace of the first attempt is kept. *)
Theorem post_problem_ascents_last_wins db user id body1 body2 :
  int4_or_null (AscentBody.top_attempts body2) →
  int4_or_null (AscentBody.zone_attempts body2) →
  post_problem_ascents (post_problem_ascents db user id body1).1 user id body2
  = post_problem_ascents db user id body2.
Proof.
  intros Htop Hzone.
  unfold post_problem_ascents. destruct user as [userId|]; [|done].
  destruct (filter _ (problems db)) as [|p ps] eqn:Ep; simpl.
  { by rewrite Ep. }
  destruct (decide (user_exists db userId)) as [Hu|Hu].
  - rewrite (decide_True (P:=insert_accepted db userId body2)) by done.
    destruct (decide (insert_accepted db userId body1)) as [H1|H1]; simpl.
    + rewrite Ep.
      change (insert_accepted (set_ascents db ?l) userId body2)
        with (insert_accepted db userId body2).
      rewrite decide_True by done. unfold set_ascents. simpl.
      by rewrite upsert_ascent_twice.
    + rewrite Ep. by rewrite decide_True.
  - rewrite (decide_False (P:=insert_accepted db userId body2))
      by (by intros [? _]).
    rewrite (decide_False (P:=insert_accepted db userId body1))
      by (by intros [? _]).
    simpl. rewrite Ep. rewrite decide_False; [done|]. by intros [? _].
Qed.

Lemma post_problem_ascents_last_wins_witness :
  post_problem_ascents
    (post_problem_ascents sample_db (Some 1%N) 30%N
       (AscentBody.mk (Some true) (Some 2) None None)).1
    (Some 1%N) 30%N (AscentBody.mk None (Some 4) (Some true) None)
  = post_problem_ascents sample_db (Some 1%N) 30%N
      (AscentBody.mk None (Some 4) (Some true) None).
Proof.
  apply (post_problem_ascents_last_wins sample_db (Some 1%N) 30%N
           (AscentBody.mk (Some true) (Some 2) None None)
           (AscentBody.mk None (Some 4) (Some true) None));
    by_compute.
Defined.

(** X4: the answers of the ascent handler. It is 401 exactly without a user,
    404 exactly when a user asks for a problem that is not stored, and, for a
    stored problem, 500 exactly when the user is not stored or an attempt
    count is no [integer]; in every other case the row is stored. Whenever
    no row is stored the database is unchanged, and no request changes a
    table other than [ascents]. *)
Theorem post_problem_ascents_answers db user id body :
  let r := post_problem_ascents db user id body in
  (r.2 = Http.Unauthenticated ↔ user = None)
  ∧ (r.2 = Http.NotFound
     ↔ is_Some user ∧ ¬ Exists (λ p, Problem.id p = id) (problems db))
  ∧ (r.2 = Http.ServerError
     ↔ ∃ userId, user = Some userId
                 ∧ Exists (λ p, Problem.id p = id) (problems db)
                 ∧ (¬ user_exists db userId
                    ∨ ¬ int4_or_null (AscentBody.top_attempts body)
                    ∨ ¬ int4_or_null (AscentBody.zone_attempts body)))
  ∧ ((∃ a, r.2 = Http.Ok a)
     ↔ ∃ userId, user = Some userId
                 ∧ Exists (λ p, Problem.id p = id) (problems db)
                 ∧ user_exists db userId
                 ∧ int4_or_null (AscentBody.top_attempts body)
                 ∧ int4_or_null (AscentBody.zone_attempts body))
  ∧ ((∀ a, r.2 ≠ Http.Ok a) → r.1 = db)
  ∧ users r.1 = users db ∧ competitions r.1 = competitions db
  ∧ divisions r.1 = divisions db ∧ problems r.1 = problems db
  ∧ competition_participants r.1 = competition_participants db.
Proof.
  simpl.
  assert (¬ insert_accepted db
              (default 0%N user) body
          ↔ ¬ user_exists db (default 0%N user)
            ∨ ¬ int4_or_null (AscentBody.top_attempts body)
            ∨ ¬ int4_or_null (AscentBody.zone_attempts body)) as Hacc.
  { unfold insert_accepted.
    destruct (decide (user_exists db (default 0%N user))),
      (decide (int4_or_null (AscentBody.top_attempts body))),
      (decide (int4_or_null (AscentBody.zone_attempts body))); tauto. }
  split_and!; [| | | |apply post_problem_ascents_refused|..].
  - unfold post_problem_ascents. destruct user as [userId|]; [|done].
    destruct (filter _ (problems db)); [done|]. by case_decide.
  - unfold post_problem_ascents. destruct user as [userId|].
    + destruct (filter _ (problems db)) as [|p ps] eqn:Ep.
      * split; [|done]. intros _. split; [done|].
        intros (p & Hp & ?)%list.Exists_exists.
        by destruct (filter_nil_not_elem_of _ _ p Ep).
      * split; [by case_decide|]. intros [_ Hno]. destruct Hno.
        apply list.Exists_exists. exists p.
        assert (p ∈ filter (λ p, Problem.id p = id) (problems db)) as Hp
          by (rewrite Ep; left).
        by apply list_elem_of_filter in Hp as [? ?].
    + split; [done|]. by intros [[? [=]] _].
  - unfold post_problem_ascents. destruct user as [userId|].
    + simpl in Hacc. destruct (filter _ (problems db)) as [|p ps] eqn:Ep.
      * split; [done|].
        intros (? & [= <-] & (p & Hp & ?)%list.Exists_exists & _).
        by destruct (filter_nil_not_elem_of _ _ p Ep).
      * case_decide as Hu.
        -- split; [done|]. intros (? & [= <-] & _ & Hno).
           by apply Hacc in Hno.
        -- split; [|done]. intros _. exists userId.
           split_and!; [done| |by apply Hacc].
           apply list.Exists_exists. exists p.
           assert (p ∈ filter (λ p, Problem.id p = id) (problems db)) as Hp
             by (rewrite Ep; left).
           by apply list_elem_of_filter in Hp as [? ?].
    + split; [done|]. by intros (? & [=] & _).
  - split.
    + intros [a Ha].
      destruct (post_problem_ascents db user id body) as [db' r] eqn:E.
      simpl in Ha. subst r.
      apply post_problem_ascents_ok in E
        as (userId & -> & ? & (? & ? & ?) & _). by exists userId.
    + intros (userId & -> & ? & ? & ? & ?).
      exists (ascent_values id userId body).
      assert (post_problem_ascents db (Some userId) id body
              = (set_ascents db
                   (upsert_ascent (ascent_values id userId body) (ascents db)),
                 Http.Ok (ascent_values id userId body))) as ->; [|done].
      apply post_problem_ascents_ok. by exists userId.
  - unfold post_problem_ascents. destruct user; [|done].
    destruct (filter _ (problems db)); [done|]. by case_decide.
  - unfold post_problem_ascents. destruct user; [|done].
    destruct (filter _ (problems db)); [done|]. by case_decide.
  - unfold post_problem_ascents. destruct user; [|done].
    destruct (filter _ (problems db)); [done|]. by case_decide.
  - unfold post_problem_ascents. destruct user; [|done].
    destruct (filter _ (problems db)); [done|]. by case_decide.
  - unfold post_problem_ascents. destruct user; [|done].
    destruct (filter _ (problems db)); [done|]. by case_decide.
Qed.

(** ** Logging an ascent and the participant count *)

Lemma elem_of_registered db cid did u :
  u ∈ Participant.user_id
        <$> filter (λ cp, Participant.competition_id cp = cid
                          ∧ Participant.division_id cp = Some did)
              (competition_participants db)
  ↔ registered_in_division db cid did u.
Proof.
  rewrite list_elem_of_fmap. unfold registered_in_division. split.
  - intros (cp & -> & [[? ?] ?]%list_elem_of_filter). by exists cp.
  - intros (cp & ? & <- & ? & ?). exists cp. split; [done|].
    by apply list_elem_of_filter.
Qed.

Lemma elem_of_climbed db cid did u :
  u ∈ (λ r, Ascent.user_id r.2)
        <$> filter (λ r, in_division cid did r.1)
              (inner_join (problems db) (ascents db)
                 (λ r, Ascent.problem_id r.2 = Problem.id r.1))
  ↔ climbed_in_division db cid did u.
Proof.
  rewrite list_elem_of_fmap. unfold climbed_in_division. split.
  - intros ([p a] & -> & [? (? & ? & ?)%elem_of_inner_join]%list_elem_of_filter).
    by exists p, a.
  - intros (p & a & ? & ? & ? & <- & ?). exists (p, a). split; [done|].
    apply list_elem_of_filter. split; [done|]. by apply elem_of_inner_join.
Qed.

(** The participant count is the size of any set that holds the users who
    take part. *)
Lemma participant_count_takes_part db cid did (S : gset uuid) :
  (∀ u, u ∈ S ↔ takes_part db cid did u) →
  participant_count db cid did = Z.of_nat (size S).
Proof.
  intros HS. rewrite participant_count_size. do 2 f_equal.
  apply set_eq. intros u.
  rewrite HS, elem_of_union, !elem_of_list_to_set.
  by rewrite (elem_of_registered db cid did u), (elem_of_climbed db cid did u).
Qed.

Lemma takes_part_set db cid did :
  ∃ S : gset uuid, ∀ u, u ∈ S ↔ takes_part db cid did u.
Proof.
  exists (list_to_set
            (Participant.user_id
               <$> filter (λ cp, Participant.competition_id cp = cid
                                 ∧ Participant.division_id cp = Some did)
                     (competition_participants db))
          ∪ list_to_set
              ((λ r, Ascent.user_id r.2)
                 <$> filter (λ r, in_division cid did r.1)
                       (inner_join (problems db) (ascents db)
                          (λ r, Ascent.problem_id r.2 = Problem.id r.1)))).
  intros u.
  rewrite elem_of_union, !elem_of_list_to_set.
  by rewrite (elem_of_registered db cid did u), (elem_of_climbed db cid did u).
Qed.

(** Having climbed in a division is a matter of the keys of [ascents]. *)
Lemma climbed_in_division_keys db cid did u :
  climbed_in_division db cid did u
  ↔ ∃ p, p ∈ problems db ∧ in_division cid did p
         ∧ (Problem.id p, u) ∈ ascent_key <$> ascents db.
Proof.
  unfold climbed_in_division. split.
  - intros (p & a & Hp & Ha & E1 & E2 & Hin). exists p. split_and!; [done..|].
    apply list_elem_of_fmap. exists a. split; [|done].
    unfold ascent_key. by rewrite E1, E2.
  - intros (p & Hp & Hin & (a & [= E1 E2] & Ha)%list_elem_of_fmap).
    by exists p, a.
Qed.

Lemma takes_part_upsert_ascent db a cid did u :
  takes_part (set_ascents db (upsert_ascent a (ascents db))) cid did u
  ↔ takes_part db cid did u
    ∨ (u = Ascent.user_id a
       ∧ problem_in_division db cid did (Ascent.problem_id a)).
Proof.
  unfold takes_part. rewrite !climbed_in_division_keys. simpl.
  change (registered_in_division (set_ascents db ?l) cid did u)
    with (registered_in_division db cid did u).
  setoid_rewrite elem_of_upsert_ascent_keys.
  unfold problem_in_division. rewrite list.Exists_exists. split.
  - intros [?|(p & Hp & Hin & [Hk|[= E1 E2]])]; [by left; left| |].
    + left. right. by exists p.
    + right. split; [done|]. by exists p.
  - intros [[?|(p & Hp & Hin & Hk)]|[-> (p & Hp & E & Hin)]]; [by left| |].
    + right. exists p. split_and!; [done..|by left].
    + right. exists p. split_and!; [done..|]. right. by rewrite E.
Qed.

(** X5: a stored ascent and the participant count of a division. The count
    of a division grows by one exactly when the problem is one of the
    division and the climber did not take part in it yet (neither registered
    in it nor with an earlier ascent in it); in every other case, and in
    every other division, it stays as it was. *)
Theorem post_problem_ascents_participant_count db userId id body db' a cid did :
  post_problem_ascents db (Some userId) id body = (db', Http.Ok a) →
  (problem_in_division db cid did id ∧ ¬ takes_part db cid did userId →
   participant_count db' cid did = participant_count db cid did + 1)
  ∧ (¬ problem_in_division db cid did id ∨ takes_part db cid did userId →
     participant_count db' cid did = participant_count db cid did).
Proof.
  intros (? & [= <-] & _ & _ & -> & ->)%post_problem_ascents_ok.
  destruct (takes_part_set db cid did) as [S HS].
  rewrite (participant_count_takes_part db cid did S HS). split.
  - intros [Hp Hu].
    rewrite (participant_count_takes_part _ cid did (S ∪ {[userId]})).
    + rewrite size_union, size_singleton; [lia|].
      apply disjoint_singleton_r. by rewrite HS.
    + intros u. rewrite takes_part_upsert_ascent, elem_of_union, HS,
        elem_of_singleton. simpl. split.
      * intros [?| ->]; [by left|by right].
      * intros [?|[-> _]]; [by left|by right].
  - intros Hor. apply participant_count_takes_part.
    intros u. rewrite takes_part_upsert_ascent, HS. simpl. split; [by left|].
    intros [?|[-> Hp]]; [done|]. by destruct Hor.
Qed.

Lemma post_problem_ascents_participant_count_witness :
  participant_count sample_db 10 20 = 3
  ∧ participant_count
      (post_problem_ascents sample_db (Some 4%N) 30%N
         (AscentBody.mk (Some true) (Some 5) None None)).1 10 20
    = 3 + 1.
Proof.
  split; [vm_compute; reflexivity|].
  apply (post_problem_ascents_participant_count sample_db 4%N 30%N
           (AscentBody.mk (Some true) (Some 5) None None)
           (post_problem_ascents sample_db (Some 4%N) 30%N
              (AscentBody.mk (Some true) (Some 5) None None)).1
           (Ascent.mk 30 4 true (Some 5) false None) 10%N 20%N).
  - vm_compute. reflexivity.
  - split; [by_compute|].
    intros [(cp & Hcp & Hu & _ & Hd)|(p & a & _ & Ha & _ & Hu & _)].
    + revert cp Hcp Hu Hd.
      apply (list.Forall_forall
               (λ cp, Participant.user_id cp = 4%N →
                      Participant.division_id cp = Some 20%N → False)).
      repeat constructor; simpl; congruence.
    + revert a Ha Hu.
      apply (list.Forall_forall (λ a, Ascent.user_id a = 4%N → False)).
      repeat constructor; simpl; congruence.
Defined.

(** ** Deleting a problem *)

Lemma delete_problem_rows access db id r :
  r ∈ filter (λ r, Problem.id r.1 = id)
        (inner_join (problems db) access
           (λ r, Problem.competition_id r.1 = CompetitionAccess.id r.2))
  ↔ r.1 ∈ problems db ∧ Problem.id r.1 = id
    ∧ r.2 ∈ access ∧ CompetitionAccess.id r.2 = Problem.competition_id r.1.
Proof.
  rewrite list_elem_of_filter, elem_of_inner_join. simpl. split.
  - by intros (? & ? & ? & ->).
  - by intros (? & ? & ? & ->).
Qed.

(** Under the two primary keys the join of the handler has one row at most. *)
Lemma delete_problem_rows_unique access db id r1 r2 :
  problems_pkey db → competitions_pkey access →
  r1 ∈ filter (λ r, Problem.id r.1 = id)
         (inner_join (problems db) access
            (λ r, Problem.competition_id r.1 = CompetitionAccess.id r.2)) →
  r2 ∈ filter (λ r, Problem.id r.1 = id)
         (inner_join (problems db) access
            (λ r, Problem.competition_id r.1 = CompetitionAccess.id r.2)) →
  r1 = r2.
Proof.
  intros Hp Hc (Hp1 & Hi1 & Hc1 & He1)%delete_problem_rows
         (Hp2 & Hi2 & Hc2 & He2)%delete_problem_rows.
  destruct r1 as [p1 c1], r2 as [p2 c2]. simpl in *.
  assert (p1 = p2) as <-.
  { apply (NoDup_fmap_elem_inj Problem.id (problems db));
      [exact Hp|done|done|congruence]. }
  f_equal.
  apply (NoDup_fmap_elem_inj CompetitionAccess.id access);
    [exact Hc|done|done|congruence].
Qed.

Lemma delete_problem_ok access db user id db' :
  delete_problem access db user id = (db', Http.Ok ()) ↔
  ∃ userId row rows,
    user = Some userId
    ∧ filter (λ r, Problem.id r.1 = id)
        (inner_join (problems db) access
           (λ r, Problem.competition_id r.1 = CompetitionAccess.id r.2))
      = row :: rows
    ∧ CompetitionAccess.created_by row.2 = Some userId
    ∧ db' = without_problem id db.
Proof.
  unfold delete_problem. destruct user as [userId|].
  - destruct (filter _ (inner_join _ _ _)) as [|row rows] eqn:E.
    + split; [done|]. by intros (? & ? & ? & _ & ? & _).
    + case_decide as Hown.
      * split.
        -- intros [= <-]. by exists userId, row, rows.
        -- by intros (? & ? & ? & _ & _ & _ & ->).
      * split; [done|]. intros (? & ? & ? & [= <-] & [= <- <-] & ? & _). done.
  - split; [done|]. by intros (? & ? & ? & ? & _).
Qed.

Lemma delete_problem_refused access db user id :
  (delete_problem access db user id).2 ≠ Http.Ok () →
  (delete_problem access db user id).1 = db.
Proof.
  unfold delete_problem. destruct user as [userId|]; [|done].
  destruct (filter _ (inner_join _ _ _)); [done|]. by case_decide.
Qed.

(** X6: a problem is deleted by the organizer only. Under the primary keys
    of [problems] and [competitions], the answer is 204 exactly when the
    caller created the competition of the problem; it is 403 for any other
    caller of a stored problem, 404 when the problem is not stored with a
    competition and 401 without a caller; and every answer but 204 leaves
    the database as it was. *)
Theorem delete_problem_by_organizer_only access db user id :
  problems_pkey db → competitions_pkey access →
  let r := delete_problem access db user id in
  (r.2 = Http.Ok () ↔ ∃ userId, user = Some userId
                                ∧ organizer_of_problem access db id userId)
  ∧ (r.2 = Http.Forbidden
     ↔ ∃ userId, user = Some userId
                 ∧ problem_with_competition access db id
                 ∧ ¬ organizer_of_problem access db id userId)
  ∧ (r.2 = Http.NotFound
     ↔ is_Some user ∧ ¬ problem_with_competition access db id)
  ∧ (r.2 = Http.Unauthenticated ↔ user = None)
  ∧ (r.2 ≠ Http.Ok () → r.1 = db).
Proof.
  intros Hp Hc. simpl. destruct user as [userId|]; unfold delete_problem.
  - destruct (filter _ (inner_join _ _ _)) as [|row rows] eqn:E.
    + assert (¬ problem_with_competition access db id) as Hnone.
      { intros (p & c & ? & ? & ? & ?).
        assert ((p, c) ∈ filter (λ r, Problem.id r.1 = id)
                  (inner_join (problems db) access
                     (λ r, Problem.competition_id r.1 = CompetitionAccess.id r.2)))
          as Hin by (by apply delete_problem_rows).
        rewrite E in Hin. by apply elem_of_nil in Hin. }
      simpl. split_and!; try done.
      * split; [done|]. intros (? & _ & p & c & ? & ? & ? & ? & _).
        destruct Hnone. by exists p, c.
      * split; [done|]. by intros (? & _ & ? & _).
    + assert (row ∈ row :: rows) as Hrow by left. rewrite <-E in Hrow.
      assert (problem_with_competition access db id) as Hpc.
      { apply delete_problem_rows in Hrow as (? & ? & ? & ?).
        by exists row.1, row.2. }
      assert (CompetitionAccess.created_by row.2 = Some userId
              ↔ organizer_of_problem access db id userId) as Hown.
      { split.
        - intros Hby. apply delete_problem_rows in Hrow as (? & ? & ? & ?).
          by exists row.1, row.2.
        - intros (p & c & ? & ? & ? & ? & Hby).
          assert ((p, c) = row) as <-; [|done].
          apply (delete_problem_rows_unique access db id); [done..| |done].
          by apply delete_problem_rows. }
      case_decide as Hby; simpl.
      * split_and!; try done.
        -- split; [|done]. intros _. exists userId. split; [done|].
           by apply Hown.
        -- split; [done|]. intros (? & [= <-] & _ & Hno). destruct Hno.
           by apply Hown.
        -- split; [done|]. by intros [_ ?].
      * split_and!; try done.
        -- split; [done|]. intros (? & [= <-] & ?). destruct Hby.
           by apply Hown.
        -- split; [|done]. intros _. exists userId. split_and!; [done..|].
           by rewrite <-Hown.
        -- split; [done|]. by intros [_ ?].
  - simpl. split_and!; try done.
    + split; [done|]. by intros (? & [=] & _).
    + split; [done|]. by intros (? & [=] & _).
    + split; [done|]. by intros [[? [=]] _].
Qed.

Lemma delete_problem_by_organizer_only_witness :
  (delete_problem sample_access sample_db (Some 2%N) 30%N).2 = Http.Forbidden
  ↔ ∃ userId, Some 2%N = Some userId
              ∧ problem_with_competition sample_access sample_db 30%N
              ∧ ¬ organizer_of_problem sample_access sample_db 30%N userId.
Proof.
  apply (delete_problem_by_organizer_only sample_access sample_db
           (Some 2%N) 30%N); by_compute.
Defined.

(** X7: what a deletion leaves behind. After a 204 the problem and every
    ascent on it are gone and nothing else is: the other problems and
    ascents are kept, so the keys of [problems] and [ascents] and the
    foreign keys of [ascents] still hold, and asking again gives 404. *)
Theorem delete_problem_removes access db user id db' :
  delete_problem access db user id = (db', Http.Ok ()) →
  (∀ p, p ∈ problems db' ↔ p ∈ problems db ∧ Problem.id p ≠ id)
  ∧ (∀ a, a ∈ ascents db' ↔ a ∈ ascents db ∧ Ascent.problem_id a ≠ id)
  ∧ (problems_pkey db → problems_pkey db')
  ∧ (ascents_pkey db → ascents_pkey db')
  ∧ (ascents_fkeys db → ascents_fkeys db')
  ∧ delete_problem access db' user id = (db', Http.NotFound).
Proof.
  intros (userId & row & rows & -> & _ & _ & ->)%delete_problem_ok.
  split_and!.
  - intros p. simpl. rewrite list_elem_of_filter. tauto.
  - intros a. simpl. rewrite list_elem_of_filter. tauto.
  - unfold problems_pkey. simpl. intros Hp.
    eapply sublist_NoDup; [exact Hp|]. apply fmap_sublist, sublist_filter.
  - unfold ascents_pkey. simpl. intros Ha.
    eapply sublist_NoDup; [exact Ha|]. apply fmap_sublist, sublist_filter.
  - unfold ascents_fkeys. simpl. rewrite !list.Forall_forall.
    intros Hfk a [Hne Ha]%list_elem_of_filter.
    destruct (Hfk a Ha) as [(p & Hp & Hid)%list.Exists_exists Hu].
    split; [|done]. apply list.Exists_exists. exists p. split; [|done].
    apply list_elem_of_filter. split; [congruence|done].
  - unfold delete_problem. rewrite filter_nil_elem; [done|].
    intros [p c] (Hp & _)%elem_of_inner_join. simpl in *.
    by apply list_elem_of_filter in Hp as [? _].
Qed.

Lemma delete_problem_removes_witness :
  delete_problem sample_access
    (delete_problem sample_access sample_db (Some 1%N) 30%N).1 (Some 1%N) 30%N
  = ((delete_problem sample_access sample_db (Some 1%N) 30%N).1, Http.NotFound).
Proof.
  apply (delete_problem_removes sample_access sample_db (Some 1%N) 30%N).
  vm_compute. reflexivity.
Defined.

(** ** Deleting a problem and the reports *)

Section problem_outside_division.
Context (db : Database) (pid cid did : uuid).
Hypothesis Hout : ¬ problem_in_division db cid did pid.

Lemma in_division_not_outside p :
  p ∈ problems db → in_division cid did p → Problem.id p ≠ pid.
Proof.
  intros Hp Hdiv Hid. apply Hout, list.Exists_exists. by exists p.
Qed.

Lemma participant_count_outside :
  participant_count (without_problem pid db) cid did
  = participant_count db cid did.
Proof.
  assert (filter (λ r, in_division cid did r.1)
            (inner_join (problems (without_problem pid db))
               (ascents (without_problem pid db))
               (λ r, Ascent.problem_id r.2 = Problem.id r.1))
          = filter (λ r, in_division cid did r.1)
              (inner_join (problems db) (ascents db)
                 (λ r, Ascent.problem_id r.2 = Problem.id r.1))) as E.
  { simpl.
    rewrite (inner_join_filter (λ r, Ascent.problem_id r.2 = Problem.id r.1)).
    rewrite list_filter_filter. apply filter_ext_elem.
    intros [p a] (Hp & _ & Hon)%elem_of_inner_join. simpl in *.
    split; [by intros [? _]|]. intros Hdiv. split; [done|].
    pose proof (in_division_not_outside _ Hp Hdiv). split; congruence. }
  unfold participant_count. by rewrite E.
Qed.

Lemma problem_count_outside :
  problem_count (without_problem pid db) cid did = problem_count db cid did.
Proof.
  assert (filter (in_division cid did) (problems (without_problem pid db))
          = filter (in_division cid did) (problems db)) as E.
  { simpl. rewrite list_filter_filter. apply filter_ext_elem. intros p Hp.
    split; [by intros [? _]|]. intros Hdiv. split; [done|].
    by apply in_division_not_outside. }
  unfold problem_count. by rewrite E.
Qed.

Lemma total_flag_outside (f : Ascent.t → bool) :
  filter (λ r, in_division cid did r.1 ∧ ascent_flag f r.2)
    (left_join (problems (without_problem pid db))
       (ascents (without_problem pid db))
       (λ r, Ascent.problem_id r.2 = Problem.id r.1))
  = filter (λ r, in_division cid did r.1 ∧ ascent_flag f r.2)
      (left_join (problems db) (ascents db)
         (λ r, Ascent.problem_id r.2 = Problem.id r.1)).
Proof.
  simpl.
  apply (filter_left_join_filter
           (λ r, Ascent.problem_id r.2 = Problem.id r.1)
           (in_division cid did) (λ p, Problem.id p ≠ pid)
           (ascent_flag f) (λ a, Ascent.problem_id a ≠ pid)).
  - intros p Hp Hdiv. by apply in_division_not_outside.
  - intros p a Hp _ Hdiv Hon. simpl in Hon. rewrite Hon.
    by apply in_division_not_outside.
Qed.

Lemma summary_row_outside d :
  Division.id d = did →
  summary_row (without_problem pid db) cid d = summary_row db cid d.
Proof.
  intros E. unfold summary_row, total_tops, total_zones. rewrite E.
  by rewrite participant_count_outside, problem_count_outside,
    !total_flag_outside.
Qed.
End problem_outside_division.

Section problem_outside.
Context (db : Database) (pid cid : uuid).
Hypothesis Hout : ¬ scored_in db cid pid.

Lemma scored_in_division did :
  problem_in_division db cid did pid → scored_in db cid pid.
Proof.
  unfold problem_in_division, scored_in. rewrite !list.Exists_exists.
  intros (p & Hp & Hid & Hc & Hdiv). exists p. split_and!; [done..|].
  by rewrite Hdiv.
Qed.

Lemma division_problems_outside :
  division_problems (without_problem pid db) cid = division_problems db cid.
Proof.
  unfold division_problems. simpl.
  rewrite (inner_join_filter_fst
             (λ r, Problem.division_id r.1 = Some (Division.id r.2))).
  f_equal. rewrite list_filter_filter. apply filter_ext_elem.
  intros [p d] (Hp & _ & Hon)%elem_of_inner_join. simpl in *.
  split; [by intros [? _]|]. intros Hc. split; [done|].
  apply (in_division_not_outside db pid cid (Division.id d)); [|done..].
  intros ?. by apply Hout, (scored_in_division (Division.id d)).
Qed.

Lemma per_user_joined_outside :
  per_user_joined (without_problem pid db) cid = per_user_joined db cid.
Proof.
  unfold per_user_joined. rewrite division_problems_outside. simpl.
  rewrite (inner_join_filter_snd
             (λ r, Ascent.problem_id r.2 = DivisionProblem.problem_id r.1)).
  apply filter_all_elem. intros [dp a] (Hdp & _ & Hon)%elem_of_inner_join.
  simpl in *.
  apply elem_of_division_problems in Hdp as (p & d & Hp & _ & Hpd & Hc & ->).
  simpl in Hon. rewrite Hon.
  apply (in_division_not_outside db pid cid (Division.id d)); [|done..].
  intros ?. by apply Hout, (scored_in_division (Division.id d)).
Qed.

Lemma per_user_outside :
  per_user (without_problem pid db) cid = per_user db cid.
Proof. unfold per_user. by rewrite per_user_joined_outside. Qed.

Lemma podiums_select_outside max_rank :
  podiums_select (without_problem pid db) cid max_rank
  = podiums_select db cid max_rank.
Proof.
  unfold podiums_select, ranked, ranked_joined.
  by rewrite per_user_outside.
Qed.

Lemma summaries_outside division_id :
  summaries (without_problem pid db) cid division_id
  = summaries db cid division_id.
Proof.
  unfold summaries. simpl. apply list_fmap_ext. intros _ d _.
  apply (summary_row_outside db pid cid (Division.id d)); [|done].
  intros ?. by apply Hout, (scored_in_division (Division.id d)).
Qed.

Lemma competition_summary_outside division_id :
  competition_summary (without_problem pid db) cid division_id
  = competition_summary db cid division_id.
Proof.
  unfold competition_summary, podiumRows, competition_division_podiums.
  by rewrite summaries_outside, podiums_select_outside.
Qed.
End problem_outside.

(** X8: deleting a problem touches the report of one competition at most.
    Whatever the answer, the report of a competition, and the tallies of its
    climbers, are as before unless the problem was a problem of one of its
    divisions: the reports of all other competitions are untouched, and so
    is every report when the problem had no division. *)
Theorem delete_problem_other_reports access db user id cid :
  ¬ scored_in db cid id →
  per_user (delete_problem access db user id).1 cid = per_user db cid
  ∧ ∀ division_id,
      competition_summary (delete_problem access db user id).1 cid division_id
      = competition_summary db cid division_id.
Proof.
  intros Hout.
  destruct (delete_problem access db user id) as [db' r] eqn:E.
  pose proof (delete_problem_refused access db user id) as Hno.
  rewrite E in Hno. simpl in *.
  destruct r as [[]| | | | |]; try (by rewrite Hno).
  apply delete_problem_ok in E as (? & ? & ? & _ & _ & _ & ->). split.
  - by apply per_user_outside.
  - intros division_id. by apply competition_summary_outside.
Qed.

Lemma delete_problem_other_reports_witness :
  per_user (delete_problem sample_access sample_db (Some 1%N) 30%N).1 11
  = per_user sample_db 11
  ∧ ∀ division_id,
      competition_summary
        (delete_problem sample_access sample_db (Some 1%N) 30%N).1 11
        division_id
      = competition_summary sample_db 11 division_id.
Proof.
  apply (delete_problem_other_reports sample_access sample_db (Some 1%N)
           30%N 11%N).
  by_compute.
Defined.

(** Under the primary key, the rows but the one of a given key are one
    fewer. *)
Lemma length_filter_other_key {A K} `{EqDecision K} (f : A → K) (l : list A) x :
  NoDup (f <$> l) → x ∈ l →
  (length (filter (λ y, f y ≠ f x) l) + 1 = length l)%nat.
Proof.
  induction l as [|y l IH]; [by intros _ ?%elem_of_nil|].
  csimpl. intros [Hy Hl]%list.NoDup_cons [->|Hx]%elem_of_cons.
  - rewrite filter_cons_False by (by intros []).
    rewrite filter_all_elem; [lia|]. intros z Hz E. destruct Hy.
    rewrite <-E. by apply list_elem_of_fmap_2.
  - rewrite filter_cons_True; [simpl; by rewrite IH|].
    intros E. destruct Hy. rewrite E. by apply list_elem_of_fmap_2.
Qed.

(** X9: deleting a problem of a division. Under the primary key of
    [problems], after a 204 the problem count of the division is one less,
    and the row of every other division in the summary (its participant
    count, problem count and totals) is as it was. *)
Theorem delete_problem_problem_count access db user id db' cid did :
  problems_pkey db →
  delete_problem access db user id = (db', Http.Ok ()) →
  problem_in_division db cid did id →
  problem_count db' cid did = problem_count db cid did - 1
  ∧ ∀ d, Division.id d ≠ did → summary_row db' cid d = summary_row db cid d.
Proof.
  intros Hpk (? & ? & ? & _ & _ & _ & ->)%delete_problem_ok
         (p & Hp & Hid & Hdiv)%list.Exists_exists. split.
  - unfold problem_count, coalesce, scalar, count. simpl.
    assert (filter (in_division cid did)
              (filter (λ p, Problem.id p ≠ id) (problems db))
            = filter (λ q, Problem.id q ≠ Problem.id p)
                (filter (in_division cid did) (problems db))) as ->.
    { rewrite !list_filter_filter. apply filter_ext_elem. intros q _.
      rewrite Hid. tauto. }
    rewrite <-(length_filter_other_key Problem.id
                 (filter (in_division cid did) (problems db)) p).
    + lia.
    + eapply sublist_NoDup; [exact Hpk|]. apply fmap_sublist, sublist_filter.
    + by apply list_elem_of_filter.
  - intros d Hd. apply (summary_row_outside db id cid (Division.id d)); [|done].
    intros (q & Hq & Hqid & Hqdiv)%list.Exists_exists.
    assert (q = p) as ->.
    { apply (NoDup_fmap_elem_inj Problem.id (problems db));
        [exact Hpk|done|done|congruence]. }
    destruct Hdiv as [_ Hdiv], Hqdiv as [_ Hqdiv]. congruence.
Qed.

Lemma delete_problem_problem_count_witness :
  problem_count sample_db 10 20 = 2
  ∧ problem_count (delete_problem sample_access sample_db (Some 1%N) 30%N).1
      10 20 = 2 - 1.
Proof.
  split; [vm_compute; reflexivity|].
  apply (delete_problem_problem_count sample_access sample_db (Some 1%N) 30%N
           (delete_problem sample_access sample_db (Some 1%N) 30%N).1
           10%N 20%N).
  - by_compute.
  - vm_compute. reflexivity.
  - by_compute.
Defined.

(** ** Joining a competition *)

Lemma participant_do_update_conflict cp b :
  participant_key b = participant_key cp → participant_do_update cp b = cp.
Proof.
  destruct cp, b. unfold participant_key, participant_do_update. simpl.
  congruence.
Qed.

Lemma elem_of_upsert_participant cp l b :
  b ∈ upsert_participant cp l
  ↔ (b ∈ l ∧ participant_key b ≠ participant_key cp) ∨ b = cp.
Proof.
  unfold upsert_participant. destruct (decide (Exists _ l)) as [Hc|Hc].
  - rewrite list_elem_of_fmap. split.
    + intros (b' & -> & Hb'). case_decide as Hk.
      * right. by apply participant_do_update_conflict.
      * by left.
    + intros [[Hb Hk]| ->].
      * exists b. by rewrite decide_False.
      * apply list.Exists_exists in Hc as (b' & Hb' & Hk). exists b'.
        rewrite decide_True by done.
        by rewrite participant_do_update_conflict.
  - rewrite elem_of_app, list_elem_of_singleton. split.
    + intros [Hb| ->]; [|by right]. left. split; [done|]. intros Hk.
      apply Hc, list.Exists_exists. by exists b.
    + intros [[? _]| ->]; [by left|by right].
Qed.

Lemma upsert_participant_keys cp l :
  participant_key <$> upsert_participant cp l
  = if decide (participant_key cp ∈ participant_key <$> l)
    then participant_key <$> l
    else (participant_key <$> l) ++ [participant_key cp].
Proof.
  unfold upsert_participant.
  assert (Exists (λ b, participant_key b = participant_key cp) l
          ↔ participant_key cp ∈ participant_key <$> l) as Hiff.
  { rewrite list.Exists_exists, list_elem_of_fmap. split.
    - intros (b & ? & E). by exists b.
    - intros (b & E & ?). by exists b. }
  destruct (decide (Exists _ l)) as [Hc|Hc]; rewrite Hiff in Hc.
  - rewrite decide_True by done. rewrite <-list_fmap_compose.
    apply list_fmap_ext. intros _ b _. simpl. by case_decide.
  - rewrite decide_False by done. by rewrite fmap_app.
Qed.

Lemma upsert_participant_NoDup cp l :
  NoDup (participant_key <$> l) →
  NoDup (participant_key <$> upsert_participant cp l).
Proof.
  intros Hl. rewrite upsert_participant_keys. case_decide as Hc; [done|].
  apply list.NoDup_app. split_and!; [done| |apply list.NoDup_singleton].
  by intros k ? ->%list_elem_of_singleton.
Qed.

Lemma post_competition_join_ok access db now user id division_id db' cp :
  post_competition_join access db now user id division_id = (db', Http.Ok cp) ↔
  ∃ userId comp comps,
    user = Some userId
    ∧ filter (λ c, CompetitionAccess.id c = id) access = comp :: comps
    ∧ registration_open comp now
    ∧ valid_division db id division_id
    ∧ user_exists db userId
    ∧ cp = Participant.mk id userId division_id
    ∧ db' = set_competition_participants db
              (upsert_participant cp (competition_participants db)).
Proof.
  unfold post_competition_join, registration_open, valid_division.
  destruct user as [userId|].
  2: { split; [done|]. by intros (? & ? & ? & ? & _). }
  destruct (filter _ access) as [|comp comps] eqn:E.
  { split; [done|]. by intros (? & ? & ? & _ & ? & _). }
  destruct (CompetitionAccess.is_public comp) eqn:Epub; simpl.
  2: { split; [done|]. intros (? & ? & ? & _ & [= <- <-] & [Hp _] & _).
       by rewrite Epub in Hp. }
  destruct (CompetitionAccess.starts_at comp) as [starts_at|] eqn:Est.
  - case_bool_decide as Hst.
    { split; [done|]. intros (? & ? & ? & _ & [= <- <-] & [_ Ho] & _).
      rewrite Est in Ho. specialize (Ho _ eq_refl). lia. }
    destruct division_id as [d|].
    + case_bool_decide as Hd.
      { split; [done|]. intros (? & ? & ? & _ & _ & _ & Hv & _).
        destruct (Hv d eq_refl) as (dv & Hdv & ? & ?).
        apply length_zero_iff_nil in Hd.
        assert (dv ∈ division_of_competition db d id) as Hin
          by (by apply list_elem_of_filter).
        rewrite Hd in Hin. by apply elem_of_nil in Hin. }
      case_decide as Hu.
      * split.
        -- intros [= <- <-]. exists userId, comp, comps.
           split_and!; try done.
           ++ intros t. rewrite Est. intros [= <-]. lia.
           ++ intros d' [= <-].
              destruct (division_of_competition db d id) as [|dv dvs] eqn:Edv;
                [done|].
              assert (dv ∈ division_of_competition db d id) as Hin
                by (rewrite Edv; left).
              apply list_elem_of_filter in Hin as [[? ?] ?]. by exists dv.
        -- by intros (? & ? & ? & [= <-] & _ & _ & _ & _ & -> & ->).
      * split; [done|]. by intros (? & ? & ? & [= <-] & _ & _ & _ & ? & _).
    + case_decide as Hu.
      * split.
        -- intros [= <- <-]. exists userId, comp, comps.
           split_and!; try done.
           intros t. rewrite Est. intros [= <-]. lia.
        -- by intros (? & ? & ? & [= <-] & _ & _ & _ & _ & -> & ->).
      * split; [done|]. by intros (? & ? & ? & [= <-] & _ & _ & _ & ? & _).
  - destruct division_id as [d|].
    + case_bool_decide as Hd.
      { split; [done|]. intros (? & ? & ? & _ & _ & _ & Hv & _).
        destruct (Hv d eq_refl) as (dv & Hdv & ? & ?).
        apply length_zero_iff_nil in Hd.
        assert (dv ∈ division_of_competition db d id) as Hin
          by (by apply list_elem_of_filter).
        rewrite Hd in Hin. by apply elem_of_nil in Hin. }
      case_decide as Hu.
      * split.
        -- intros [= <- <-]. exists userId, comp, comps.
           split_and!; try done.
           ++ intros t. by rewrite Est.
           ++ intros d' [= <-].
              destruct (division_of_competition db d id) as [|dv dvs] eqn:Edv;
                [done|].
              assert (dv ∈ division_of_competition db d id) as Hin
                by (rewrite Edv; left).
              apply list_elem_of_filter in Hin as [[? ?] ?]. by exists dv.
        -- by intros (? & ? & ? & [= <-] & _ & _ & _ & _ & -> & ->).
      * split; [done|]. by intros (? & ? & ? & [= <-] & _ & _ & _ & ? & _).
    + case_decide as Hu.
      * split.
        -- intros [= <- <-]. exists userId, comp, comps.
           split_and!; try done. intros t. by rewrite Est.
        -- by intros (? & ? & ? & [= <-] & _ & _ & _ & _ & -> & ->).
      * split; [done|]. by intros (? & ? & ? & [= <-] & _ & _ & _ & ? & _).
Qed.

Lemma post_competition_join_refused access db now user id division_id :
  (∀ cp, (post_competition_join access db now user id division_id).2
         ≠ Http.Ok cp) →
  (post_competition_join access db now user id division_id).1 = db.
Proof.
  unfold post_competition_join. destruct user as [userId|]; [|done].
  destruct (filter _ access) as [|comp comps]; [done|].
  destruct (negb _); [done|]. destruct (match CompetitionAccess.starts_at comp with
                                        | Some _ => _ | None => _ end); [done|].
  destruct (match division_id with Some _ => _ | None => _ end); [done|].
  case_decide; [|done]. intros Hno.
  by destruct (Hno (Participant.mk id userId division_id)).
Qed.

(** X10: joining keeps the primary key of [competition_participants], and
    keeps every participant in a division of the competition they joined:
    the foreign key alone would accept the division of another competition,
    the handler does not. Both hold after every request, whatever the
    answer. *)
Theorem post_competition_join_keeps_keys access db now user id division_id :
  competition_participants_pkey db → participants_in_own_competition db →
  competition_participants_pkey
    (post_competition_join access db now user id division_id).1
  ∧ participants_in_own_competition
      (post_competition_join access db now user id division_id).1.
Proof.
  intros Hpk Hown.
  destruct (post_competition_join access db now user id division_id)
    as [db' r] eqn:E.
  pose proof (post_competition_join_refused access db now user id division_id)
    as Hno.
  rewrite E in Hno. simpl in *.
  destruct r as [cp| | | | |]; try (by rewrite Hno).
  clear Hno. apply post_competition_join_ok in E
    as (userId & comp & comps & -> & _ & _ & Hv & _ & -> & ->). split.
  - by apply upsert_participant_NoDup.
  - unfold participants_in_own_competition in *. simpl.
    rewrite list.Forall_forall in Hown. apply list.Forall_forall.
    intros b [[Hb _]| ->]%elem_of_upsert_participant; [by apply Hown|].
    unfold in_own_competition. simpl. destruct division_id as [d|]; [|done].
    destruct (Hv d eq_refl) as (dv & ? & ? & ?).
    apply list.Exists_exists. by exists dv.
Qed.

Lemma post_competition_join_keeps_keys_witness :
  competition_participants_pkey
    (post_competition_join sample_access sample_db 0 (Some 4%N) 10%N
       (Some 20%N)).1
  ∧ participants_in_own_competition
      (post_competition_join sample_access sample_db 0 (Some 4%N) 10%N
         (Some 20%N)).1.
Proof.
  apply (post_competition_join_keeps_keys sample_access sample_db 0
           (Some 4%N) 10%N (Some 20%N)); by_compute.
Defined.

Lemma registered_upsert_participant db id userId division_id cid d v :
  registered_in_division
    (set_competition_participants db
       (upsert_participant (Participant.mk id userId division_id)
          (competition_participants db))) cid d v
  ↔ (cid = id ∧ v = userId ∧ division_id = Some d)
    ∨ ((cid ≠ id ∨ v ≠ userId) ∧ registered_in_division db cid d v).
Proof.
  unfold registered_in_division. simpl.
  setoid_rewrite elem_of_upsert_participant. split.
  - intros (b & [[Hb Hk]| ->] & Hu & Hc & Hd).
    + right. split; [|by exists b].
      destruct (decide (cid = id)) as [->|?]; [|by left]. right.
      intros ->. apply Hk. unfold participant_key. simpl. congruence.
    + left. simpl in *. done.
  - intros [(-> & -> & ->)|[Hne (b & Hb & Hu & Hc & Hd)]].
    + exists (Participant.mk id userId (Some d)). split_and!; [by right|done..].
    + exists b. split_and!; [|done..]. left. split; [done|].
      unfold participant_key. simpl. intros [= E1 E2].
      destruct Hne; congruence.
Qed.

(** X11: after joining, the caller is registered in the division asked for
    and in no other division of the competition; an earlier registration of
    theirs in that competition is replaced. Nobody else's registration, and
    no registration in another competition, changes. *)
Theorem post_competition_join_registers access db now userId id division_id
    db' cp cid d v :
  post_competition_join access db now (Some userId) id division_id
  = (db', Http.Ok cp) →
  registered_in_division db' cid d v
  ↔ (cid = id ∧ v = userId ∧ division_id = Some d)
    ∨ ((cid ≠ id ∨ v ≠ userId) ∧ registered_in_division db cid d v).
Proof.
  intros (? & comp & comps & [= <-] & _ & _ & _ & _ & -> & ->)
           %post_competition_join_ok.
  apply registered_upsert_participant.
Qed.

Lemma post_competition_join_registers_witness :
  registered_in_division sample_db 10 21 4
  ∧ (registered_in_division
       (post_competition_join sample_access sample_db 0 (Some 4%N) 10%N
          (Some 20%N)).1 10 21 4
     ↔ (10%N = 10%N ∧ 4%N = 4%N ∧ Some 20%N = Some 21%N)
       ∨ ((10%N ≠ 10%N ∨ 4%N ≠ 4%N) ∧ registered_in_division sample_db 10 21 4)).
Proof.
  split.
  - exists (Participant.mk 10 4 (Some 21%N)). split_and!; [|done..].
    right. left.
  - apply (post_competition_join_registers sample_access sample_db 0 4%N 10%N
             (Some 20%N)
             (post_competition_join sample_access sample_db 0 (Some 4%N) 10%N
                (Some 20%N)).1
             (Participant.mk 10 4 (Some 20%N)) 10%N 21%N 4%N).
    vm_compute. reflexivity.
Defined.

(** X12: who may join. For a stored competition (under its primary key) the
    answer is 201 exactly when there is a caller who is a stored user, the
    competition is public and has not started (a start time equal to the
    time of the request is too late), and the division asked for, if any, is
    one of this competition; 403 exactly when a caller meets a competition
    that is not public or has started; 400 exactly when registration is open
    and the division is not one of this competition. Every answer but 201
    leaves the database as it was. *)
Theorem post_competition_join_answers access db now user id division_id c :
  competitions_pkey access → c ∈ access → CompetitionAccess.id c = id →
  let r := post_competition_join access db now user id division_id in
  ((∃ cp, r.2 = Http.Ok cp)
   ↔ ∃ userId, user = Some userId ∧ registration_open c now
               ∧ valid_division db id division_id ∧ user_exists db userId)
  ∧ (r.2 = Http.Forbidden ↔ is_Some user ∧ ¬ registration_open c now)
  ∧ (r.2 = Http.BadRequest
     ↔ is_Some user ∧ registration_open c now
       ∧ ¬ valid_division db id division_id)
  ∧ ((∀ cp, r.2 ≠ Http.Ok cp) → r.1 = db).
Proof.
  intros Hpk Hc Hid. simpl.
  assert (∃ comps, filter (λ c, CompetitionAccess.id c = id) access = c :: comps)
    as [comps Ec].
  { destruct (filter _ access) as [|c' comps] eqn:E.
    - by destruct (filter_nil_not_elem_of _ _ c E).
    - exists comps. f_equal.
      assert (c' ∈ filter (λ c, CompetitionAccess.id c = id) access) as Hc'
        by (rewrite E; left).
      apply list_elem_of_filter in Hc' as [? ?].
      apply (NoDup_fmap_elem_inj CompetitionAccess.id access);
        [exact Hpk|done|done|congruence]. }
  split_and!; [| | |apply post_competition_join_refused].
  - split.
    + intros [cp Hcp].
      destruct (post_competition_join access db now user id division_id)
        as [db' r] eqn:E.
      simpl in Hcp. subst r. apply post_competition_join_ok in E
        as (userId & comp & comps' & -> & Ec' & ? & ? & ? & _).
      rewrite Ec in Ec'. injection Ec' as <- <-. by exists userId.
    + intros (userId & -> & Ho & Hv & Hu).
      exists (Participant.mk id userId division_id).
      assert (post_competition_join access db now (Some userId) id division_id
              = (set_competition_participants db
                   (upsert_participant (Participant.mk id userId division_id)
                      (competition_participants db)),
                 Http.Ok (Participant.mk id userId division_id))) as ->; [|done].
      apply post_competition_join_ok. by exists userId, c, comps.
  - unfold post_competition_join, registration_open.
    destruct user as [userId|]; [|split; [done|by intros [[? [=]] _]]].
    rewrite Ec. destruct (CompetitionAccess.is_public c) eqn:Epub; simpl.
    2: { split; [|done]. intros _. split; [done|]. by intros [? _]. }
    destruct (CompetitionAccess.starts_at c) as [starts_at|] eqn:Est.
    + case_bool_decide as Hst.
      * split; [|done]. intros _. split; [done|]. intros [_ Ho].
        specialize (Ho _ eq_refl). lia.
      * destruct (match division_id with Some _ => _ | None => _ end).
        -- split; [done|]. intros [_ Hno]. destruct Hno. split; [done|].
           intros t [= <-]. lia.
        -- case_decide.
           ++ split; [done|]. intros [_ Hno]. destruct Hno. split; [done|].
              intros t [= <-]. lia.
           ++ split; [done|]. intros [_ Hno]. destruct Hno. split; [done|].
              intros t [= <-]. lia.
    + destruct (match division_id with Some _ => _ | None => _ end).
      * split; [done|]. intros [_ Hno]. by destruct Hno.
      * case_decide.
        -- split; [done|]. intros [_ Hno]. by destruct Hno.
        -- split; [done|]. intros [_ Hno]. by destruct Hno.
  - unfold post_competition_join, registration_open.
    destruct user as [userId|]; [|split; [done|by intros [[? [=]] _]]].
    rewrite Ec. destruct (CompetitionAccess.is_public c) eqn:Epub; simpl.
    2: { split; [done|]. by intros (_ & [? _] & _). }
    assert ((match division_id with
             | Some d =>
                 bool_decide (length (division_of_competition db d id) = 0%nat)
             | None => false
             end) = true ↔ ¬ valid_division db id division_id) as Hdiv.
    { unfold valid_division. destruct division_id as [d|].
      - rewrite bool_decide_eq_true, length_zero_iff_nil. split.
        + intros Hnil Hv. destruct (Hv d eq_refl) as (dv & ? & ? & ?).
          assert (dv ∈ division_of_competition db d id) as Hin
            by (by apply list_elem_of_filter).
          rewrite Hnil in Hin. by apply elem_of_nil in Hin.
        + intros Hno.
          destruct (division_of_competition db d id) as [|dv dvs] eqn:Edv;
            [done|].
          destruct Hno. intros d' [= <-].
          assert (dv ∈ division_of_competition db d id) as Hin
            by (rewrite Edv; left).
          apply list_elem_of_filter in Hin as [[? ?] ?]. by exists dv.
      - split; [done|]. intros Hno. by destruct Hno. }
    destruct (CompetitionAccess.starts_at c) as [starts_at|] eqn:Est.
    + case_bool_decide as Hst.
      * split; [done|]. intros (_ & [_ Ho] & _).
        specialize (Ho _ eq_refl). lia.
      * destruct (match division_id with Some _ => _ | None => _ end).
        -- split; [|done]. intros _. split; [done|].
           split; [|by apply Hdiv].
           split; [done|]. intros t [= <-]. lia.
        -- split; [by case_decide|]. intros (_ & _ & Hno).
           by apply Hdiv in Hno.
    + destruct (match division_id with Some _ => _ | None => _ end).
      * split; [|done]. intros _. split; [done|].
        split; [|by apply Hdiv]. done.
      * split; [by case_decide|]. intros (_ & _ & Hno).
        by apply Hdiv in Hno.
Qed.

Lemma post_competition_join_answers_witness :
  (post_competition_join sample_access sample_db 1000 (Some 4%N) 10%N
     (Some 20%N)).2 = Http.Forbidden
  ↔ is_Some (Some 4%N)
    ∧ ¬ registration_open (CompetitionAccess.mk 10 true (Some 1000) (Some 1%N))
          1000.
Proof.
  apply (post_competition_join_answers sample_access sample_db 1000
           (Some 4%N) 10%N (Some 20%N)
           (CompetitionAccess.mk 10 true (Some 1000) (Some 1%N))).
  - by_compute.
  - left.
  - reflexivity.
Defined.

(** ** Joining and the participant count *)

Lemma takes_part_join access db now userId id division_id db' cp d v :
  post_competition_join access db now (Some userId) id division_id
  = (db', Http.Ok cp) →
  takes_part db' id d v
  ↔ (v = userId ∧ division_id = Some d)
    ∨ (v ≠ userId ∧ registered_in_division db id d v)
    ∨ climbed_in_division db id d v.
Proof.
  intros (? & comp & comps & [= <-] & _ & _ & _ & _ & -> & ->)
           %post_competition_join_ok.
  unfold takes_part. rewrite registered_upsert_participant.
  change (climbed_in_division (set_competition_participants db ?l) id d v)
    with (climbed_in_division db id d v).
  split.
  - intros [[(_ & ? & ?)|[[?|?] ?]]|?]; [by left|done|right; by left|].
    right. by right.
  - intros [[? ?]|[[? ?]|?]]; [left; by left| |by right].
    left. right. split; [by right|done].
Qed.

(** X13: joining and the participant counts of the competition. The division
    joined counts the caller from then on: its count grows by one unless
    they took part in it already. A division they were registered in before,
    and are not any more, loses them, unless they have an ascent on one of
    its problems; no other count changes. *)
Theorem post_competition_join_participant_count access db now userId id
    division_id db' cp d :
  post_competition_join access db now (Some userId) id division_id
  = (db', Http.Ok cp) →
  (division_id = Some d → ¬ takes_part db id d userId →
   participant_count db' id d = participant_count db id d + 1)
  ∧ (division_id = Some d → takes_part db id d userId →
     participant_count db' id d = participant_count db id d)
  ∧ (division_id ≠ Some d → registered_in_division db id d userId →
     ¬ climbed_in_division db id d userId →
     participant_count db' id d = participant_count db id d - 1)
  ∧ (division_id ≠ Some d →
     ¬ registered_in_division db id d userId
     ∨ climbed_in_division db id d userId →
     participant_count db' id d = participant_count db id d).
Proof.
  intros Hok. destruct (takes_part_set db id d) as [S HS].
  rewrite (participant_count_takes_part db id d S HS).
  pose proof (λ v, takes_part_join _ _ _ _ _ _ _ _ d v Hok) as Hjoin.
  split_and!.
  - intros Hd Hno.
    rewrite (participant_count_takes_part _ id d (S ∪ {[userId]})).
    + rewrite size_union, size_singleton; [lia|].
      apply disjoint_singleton_r. by rewrite HS.
    + intros v. rewrite Hjoin, elem_of_union, HS, elem_of_singleton.
      unfold takes_part in *.
      destruct (decide (v = userId)) as [->|Hne]; intuition congruence.
  - intros Hd Hyes. apply participant_count_takes_part.
    intros v. rewrite Hjoin, HS. unfold takes_part in *.
    destruct (decide (v = userId)) as [->|Hne]; intuition congruence.
  - intros Hd Hreg Hno.
    rewrite (participant_count_takes_part _ id d (S ∖ {[userId]})).
    + assert ({[userId]} ⊆ S) as Hsub
        by (apply singleton_subseteq_l, HS; by left).
      rewrite size_difference by done.
      apply subseteq_size in Hsub. rewrite size_singleton in *. lia.
    + intros v. rewrite Hjoin, elem_of_difference, HS, elem_of_singleton.
      unfold takes_part in *.
      destruct (decide (v = userId)) as [->|Hne]; intuition congruence.
  - intros Hd Hor. apply participant_count_takes_part.
    intros v. rewrite Hjoin, HS. unfold takes_part in *.
    destruct (decide (v = userId)) as [->|Hne]; intuition congruence.
Qed.

Lemma post_competition_join_participant_count_witness :
  participant_count sample_db 10 21 = 1
  ∧ participant_count
      (post_competition_join sample_access sample_db 0 (Some 4%N) 10%N
         (Some 20%N)).1 10 21
    = 1 - 1.
Proof.
  split; [vm_compute; reflexivity|].
  apply (post_competition_join_participant_count sample_access sample_db 0
           4%N 10%N (Some 20%N)
           (post_competition_join sample_access sample_db 0 (Some 4%N) 10%N
              (Some 20%N)).1
           (Participant.mk 10 4 (Some 20%N)) 21%N).
  - vm_compute. reflexivity.
  - done.
  - exists (Participant.mk 10 4 (Some 21%N)). split_and!; [|done..].
    right. left.
  - intros (p & a & _ & Ha & _ & Hu & _). revert a Ha Hu.
    apply (list.Forall_forall (λ a, Ascent.user_id a = 4%N → False)).
    repeat constructor; simpl; congruence.
Defined.

(** * The division list and the report *)

(** With (competition_id, name) a key, restricting the divisions of a
    competition before or after [ORDER BY] gives the same list. *)
Lemma order_by_filter_divisions db id (P : Division.t → Prop)
    `{∀ d, Decision (P d)} :
  divisions_competition_id_name_key db →
  order_by summary_order
    (filter P (filter (λ d, Division.competition_id d = id) (divisions db)))
  = filter P
      (order_by summary_order
         (filter (λ d, Division.competition_id d = id) (divisions db))).
Proof.
  intros Hkey.
  apply (StronglySorted_unique_strong (cmp_le summary_order)).
  - intros d1 d2 Hd1 Hd2.
    apply (summary_order_antisym db db id); [done..| |].
    + rewrite (elem_of_order_by summary_order) in Hd1.
      by apply list_elem_of_filter in Hd1 as [_ ?].
    + apply list_elem_of_filter in Hd2 as [_ Hd2].
      by rewrite (elem_of_order_by summary_order) in Hd2.
  - apply (order_by_sorted summary_order).
  - apply StronglySorted_filter, (order_by_sorted summary_order).
  - by rewrite !(order_by_perm summary_order).
Qed.

(** X14: the report and the division list agree. With (competition_id, name)
    a key of [divisions], the divisions of a report are, by id and name and
    in this order, the answer of GET /api/competitions/:id/divisions, cut
    down to the division of the filter when one is given. *)
Theorem report_divisions_of_division_list db id division_id rep :
  divisions_competition_id_name_key db →
  competition_summary db id division_id = Report rep →
  report_label <$> CompetitionReport.divisions rep
  = division_label
      <$> filter (divisionFilterClause division_id)
            (get_competition_divisions db id).
Proof.
  intros Hkey (_ & _ & ->)%competition_summary_report.
  unfold summaries, get_competition_divisions.
  rewrite <-!list_fmap_compose.
  rewrite <-(order_by_filter_divisions db id) by done.
  rewrite list_filter_filter.
  assert (filter (λ d, divisionFilterClause division_id d
                       ∧ Division.competition_id d = id) (divisions db)
          = filter (λ d, Division.competition_id d = id
                         ∧ divisionFilterClause division_id d) (divisions db))
    as -> by (apply filter_ext_elem; tauto).
  by apply list_fmap_ext.
Qed.

Lemma report_divisions_of_division_list_witness :
  report_label <$> CompetitionReport.divisions spring_open_report
  = division_label
      <$> filter (divisionFilterClause (Some 20%N))
            (get_competition_divisions sample_db 10).
Proof.
  apply (report_divisions_of_division_list sample_db 10%N (Some 20%N)
           spring_open_report).
  - by_compute.
  - vm_compute. reflexivity.
Defined.

(** * The totals of a division and the tallies of its climbers *)

Lemma inner_join_row {A B} (on : A * B → Prop) `{∀ r, Decision (on r)}
    (x : A) (k : list B) :
  (k ≫= λ y, if decide (on (x, y)) then [(x, y)] else [])
  = (λ y, (x, y)) <$> filter (λ y, on (x, y)) k.
Proof.
  induction k as [|y k IH]; [done|].
  rewrite bind_cons, filter_cons, IH. by case_decide.
Qed.

Lemma inner_join_fmap_l {A A' B} (g : A → A') (on : A' * B → Prop)
    `{∀ r, Decision (on r)} (l : list A) (k : list B) :
  inner_join (g <$> l) k on
  = (λ r, (g r.1, r.2)) <$> inner_join l k (λ r, on (g r.1, r.2)).
Proof.
  unfold inner_join. induction l as [|x l IH]; [done|].
  rewrite fmap_cons, !bind_cons, fmap_app, IH. f_equal. clear IH.
  induction k as [|y k IH]; [done|].
  rewrite !bind_cons, fmap_app, IH. f_equal. simpl. by case_decide.
Qed.

(** A flag counted on a left join is counted on the inner join: a problem
    without ascents brings a row with no flag set. *)
Lemma filter_flag_left_join {A} (on : A * Ascent.t → Prop)
    `{∀ r, Decision (on r)} (Q : A → Prop) `{∀ x, Decision (Q x)}
    (f : Ascent.t → bool) (l : list A) (k : list Ascent.t) :
  filter (λ r, Q r.1 ∧ ascent_flag f r.2) (left_join l k on)
  = (λ r, (r.1, Some r.2))
      <$> filter (λ r, Q r.1 ∧ f r.2 = true) (inner_join l k on).
Proof.
  unfold left_join, inner_join. induction l as [|x l IH]; [done|].
  rewrite !bind_cons, !list.filter_app, fmap_app, IH. f_equal.
  rewrite (inner_join_row on x k). unfold left_join_row.
  destruct (filter (λ y, on (x, y)) k) as [|y ys]; [|generalize (y :: ys)].
  - rewrite filter_cons_False; [done|]. by intros [_ [=]].
  - clear. intros ys. rewrite !filter_fmap, <-list_fmap_compose. simpl.
    f_equal. apply filter_ext_elem. intros y _. unfold ascent_flag. simpl.
    split; intros [? E]; (split; [done|]); congruence.
Qed.

Lemma filter_key_NoDup {A K} `{EqDecision K} (f : A → K) (l : list A) x :
  NoDup (f <$> l) → x ∈ l → filter (λ y, f y = f x) l = [x].
Proof.
  induction l as [|y l IH]; [by intros _ ?%elem_of_nil|].
  csimpl. intros [Hy Hl]%list.NoDup_cons [->|Hx]%elem_of_cons.
  - rewrite filter_cons_True by done. f_equal. apply filter_nil_elem.
    intros z Hz E. destruct Hy. rewrite <-E. by apply list_elem_of_fmap_2.
  - rewrite filter_cons_False; [by apply IH|].
    intros E. destruct Hy. rewrite E. by apply list_elem_of_fmap_2.
Qed.

(** The problems of a division, as the procedure sees them. *)
Lemma division_problems_of_division db cid d :
  divisions_pkey db → d ∈ divisions db →
  filter (λ dp, DivisionProblem.division_id dp = Division.id d)
    (division_problems db cid)
  = (λ p, DivisionProblem.mk (Problem.id p) (Division.id d) (Division.name d))
      <$> filter (in_division cid (Division.id d)) (problems db).
Proof.
  intros Hpk Hd. unfold division_problems.
  rewrite filter_fmap, list_filter_filter. simpl.
  assert (filter (λ r : Problem.t * Division.t,
                    Division.id r.2 = Division.id d
                    ∧ Problem.competition_id r.1 = cid)
            (inner_join (problems db) (divisions db)
               (λ r, Problem.division_id r.1 = Some (Division.id r.2)))
          = inner_join (filter (λ p, Problem.competition_id p = cid) (problems db))
              (filter (λ d', Division.id d' = Division.id d) (divisions db))
              (λ r, Problem.division_id r.1 = Some (Division.id r.2))) as ->.
  { rewrite (inner_join_filter
               (λ r, Problem.division_id r.1 = Some (Division.id r.2))).
    apply filter_ext_elem. intros r _. tauto. }
  rewrite (filter_key_NoDup Division.id) by done.
  unfold inner_join.
  assert (∀ l : list Problem.t,
            (l ≫= λ x, [d] ≫= λ y,
               if decide (Problem.division_id x = Some (Division.id y))
               then [(x, y)] else [])
            = (λ p, (p, d))
                <$> filter (λ p, Problem.division_id p = Some (Division.id d)) l)
    as ->.
  { induction l as [|p l IH]; [done|].
    rewrite bind_cons, filter_cons, IH. csimpl. by case_decide. }
  rewrite <-list_fmap_compose, list_filter_filter. simpl.
  f_equal. apply filter_ext_elem. intros p _. unfold in_division. tauto.
Qed.

Lemma length_filter_split {A} (R S : A → Prop) `{∀ x, Decision (R x)}
    `{∀ x, Decision (S x)} (l : list A) :
  (length (filter R l)
   = length (filter (λ x, S x ∧ R x) l)
     + length (filter (λ x, ¬ S x ∧ R x) l))%nat.
Proof.
  induction l as [|x l IH]; [done|]. rewrite !filter_cons.
  destruct (decide (R x)), (decide (S x)).
  - rewrite decide_True, decide_False by tauto. simpl. lia.
  - rewrite decide_False, decide_True by tauto. simpl. lia.
  - rewrite !decide_False by tauto. done.
  - rewrite !decide_False by tauto. done.
Qed.

(** Grouping loses no row and counts none twice: the counts of the groups
    add up to the count of the whole. *)
Lemma group_by_count {A K} `{EqDecision K} (k : A → K)
    (P : K → Prop) `{∀ g, Decision (P g)}
    (Q : A → Prop) `{∀ x, Decision (Q x)} (G : list K) :
  NoDup G → ∀ l : list A, (∀ x, x ∈ l → k x ∈ G) →
  total ((λ g, Z.of_nat (length (filter Q (filter (λ x, k x = g) l))))
           <$> filter P G)
  = Z.of_nat (length (filter (λ x, P (k x) ∧ Q x) l)).
Proof.
  induction 1 as [|g G Hg HG IH]; intros l Hl.
  { destruct l as [|x l]; [done|].
    assert (k x ∈ @nil K) as Hx by (apply Hl; left).
    by apply elem_of_nil in Hx. }
  assert (total ((λ g', Z.of_nat (length (filter Q (filter (λ x, k x = g') l))))
                   <$> filter P G)
          = Z.of_nat (length (filter (λ x, k x ≠ g ∧ (P (k x) ∧ Q x)) l))) as E.
  { assert (filter (λ x, k x ≠ g ∧ (P (k x) ∧ Q x)) l
            = filter (λ x, P (k x) ∧ Q x) (filter (λ x, k x ≠ g) l)) as ->.
    { rewrite list_filter_filter. apply filter_ext_elem. intros x _. tauto. }
    rewrite <-(IH (filter (λ x, k x ≠ g) l)).
    - unfold total. f_equal. apply list_fmap_ext. intros i g' Hg'.
      apply list_elem_of_lookup_2, list_elem_of_filter in Hg' as [_ Hg'].
      do 3 f_equal. rewrite list_filter_filter. apply filter_ext_elem.
      intros x _. split; [|by intros [? _]]. intros ->. split; [done|].
      by intros ->.
    - intros x [Hne Hx]%list_elem_of_filter.
      specialize (Hl x Hx).
      apply elem_of_cons in Hl as [Hxg|?]; [by destruct Hne|done]. }
  rewrite (length_filter_split (λ x, P (k x) ∧ Q x) (λ x, k x = g)).
  rewrite filter_cons. unfold total in *. case_decide as HP.
  - csimpl. rewrite E, list_filter_filter.
    assert (filter (λ x, Q x ∧ k x = g) l
            = filter (λ x, k x = g ∧ P (k x) ∧ Q x) l) as ->; [|lia].
    apply filter_ext_elem. intros x _. split; [|tauto].
    intros [? ->]. done.
  - rewrite E.
    assert (filter (λ x, k x = g ∧ P (k x) ∧ Q x) l = []) as ->; [|simpl; lia].
    apply filter_nil_elem. intros x _ (-> & ? & _). done.
Qed.

Section totals.
Context (db : Database) (cid : uuid) (d : Division.t).
Hypothesis Hdivisions : divisions_pkey db.
Hypothesis Hd : d ∈ divisions db.

(** The rows of [per_user] input that belong to the division, with a flag
    set, are as many as the flagged ascents on the problems of the
    division. *)
Lemma per_user_joined_flag (f : Ascent.t → bool) :
  length (filter (λ r, DivisionProblem.division_id r.1 = Division.id d
                       ∧ f r.2 = true) (per_user_joined db cid))
  = length (filter (λ r, in_division cid (Division.id d) r.1 ∧ f r.2 = true)
              (inner_join (problems db) (ascents db)
                 (λ r, Ascent.problem_id r.2 = Problem.id r.1))).
Proof.
  unfold per_user_joined.
  assert (filter (λ r, DivisionProblem.division_id r.1 = Division.id d
                       ∧ f r.2 = true)
            (inner_join (division_problems db cid) (ascents db)
               (λ r, Ascent.problem_id r.2 = DivisionProblem.problem_id r.1))
          = inner_join
              (filter (λ dp, DivisionProblem.division_id dp = Division.id d)
                 (division_problems db cid))
              (filter (λ a, f a = true) (ascents db))
              (λ r, Ascent.problem_id r.2 = DivisionProblem.problem_id r.1))
    as ->.
  { rewrite (inner_join_filter
               (λ r, Ascent.problem_id r.2 = DivisionProblem.problem_id r.1)).
    by apply filter_ext_elem. }
  assert (filter (λ r, in_division cid (Division.id d) r.1 ∧ f r.2 = true)
            (inner_join (problems db) (ascents db)
               (λ r, Ascent.problem_id r.2 = Problem.id r.1))
          = inner_join (filter (in_division cid (Division.id d)) (problems db))
              (filter (λ a, f a = true) (ascents db))
              (λ r, Ascent.problem_id r.2 = Problem.id r.1)) as ->.
  { rewrite (inner_join_filter (λ r, Ascent.problem_id r.2 = Problem.id r.1)).
    by apply filter_ext_elem. }
  rewrite division_problems_of_division by done.
  rewrite (inner_join_fmap_l
             (λ p, DivisionProblem.mk (Problem.id p) (Division.id d)
                     (Division.name d))
             (λ r, Ascent.problem_id r.2 = DivisionProblem.problem_id r.1)).
  by rewrite length_fmap.
Qed.

Lemma division_flag_total (f : Ascent.t → bool) :
  total ((λ g, count (filter (λ r, f r.2 = true)
                        (filter (λ r, per_user_group r = g)
                           (per_user_joined db cid))))
           <$> filter (λ g, g.1.1 = Division.id d)
                 (remove_dups (per_user_group <$> per_user_joined db cid)))
  = count (filter (λ r, in_division cid (Division.id d) r.1
                        ∧ ascent_flag f r.2)
             (left_join (problems db) (ascents db)
                (λ r, Ascent.problem_id r.2 = Problem.id r.1))).
Proof.
  unfold count.
  rewrite (group_by_count per_user_group (λ g, g.1.1 = Division.id d)
             (λ r, f r.2 = true)).
  - rewrite (filter_flag_left_join
               (λ r, Ascent.problem_id r.2 = Problem.id r.1)
               (in_division cid (Division.id d)) f).
    rewrite length_fmap. f_equal. apply per_user_joined_flag.
  - apply NoDup_remove_dups.
  - intros r Hr. apply elem_of_remove_dups. by apply list_elem_of_fmap_2.
Qed.
End totals.

(** X15: the summary and the procedure agree on the totals. With the
    primary key of [divisions], the total_tops of a division in the summary
    is the sum of the total_tops of the tallies of all its climbers (those
    beyond the podium too), and likewise for total_zones, although the two
    are computed by different queries. *)
Theorem division_totals_are_sums_of_tallies db cid d :
  divisions_pkey db → d ∈ divisions db →
  total_tops db cid (Division.id d)
  = total (PerUser.total_tops
             <$> filter (λ t, PerUser.division_id t = Division.id d)
                   (per_user db cid))
  ∧ total_zones db cid (Division.id d)
    = total (PerUser.total_zones
               <$> filter (λ t, PerUser.division_id t = Division.id d)
                     (per_user db cid)).
Proof.
  intros Hpk Hd. unfold total_tops, total_zones, per_user, coalesce, scalar.
  simpl. rewrite filter_fmap, <-!list_fmap_compose. simpl.
  rewrite <-(division_flag_total db cid d Hpk Hd Ascent.topped).
  rewrite <-(division_flag_total db cid d Hpk Hd Ascent.zone).
  done.
Qed.

Lemma division_totals_are_sums_of_tallies_witness :
  5 = total (PerUser.total_tops
               <$> filter (λ t, PerUser.division_id t = 20%N)
                     (per_user sample_db 10))
  ∧ 3 = total (PerUser.total_zones
                 <$> filter (λ t, PerUser.division_id t = 20%N)
                       (per_user sample_db 10)).
Proof.
  apply (division_totals_are_sums_of_tallies sample_db 10%N
           (Division.mk 20 10 "Open" None)).
  - by_compute.
  - left.
Defined.

(** * Deleting a division *)

Lemma division_of_competition_nonempty db id divisionId :
  division_of_competition db divisionId id ≠ []
  ↔ division_in_competition db id divisionId.
Proof.
  unfold division_in_competition, division_of_competition. split.
  - intros Hne. destruct (filter _ (divisions db)) as [|dv dvs] eqn:E; [done|].
    assert (dv ∈ filter (λ d, Division.id d = divisionId
                              ∧ Division.competition_id d = id) (divisions db))
      as Hin by (rewrite E; left).
    apply list_elem_of_filter in Hin as [[? ?] ?]. by exists dv.
  - intros (dv & Hdv & ? & ?) E.
    assert (dv ∈ filter (λ d, Division.id d = divisionId
                              ∧ Division.competition_id d = id) (divisions db))
      as Hin by (by apply list_elem_of_filter).
    rewrite E in Hin. by apply elem_of_nil in Hin.
Qed.

Lemma registered_count db id divisionId :
  0 < count (filter (λ cp, Participant.competition_id cp = id
                           ∧ Participant.division_id cp = Some divisionId)
               (competition_participants db))
  ↔ ∃ v, registered_in_division db id divisionId v.
Proof.
  unfold count, registered_in_division. split.
  - destruct (filter _ (competition_participants db)) as [|cp cps] eqn:E;
      [simpl; lia|]. intros _.
    assert (cp ∈ filter (λ cp, Participant.competition_id cp = id
                               ∧ Participant.division_id cp = Some divisionId)
              (competition_participants db)) as Hin by (rewrite E; left).
    apply list_elem_of_filter in Hin as [[? ?] ?].
    by exists (Participant.user_id cp), cp.
  - intros (v & cp & Hcp & _ & ? & ?).
    destruct (filter _ (competition_participants db)) as [|cp' cps] eqn:E;
      [|simpl; lia].
    assert (cp ∈ filter (λ cp, Participant.competition_id cp = id
                               ∧ Participant.division_id cp = Some divisionId)
              (competition_participants db)) as Hin
      by (by apply list_elem_of_filter).
    rewrite E in Hin. by apply elem_of_nil in Hin.
Qed.

Lemma delete_from_divisions_deleted db id divisionId :
  division_in_competition db id divisionId →
  delete_from_divisions db divisionId id
  = {| users := users db;
       competitions := competitions db;
       divisions :=
         filter (λ d, ¬ (Division.id d = divisionId
                         ∧ Division.competition_id d = id))
           (divisions db);
       competition_participants :=
         participant_set_null divisionId <$> competition_participants db;
       problems := problem_set_null divisionId <$> problems db;
       ascents := ascents db |}.
Proof.
  intros Hin%division_of_competition_nonempty. unfold delete_from_divisions.
  by destruct (division_of_competition db divisionId id).
Qed.

Lemma delete_competition_division_ok access db user id divisionId db' :
  delete_competition_division access db user id divisionId = (db', Http.Ok ())
  ↔ ∃ userId comp comps,
      user = Some userId
      ∧ filter (λ c, CompetitionAccess.id c = id) access = comp :: comps
      ∧ CompetitionAccess.created_by comp = Some userId
      ∧ division_in_competition db id divisionId
      ∧ (¬ ∃ v, registered_in_division db id divisionId v)
      ∧ db' = delete_from_divisions db divisionId id.
Proof.
  unfold delete_competition_division. destruct user as [userId|].
  2: { split; [done|]. by intros (? & ? & ? & ? & _). }
  destruct (filter _ access) as [|comp comps] eqn:E.
  { split; [done|]. by intros (? & ? & ? & _ & ? & _). }
  case_decide as Hown.
  2: { split; [done|]. by intros (? & ? & ? & [= <-] & [= <- <-] & ? & _). }
  case_bool_decide as Hdiv.
  { split; [done|]. intros (? & ? & ? & _ & _ & _ & Hin & _).
    apply division_of_competition_nonempty in Hin. destruct Hin.
    by apply length_zero_iff_nil in Hdiv. }
  case_bool_decide as Hcount.
  { split; [done|]. intros (? & ? & ? & _ & _ & _ & _ & Hno & _).
    destruct Hno. by apply registered_count. }
  split.
  - intros [= <-]. exists userId, comp, comps. split_and!; try done.
    + apply division_of_competition_nonempty. intros Hnil. apply Hdiv.
      by rewrite Hnil.
    + by rewrite <-registered_count.
  - by intros (? & ? & ? & _ & _ & _ & _ & _ & ->).
Qed.

Lemma delete_competition_division_refused access db user id divisionId :
  (delete_competition_division access db user id divisionId).2 ≠ Http.Ok () →
  (delete_competition_division access db user id divisionId).1 = db.
Proof.
  unfold delete_competition_division. destruct user as [userId|]; [|done].
  destruct (filter _ access); [done|]. case_decide; [|done].
  case_bool_decide; [done|]. by case_bool_decide.
Qed.

(** X16: who may delete a division. For a stored competition (under its
    primary key) the answer is 204 exactly when the caller created the
    competition, the division is one of this competition and nobody is
    registered in it; with somebody registered in it the answer is 400, for
    a division that is not one of this competition 404, and for any other
    caller 403. Every answer but 204 leaves the database as it was. A
    climber who has ascents in the division but never joined does not stand
    in the way. *)
Theorem delete_competition_division_answers access db user id divisionId c :
  competitions_pkey access → c ∈ access → CompetitionAccess.id c = id →
  let r := delete_competition_division access db user id divisionId in
  (r.2 = Http.Ok ()
   ↔ ∃ userId, user = Some userId
               ∧ CompetitionAccess.created_by c = Some userId
               ∧ division_in_competition db id divisionId
               ∧ ¬ ∃ v, registered_in_division db id divisionId v)
  ∧ (r.2 = Http.BadRequest
     ↔ ∃ userId, user = Some userId
                 ∧ CompetitionAccess.created_by c = Some userId
                 ∧ division_in_competition db id divisionId
                 ∧ ∃ v, registered_in_division db id divisionId v)
  ∧ (r.2 = Http.NotFound
     ↔ ∃ userId, user = Some userId
                 ∧ CompetitionAccess.created_by c = Some userId
                 ∧ ¬ division_in_competition db id divisionId)
  ∧ (r.2 = Http.Forbidden
     ↔ ∃ userId, user = Some userId
                 ∧ CompetitionAccess.created_by c ≠ Some userId)
  ∧ (r.2 ≠ Http.Ok () → r.1 = db).
Proof.
  intros Hpk Hc Hid. simpl.
  assert (∃ comps, filter (λ c, CompetitionAccess.id c = id) access = c :: comps)
    as [comps Ec].
  { destruct (filter _ access) as [|c' comps] eqn:E.
    - by destruct (filter_nil_not_elem_of _ _ c E).
    - exists comps. f_equal.
      assert (c' ∈ filter (λ c, CompetitionAccess.id c = id) access) as Hc'
        by (rewrite E; left).
      apply list_elem_of_filter in Hc' as [? ?].
      apply (NoDup_fmap_elem_inj CompetitionAccess.id access);
        [exact Hpk|done|done|congruence]. }
  pose proof (division_of_competition_nonempty db id divisionId) as Hdiv.
  pose proof (registered_count db id divisionId) as Hreg.
  unfold delete_competition_division.
  destruct user as [userId|].
  2: { split_and!; try done; split; try done; by intros (? & [=] & _). }
  rewrite Ec.
  destruct (decide (CompetitionAccess.created_by c = Some userId))
    as [Hown|Hown].
  2: { simpl. split_and!; try done.
       - split; [done|]. by intros (? & [= <-] & ? & _).
       - split; [done|]. by intros (? & [= <-] & ? & _).
       - split; [done|]. by intros (? & [= <-] & ? & _).
       - split; [|done]. intros _. by exists userId. }
  case_bool_decide as Hnil; rewrite length_zero_iff_nil in Hnil.
  { simpl. split_and!; try done.
    - split; [done|]. intros (? & _ & _ & Hin & _). by apply Hdiv in Hin.
    - split; [done|]. intros (? & _ & _ & Hin & _). by apply Hdiv in Hin.
    - split; [|done]. intros _. exists userId. split_and!; [done..|].
      intros Hin. by apply Hdiv in Hin.
    - split; [done|]. by intros (? & [= <-] & ?). }
  apply Hdiv in Hnil.
  case_bool_decide as Hcount; simpl.
  - apply Hreg in Hcount. split_and!; try done.
    + split; [done|]. intros (? & _ & _ & _ & Hno). by destruct Hno.
    + split; [|done]. intros _. by exists userId.
    + split; [done|]. intros (? & _ & _ & Hno). by destruct Hno.
    + split; [done|]. by intros (? & [= <-] & ?).
  - rewrite Hreg in Hcount. split_and!; try done.
    + split; [|done]. intros _. by exists userId.
    + split; [done|]. by intros (? & _ & _ & _ & ?).
    + split; [done|]. intros (? & _ & _ & Hno). by destruct Hno.
    + split; [done|]. by intros (? & [= <-] & ?).
Qed.

Lemma delete_competition_division_answers_witness :
  (delete_competition_division sample_access sample_db (Some 1%N) 10%N 20%N).2
  = Http.BadRequest
  ↔ ∃ userId, Some 1%N = Some userId
              ∧ CompetitionAccess.created_by
                  (CompetitionAccess.mk 10 true (Some 1000) (Some 1%N))
                = Some userId
              ∧ division_in_competition sample_db 10 20
              ∧ ∃ v, registered_in_division sample_db 10 20 v.
Proof.
  apply (delete_competition_division_answers sample_access sample_db
           (Some 1%N) 10%N 20%N
           (CompetitionAccess.mk 10 true (Some 1000) (Some 1%N))).
  - by_compute.
  - left.
  - reflexivity.
Defined.

Lemma problem_set_null_id divisionId p :
  Problem.id (problem_set_null divisionId p) = Problem.id p.
Proof. unfold problem_set_null. by case_decide. Qed.

Lemma problem_set_null_division divisionId p x :
  Problem.division_id (problem_set_null divisionId p) = Some x
  ↔ Problem.division_id p = Some x ∧ x ≠ divisionId.
Proof.
  unfold problem_set_null. case_decide as E; simpl.
  - split; [done|]. intros [E' ?]. congruence.
  - split; [|by intros [? _]]. intros E'. split; [done|]. congruence.
Qed.

Lemma participant_set_null_division divisionId cp x :
  Participant.division_id (participant_set_null divisionId cp) = Some x
  ↔ Participant.division_id cp = Some x ∧ x ≠ divisionId.
Proof.
  unfold participant_set_null. case_decide as E; simpl.
  - split; [done|]. intros [E' ?]. congruence.
  - split; [|by intros [? _]]. intros E'. split; [done|]. congruence.
Qed.

(** X17: what deleting a division leaves behind. After a 204 the division is
    gone and no problem or participant refers to it, so the two foreign keys
    to [divisions] still hold. No problem and no ascent is lost: the problems
    of the division stay with their ascents, and (under the primary key of
    [problems]) each of them is then a problem without a division. Asking
    again gives 404. *)
Theorem delete_competition_division_cascade access db user id divisionId db' :
  division_fkeys db →
  delete_competition_division access db user id divisionId
  = (db', Http.Ok ()) →
  division_fkeys db'
  ∧ ¬ division_in_competition db' id divisionId
  ∧ (∀ p, p ∈ problems db' → Problem.division_id p ≠ Some divisionId)
  ∧ (∀ cp, cp ∈ competition_participants db' →
           Participant.division_id cp ≠ Some divisionId)
  ∧ Problem.id <$> problems db' = Problem.id <$> problems db
  ∧ ascents db' = ascents db
  ∧ (problems_pkey db →
     ∀ p, p ∈ problems db → Problem.division_id p = Some divisionId →
          unassigned db' (Problem.id p))
  ∧ delete_competition_division access db' user id divisionId
    = (db', Http.NotFound).
Proof.
  intros [Hfp Hfc] Hok.
  pose proof Hok as (userId & comp & comps & -> & Ec & Hown & Hin & _ & ->)
                      %delete_competition_division_ok.
  clear Hok. rewrite delete_from_divisions_deleted by done.
  assert (¬ division_in_competition
              {| users := users db;
                 competitions := competitions db;
                 divisions :=
                   filter (λ d, ¬ (Division.id d = divisionId
                                   ∧ Division.competition_id d = id))
                     (divisions db);
                 competition_participants :=
                   participant_set_null divisionId
                     <$> competition_participants db;
                 problems := problem_set_null divisionId <$> problems db;
                 ascents := ascents db |} id divisionId) as Hgone.
  { intros (dv & [Hno _]%list_elem_of_filter & ? & ?). by apply Hno. }
  simpl. split_and!; [|done| | | |done| |].
  - unfold division_fkeys. simpl. rewrite !list.Forall_forall in *. split.
    + intros p' (p & -> & Hp)%list_elem_of_fmap. unfold division_stored.
      destruct (Problem.division_id (problem_set_null divisionId p))
        as [x|] eqn:E; [|done].
      apply problem_set_null_division in E as [E Hne].
      specialize (Hfp p Hp). rewrite E in Hfp. simpl in Hfp.
      apply list.Exists_exists in Hfp as (d & Hd & Hx).
      apply list.Exists_exists. exists d. split; [|done].
      apply list_elem_of_filter. split; [|done]. intros [? _]. congruence.
    + intros cp' (cp & -> & Hcp)%list_elem_of_fmap. unfold division_stored.
      destruct (Participant.division_id (participant_set_null divisionId cp))
        as [x|] eqn:E; [|done].
      apply participant_set_null_division in E as [E Hne].
      specialize (Hfc cp Hcp). rewrite E in Hfc. simpl in Hfc.
      apply list.Exists_exists in Hfc as (d & Hd & Hx).
      apply list.Exists_exists. exists d. split; [|done].
      apply list_elem_of_filter. split; [|done]. intros [? _]. congruence.
  - intros p' (p & -> & Hp)%list_elem_of_fmap E.
    by apply problem_set_null_division in E as [_ ?].
  - intros cp' (cp & -> & Hcp)%list_elem_of_fmap E.
    by apply participant_set_null_division in E as [_ ?].
  - rewrite <-list_fmap_compose. apply list_fmap_ext. intros _ p _.
    apply problem_set_null_id.
  - intros Hpk p Hp Hdiv q. simpl.
    intros (q' & -> & Hq')%list_elem_of_fmap. rewrite problem_set_null_id.
    intros Hid.
    assert (q' = p) as ->.
    { apply (NoDup_fmap_elem_inj Problem.id (problems db));
        [exact Hpk|done..]. }
    unfold problem_set_null. by rewrite decide_True.
  - unfold delete_competition_division. rewrite Ec.
    rewrite decide_True by done. rewrite bool_decide_eq_true_2; [done|].
    apply length_zero_iff_nil.
    destruct (division_of_competition _ divisionId id) eqn:E; [done|].
    destruct Hgone. apply division_of_competition_nonempty. by rewrite E.
Qed.

Lemma delete_competition_division_cascade_witness :
  Problem.mk 33 10 (Some 21%N) ∈ problems sample_db
  ∧ (problems_pkey
       (post_competition_join sample_access sample_db 0 (Some 4%N) 10%N
          (Some 20%N)).1 →
     ∀ p, p ∈ problems
                (post_competition_join sample_access sample_db 0 (Some 4%N)
                   10%N (Some 20%N)).1 →
          Problem.division_id p = Some 21%N →
          unassigned
            (delete_competition_division sample_access
               (post_competition_join sample_access sample_db 0 (Some 4%N)
                  10%N (Some 20%N)).1 (Some 1%N) 10%N 21%N).1
            (Problem.id p)).
Proof.
  split; [by_compute|].
  apply (delete_competition_division_cascade sample_access
           (post_competition_join sample_access sample_db 0 (Some 4%N) 10%N
              (Some 20%N)).1 (Some 1%N) 10%N 21%N).
  - split; by_compute.
  - vm_compute. reflexivity.
Defined.

(** ** Deleting a division and the summary *)

Lemma filter_fmap_fix {A} (P : A → Prop) `{∀ x, Decision (P x)} (g : A → A)
    (l : list A) :
  (∀ x, P (g x) ↔ P x) → (∀ x, P x → g x = x) →
  filter P (g <$> l) = filter P l.
Proof.
  intros Hiff Hfix. induction l as [|x l IH]; [done|]. csimpl.
  rewrite !filter_cons, IH. destruct (decide (P x)) as [HP|HP].
  - rewrite decide_True by by apply Hiff. by rewrite Hfix.
  - rewrite decide_False; [done|]. by rewrite Hiff.
Qed.

Lemma inner_join_ext {A B} (on on' : A * B → Prop) `{∀ r, Decision (on r)}
    `{∀ r, Decision (on' r)} (l : list A) (k : list B) :
  (∀ r, on r ↔ on' r) → inner_join l k on = inner_join l k on'.
Proof.
  intros Hiff. unfold inner_join. apply bind_ext_elem. intros x _.
  apply bind_ext_elem. intros y _.
  destruct (decide (on (x, y))) as [Hon|Hon].
  - rewrite decide_True; [done|]. by apply Hiff.
  - rewrite decide_False; [done|]. by rewrite <-Hiff.
Qed.

Section division_set_null.
Context (db : Database) (divisionId cid did : uuid).
Hypothesis Hne : did ≠ divisionId.

Lemma in_division_set_null p :
  in_division cid did (problem_set_null divisionId p) ↔ in_division cid did p.
Proof.
  unfold in_division, problem_set_null. case_decide as E; simpl; [|done].
  split; [by intros [_ ?]|]. intros [_ E']. congruence.
Qed.

Lemma in_division_set_null_fix p :
  in_division cid did p → problem_set_null divisionId p = p.
Proof.
  intros [_ E]. unfold problem_set_null. rewrite decide_False; [done|].
  congruence.
Qed.

Lemma filter_problems_set_null :
  filter (in_division cid did) (problem_set_null divisionId <$> problems db)
  = filter (in_division cid did) (problems db).
Proof.
  apply filter_fmap_fix;
    [apply in_division_set_null|apply in_division_set_null_fix].
Qed.

Lemma filter_participants_set_null :
  filter (λ cp, Participant.competition_id cp = cid
                ∧ Participant.division_id cp = Some did)
    (participant_set_null divisionId <$> competition_participants db)
  = filter (λ cp, Participant.competition_id cp = cid
                  ∧ Participant.division_id cp = Some did)
      (competition_participants db).
Proof.
  apply (filter_fmap_fix
           (λ cp, Participant.competition_id cp = cid
                  ∧ Participant.division_id cp = Some did)).
  - intros cp. unfold participant_set_null. case_decide as E; simpl; [|done].
    split; [by intros [_ ?]|]. intros [_ E']. congruence.
  - intros cp [_ E]. unfold participant_set_null.
    rewrite decide_False; [done|]. congruence.
Qed.

(** The joined rows of the problems of another division are as before. *)
Lemma filter_join_set_null (R : Problem.t * Ascent.t → Prop)
    `{∀ r, Decision (R r)} :
  (∀ p a, R (problem_set_null divisionId p, a) ↔ R (p, a)) →
  (∀ p a, R (p, a) → in_division cid did p) →
  filter R
    (inner_join (problem_set_null divisionId <$> problems db) (ascents db)
       (λ r, Ascent.problem_id r.2 = Problem.id r.1))
  = filter R
      (inner_join (problems db) (ascents db)
         (λ r, Ascent.problem_id r.2 = Problem.id r.1)).
Proof.
  intros Hiff Hdiv.
  rewrite (inner_join_fmap_l (problem_set_null divisionId)
             (λ r, Ascent.problem_id r.2 = Problem.id r.1)).
  rewrite (inner_join_ext
             (λ r : Problem.t * Ascent.t,
                Ascent.problem_id r.2
                = Problem.id (problem_set_null divisionId r.1, r.2).1)
             (λ r, Ascent.problem_id r.2 = Problem.id r.1))
    by (intros r; simpl; by rewrite problem_set_null_id).
  apply (filter_fmap_fix R).
  - intros [p a]. simpl. apply Hiff.
  - intros [p a] Hp. simpl in *.
    by rewrite in_division_set_null_fix by by eapply Hdiv.
Qed.
End division_set_null.

Lemma summary_row_set_null db divisionId id d :
  division_in_competition db id divisionId →
  Division.id d ≠ divisionId →
  summary_row (delete_from_divisions db divisionId id) id d
  = summary_row db id d.
Proof.
  intros Hin Hne. rewrite delete_from_divisions_deleted by done.
  unfold summary_row, participant_count, problem_count, total_tops,
    total_zones. simpl.
  rewrite filter_participants_set_null by done.
  rewrite filter_problems_set_null by done.
  rewrite !(filter_flag_left_join
              (λ r, Ascent.problem_id r.2 = Problem.id r.1)).
  f_equal.
  - do 3 f_equal.
    apply (filter_join_set_null db divisionId id (Division.id d) Hne
             (λ r, in_division id (Division.id d) r.1)).
    + intros p a. simpl. by apply in_division_set_null.
    + by intros p a.
  - do 2 f_equal.
    apply (filter_join_set_null db divisionId id (Division.id d) Hne
             (λ r, in_division id (Division.id d) r.1
                   ∧ Ascent.topped r.2 = true)).
    + intros p a. simpl. by rewrite in_division_set_null.
    + by intros p a [? _].
  - do 2 f_equal.
    apply (filter_join_set_null db divisionId id (Division.id d) Hne
             (λ r, in_division id (Division.id d) r.1
                   ∧ Ascent.zone r.2 = true)).
    + intros p a. simpl. by rewrite in_division_set_null.
    + by intros p a [? _].
Qed.

(** X18: deleting a division and the summary. With (competition_id, name) a
    key of [divisions], after a 204 the summary of the competition, with or
    without a division filter, is the summary of before without the row of
    the deleted division: the other divisions come in the same order, each
    with the same participant count, problem count and totals. *)
Theorem delete_competition_division_summaries access db user id divisionId
    db' division_id :
  divisions_competition_id_name_key db →
  delete_competition_division access db user id divisionId
  = (db', Http.Ok ()) →
  summaries db' id division_id
  = filter (λ s, DivisionSummaryRow.division_id s ≠ divisionId)
      (summaries db id division_id).
Proof.
  intros Hkey (userId & comp & comps & -> & _ & _ & Hin & _ & ->)
                %delete_competition_division_ok.
  unfold summaries. rewrite filter_fmap. simpl.
  assert (order_by summary_order
            (filter (λ d, Division.competition_id d = id
                          ∧ divisionFilterClause division_id d)
               (divisions (delete_from_divisions db divisionId id)))
          = filter (λ d, Division.id d ≠ divisionId)
              (order_by summary_order
                 (filter (λ d, Division.competition_id d = id
                               ∧ divisionFilterClause division_id d)
                    (divisions db)))) as ->.
  { rewrite delete_from_divisions_deleted by done. simpl.
    rewrite list_filter_filter.
    rewrite (filter_ext_elem
               (λ d, (Division.competition_id d = id
                      ∧ divisionFilterClause division_id d)
                     ∧ ¬ (Division.id d = divisionId
                          ∧ Division.competition_id d = id))
               (λ d, (Division.id d ≠ divisionId
                      ∧ divisionFilterClause division_id d)
                     ∧ Division.competition_id d = id))
      by (intros; tauto).
    rewrite (filter_ext_elem
               (λ d, Division.competition_id d = id
                     ∧ divisionFilterClause division_id d)
               (λ d, divisionFilterClause division_id d
                     ∧ Division.competition_id d = id) (divisions db))
      by (intros; tauto).
    rewrite <-!list_filter_filter.
    rewrite (order_by_filter_divisions db id (divisionFilterClause division_id))
      by done.
    rewrite !(list_filter_filter (λ d, Division.id d ≠ divisionId)
                (divisionFilterClause division_id)).
    by rewrite (order_by_filter_divisions db id). }
  apply list_fmap_ext. intros i d Hd.
  apply list_elem_of_lookup_2, list_elem_of_filter in Hd as [Hne _].
  by apply summary_row_set_null.
Qed.

Lemma delete_competition_division_summaries_witness :
  summaries
    (delete_competition_division sample_access sample_db (Some 1%N)
       10%N 23%N).1 10 None
  = filter (λ s, DivisionSummaryRow.division_id s ≠ 23%N)
      (summaries sample_db 10 None).
Proof.
  apply (delete_competition_division_summaries sample_access sample_db
           (Some 1%N) 10%N 23%N
           (delete_competition_division sample_access sample_db (Some 1%N)
              10%N 23%N).1 None).
  - by_compute.
  - vm_compute. reflexivity.
Defined.

(** * More on the report *)

(** X19: a filtered report is the whole report cut down to one division.
    With (competition_id, name) a key of [divisions], the report asked for
    with a division filter names the same competition as the report without
    one, and its divisions are those of the whole report with that id, with
    the same counts, totals and podium. *)
Theorem filtered_report_is_restriction db id f rep rep_f :
  divisions_competition_id_name_key db →
  competition_summary db id None = Report rep →
  competition_summary db id (Some f) = Report rep_f →
  CompetitionReport.competition rep_f = CompetitionReport.competition rep
  ∧ CompetitionReport.divisions rep_f
    = filter (λ dr, DivisionReport.division_id dr = f)
        (CompetitionReport.divisions rep).
Proof.
  intros Hkey.
  unfold competition_summary, podiumRows, competition_division_podiums.
  destruct (filter _ (competitions db)) as [|comp comps]; [done|].
  case_decide; [|done]. simpl.
  intros [= <-] [= <-]. simpl. split; [done|].
  unfold summaries, podium_filter.
  rewrite !filter_fmap, <-!list_fmap_compose. simpl.
  rewrite (filter_ext_elem
             (λ d, Division.competition_id d = id ∧ Division.id d = f)
             (λ d, Division.id d = f ∧ Division.competition_id d = id))
    by (intros; tauto).
  rewrite (filter_ext_elem
             (λ d, Division.competition_id d = id ∧ True)
             (λ d, Division.competition_id d = id)) by (intros; tauto).
  rewrite <-list_filter_filter.
  rewrite (order_by_filter_divisions db id (λ d, Division.id d = f)) by done.
  apply list_fmap_ext. intros i d Hd.
  apply list_elem_of_lookup_2, list_elem_of_filter in Hd as [Hd _].
  unfold division_report. simpl. do 2 f_equal.
  rewrite list_filter_filter. apply filter_ext_elem. intros p _.
  split; [by intros [? _]|]. intros E. split; congruence.
Qed.

Lemma filtered_report_is_restriction_witness :
  CompetitionReport.competition spring_open_report
  = CompetitionReport.competition spring_report
  ∧ CompetitionReport.divisions spring_open_report
    = filter (λ dr, DivisionReport.division_id dr = 20%N)
        (CompetitionReport.divisions spring_report).
Proof.
  apply (filtered_report_is_restriction sample_db 10%N 20%N spring_report
           spring_open_report).
  - by_compute.
  - vm_compute. reflexivity.
  - vm_compute. reflexivity.
Defined.

(** ** Ranks without gaps *)

Lemma dense_rank_from_gapless {A} (cmp : A → A → comparison) prev r l x rx :
  (x, rx) ∈ dense_rank_from cmp prev r l →
  r ≤ rx ∧ ∀ j, r < j ≤ rx → ∃ y, (y, j) ∈ dense_rank_from cmp prev r l.
Proof.
  revert prev r x rx. induction l as [|y l IH]; intros prev r x rx; simpl;
    [by intros ?%elem_of_nil|].
  set (r' := if decide (cmp prev y = Eq) then r else r + 1).
  assert (r ≤ r' ≤ r + 1) as Hr' by (unfold r'; case_decide; lia).
  intros [[= -> ->]|Hin]%elem_of_cons.
  - split; [lia|]. intros j Hj. exists y.
    assert (j = r') as -> by lia. left.
  - apply IH in Hin as [Hle Hgap]. split; [lia|]. intros j Hj.
    destruct (decide (j ≤ r')) as [Hjr|Hjr].
    + exists y. assert (j = r') as -> by lia. left.
    + destruct (Hgap j) as [z Hz]; [lia|]. exists z. by right.
Qed.

Lemma dense_rank_gapless {A} (cmp : A → A → comparison) l x rx :
  (x, rx) ∈ dense_rank cmp l →
  1 ≤ rx ∧ ∀ j, 1 ≤ j ≤ rx → ∃ y, (y, j) ∈ dense_rank cmp l.
Proof.
  destruct l as [|y l]; simpl; [by intros ?%elem_of_nil|].
  intros [[= -> ->]|Hin]%elem_of_cons.
  - split; [lia|]. intros j Hj. exists y. assert (j = 1) as -> by lia. left.
  - apply dense_rank_from_gapless in Hin as [Hle Hgap]. split; [lia|].
    intros j Hj. destruct (decide (j = 1)) as [->|Hne].
    + exists y. by left.
    + destruct (Hgap j) as [z Hz]; [lia|]. exists z. by right.
Qed.

Lemma dense_rank_over_gapless {A P} `{EqDecision P} (part : A → P)
    (cmp : A → A → comparison) `{!CmpOrder cmp} rows x rx :
  (x, rx) ∈ dense_rank_over part cmp rows →
  1 ≤ rx
  ∧ ∀ j, 1 ≤ j ≤ rx →
         ∃ y, part y = part x ∧ (y, j) ∈ dense_rank_over part cmp rows.
Proof.
  intros [Hx Hin]%elem_of_dense_rank_over.
  apply dense_rank_gapless in Hin as [Hle Hgap]. split; [done|].
  intros j Hj. destruct (Hgap j Hj) as [y Hy]. exists y.
  assert (y ∈ filter (λ z, part z = part x) rows) as [Hp Hyr]%list_elem_of_filter.
  { rewrite <-(elem_of_order_by cmp), <-(dense_rank_fst cmp (order_by _ _)).
    by apply (list_elem_of_fmap_2 fst) in Hy. }
  split; [done|]. apply elem_of_dense_rank_over. split; [done|].
  by rewrite Hp.
Qed.

(** X20: the ranks of a podium have no gap. Every standing of a podium has a
    rank from 1 to 3, and every rank below it is the rank of a standing of
    the same podium: a podium that is not empty starts at rank 1, and rank 3
    never comes without rank 2. *)
Theorem podium_ranks_have_no_gap db id division_id rep dr s :
  competition_summary db id division_id = Report rep →
  dr ∈ CompetitionReport.divisions rep →
  s ∈ DivisionReport.podium dr →
  1 ≤ Standing.rank s ≤ 3
  ∧ ∀ j, 1 ≤ j ≤ Standing.rank s →
         ∃ s', s' ∈ DivisionReport.podium dr ∧ Standing.rank s' = j.
Proof.
  intros Hrep Hdr. rewrite (report_podium _ _ _ _ _ Hrep Hdr).
  intros (r & -> & [Hdiv Hr]%list_elem_of_filter)%list_elem_of_fmap.
  unfold podiums_select in *.
  rewrite (elem_of_order_by podiums_order) in Hr.
  apply list_elem_of_filter in Hr as [Hmax Hr].
  apply elem_of_ranked in Hr as (x & rx & -> & Hin).
  pose proof (dense_rank_over_gapless _ _ _ _ _ Hin) as [Hle Hgap].
  simpl in *. split; [lia|]. intros j Hj.
  destruct (Hgap j Hj) as (y & Hp & Hy).
  exists (standing (ranked_row id (y, j))). split; [|done].
  apply list_elem_of_fmap_2, list_elem_of_filter. split.
  { simpl. by rewrite Hp. }
  rewrite (elem_of_order_by podiums_order). apply list_elem_of_filter.
  split; [simpl; lia|]. apply elem_of_ranked. by exists y, j.
Qed.

Lemma podium_ranks_have_no_gap_witness :
  1 ≤ Standing.rank (standing carol_row) ≤ 3
  ∧ ∀ j, 1 ≤ j ≤ Standing.rank (standing carol_row) →
         ∃ s', s' ∈ DivisionReport.podium open_report ∧ Standing.rank s' = j.
Proof.
  apply (podium_ranks_have_no_gap sample_db 10%N None spring_report
           open_report (standing carol_row)).
  - vm_compute. reflexivity.
  - right. right. left.
  - right. right. left.
Defined.

(** ** The podium and the participant count *)

Lemma NoDup_dense_rank_over_fst {A P} `{EqDecision P} (part : A → P)
    (cmp : A → A → comparison) `{!CmpOrder cmp} (rows : list A) :
  NoDup rows → NoDup (dense_rank_over part cmp rows).*1.
Proof.
  intros Hrows. unfold dense_rank_over.
  assert (∀ l : list P,
            (l ≫= λ g, dense_rank cmp
                         (order_by cmp (filter (λ x, part x = g) rows))).*1
            = l ≫= λ g, order_by cmp (filter (λ x, part x = g) rows)) as ->.
  { induction l as [|g l IH]; [done|].
    by rewrite !bind_cons, fmap_app, IH, dense_rank_fst. }
  apply NoDup_bind.
  - intros g1 g2 x _ _ Hx1 Hx2.
    rewrite (elem_of_order_by cmp) in Hx1. rewrite (elem_of_order_by cmp) in Hx2.
    apply list_elem_of_filter in Hx1 as [<- _].
    by apply list_elem_of_filter in Hx2 as [<- _].
  - intros g _. rewrite (order_by_perm cmp). by apply list.NoDup_filter.
  - apply NoDup_remove_dups.
Qed.

Section podium_users.
Context (db : Database) (cid : uuid).
Hypothesis Hdivisions : divisions_pkey db.
Hypothesis Husers : users_pkey db.

(** With [divisions.id] a key, a division and a user have one tally. *)
Lemma per_user_unique t1 t2 :
  t1 ∈ per_user db cid → t2 ∈ per_user db cid →
  PerUser.division_id t1 = PerUser.division_id t2 →
  PerUser.user_id t1 = PerUser.user_id t2 → t1 = t2.
Proof.
  intros (r1 & Hr1 & ->)%elem_of_per_user (r2 & Hr2 & ->)%elem_of_per_user.
  simpl. intros Hd Hu. f_equal.
  assert (DivisionProblem.division_name r1.1 = DivisionProblem.division_name r2.1)
    as Hn.
  { apply elem_of_per_user_joined in Hr1 as (Hdp1 & _).
    apply elem_of_per_user_joined in Hr2 as (Hdp2 & _).
    apply elem_of_division_problems in Hdp1 as (p1 & d1 & _ & Hd1 & _ & _ & E1).
    apply elem_of_division_problems in Hdp2 as (p2 & d2 & _ & Hd2 & _ & _ & E2).
    rewrite E1, E2 in Hd |- *. simpl in *. f_equal.
    by apply (NoDup_fmap_elem_inj Division.id (divisions db)). }
  unfold per_user_group in *. simpl in *. by rewrite Hd, Hn, Hu.
Qed.

Lemma NoDup_per_user : NoDup (per_user db cid).
Proof.
  unfold per_user. apply NoDup_fmap_2_strong; [|apply NoDup_remove_dups].
  intros [[d1 n1] u1] [[d2 n2] u2] _ _ [= -> -> ->]. done.
Qed.

Lemma NoDup_ranked_joined : NoDup (ranked_joined db cid).
Proof.
  apply NoDup_inner_join; [apply NoDup_per_user|].
  by apply (NoDup_fmap_1 User.id).
Qed.

(** No user has two rows of [ranked] in a division. *)
Lemma NoDup_ranked_users did :
  NoDup (PodiumRow.user_id
           <$> filter (λ r, PodiumRow.division_id r = did) (ranked db cid)).
Proof.
  unfold ranked. rewrite filter_fmap, <-list_fmap_compose.
  assert ((PodiumRow.user_id ∘ ranked_row cid)
            <$> filter (λ x, PodiumRow.division_id (ranked_row cid x) = did)
                  (dense_rank_over (λ r, PerUser.division_id r.1) ranked_order
                     (ranked_joined db cid))
          = (λ x : PerUser.t * User.t, User.id x.2)
              <$> filter (λ x, PerUser.division_id x.1 = did)
                    (dense_rank_over (λ r, PerUser.division_id r.1)
                       ranked_order (ranked_joined db cid)).*1) as ->.
  { rewrite filter_fmap, <-list_fmap_compose. done. }
  apply NoDup_fmap_2_strong.
  - intros [t1 u1] [t2 u2] [Hd1 Hx1]%list_elem_of_filter
           [Hd2 Hx2]%list_elem_of_filter Hid. simpl in *.
    apply list_elem_of_fmap in Hx1 as ([[t1' u1'] k1] & [= <- <-] & Hx1).
    apply list_elem_of_fmap in Hx2 as ([[t2' u2'] k2] & [= <- <-] & Hx2).
    apply elem_of_dense_rank_over in Hx1 as [Hx1 _].
    apply elem_of_dense_rank_over in Hx2 as [Hx2 _].
    apply elem_of_inner_join in Hx1 as (Ht1 & Hu1 & Hon1).
    apply elem_of_inner_join in Hx2 as (Ht2 & Hu2 & Hon2).
    simpl in *. f_equal.
    + apply per_user_unique; [done..|congruence|congruence].
    + by apply (NoDup_fmap_elem_inj User.id (users db)).
  - apply list.NoDup_filter, NoDup_dense_rank_over_fst; [apply _|].
    apply NoDup_ranked_joined.
Qed.
End podium_users.

Lemma ranked_climbed db cid r :
  r ∈ ranked db cid →
  climbed_in_division db cid (PodiumRow.division_id r) (PodiumRow.user_id r).
Proof.
  intros (p & d & a & Hp & _ & Ha & Hc & Hpd & Hpa & Hrd & _ & Hu)%ranked_origin.
  exists p, a. split_and!; [done..|]. split; [done|]. by rewrite Hrd.
Qed.

(** X21: the podium and the participant count agree. Under the primary keys
    of [divisions] and [users], no climber stands twice on the podium of a
    division, every climber on it is one of the participants that the
    division counts, and so the podium is never longer than the participant
    count, although the two come from different queries. *)
Theorem podium_within_participant_count db id division_id rep dr :
  divisions_pkey db → users_pkey db →
  competition_summary db id division_id = Report rep →
  dr ∈ CompetitionReport.divisions rep →
  NoDup (Standing.user_id <$> DivisionReport.podium dr)
  ∧ (∀ s, s ∈ DivisionReport.podium dr →
          takes_part db id (DivisionReport.division_id dr) (Standing.user_id s))
  ∧ Z.of_nat (length (DivisionReport.podium dr))
    ≤ DivisionReport.participant_count dr.
Proof.
  intros Hdiv Husr Hrep Hdr.
  rewrite (report_podium _ _ _ _ _ Hrep Hdr).
  destruct (proj1 (elem_of_report_divisions _ _ _ _ dr Hrep) Hdr)
    as (d & _ & _ & _ & ->). simpl.
  set (rows := filter (λ p, PodiumRow.division_id p = Division.id d)
                 (podiums_select db id 3)).
  assert (NoDup (Standing.user_id <$> (standing <$> rows))) as Hnd.
  { rewrite <-list_fmap_compose.
    change (Standing.user_id ∘ standing) with PodiumRow.user_id.
    unfold rows, podiums_select.
    rewrite (order_by_perm podiums_order).
    rewrite list_filter_filter.
    rewrite (filter_ext_elem
               (λ r, PodiumRow.division_id r = Division.id d
                     ∧ PodiumRow.rank r ≤ 3)
               (λ r, PodiumRow.rank r ≤ 3
                     ∧ PodiumRow.division_id r = Division.id d))
      by (intros; tauto).
    rewrite <-list_filter_filter.
    eapply sublist_NoDup; [by apply (NoDup_ranked_users db id)|].
    apply fmap_sublist, sublist_filter. }
  assert (∀ s, s ∈ standing <$> rows →
               takes_part db id (Division.id d) (Standing.user_id s)) as Hin.
  { intros s (r & -> & [Hrd Hr]%list_elem_of_filter)%list_elem_of_fmap.
    unfold podiums_select in Hr.
    rewrite (elem_of_order_by podiums_order) in Hr.
    apply list_elem_of_filter in Hr as [_ Hr].
    right. simpl. rewrite <-Hrd. by apply ranked_climbed. }
  split_and!; [done..|].
  destruct (takes_part_set db id (Division.id d)) as [S HS].
  rewrite (participant_count_takes_part db id (Division.id d) S HS).
  apply inj_le.
  rewrite <-(length_fmap Standing.user_id),
    <-(size_list_to_set (C:=gset uuid)) by done.
  apply subseteq_size. intros u.
  rewrite elem_of_list_to_set, HS.
  intros (s & -> & Hs)%list_elem_of_fmap. by apply Hin.
Qed.

Lemma podium_within_participant_count_witness :
  Z.of_nat (length (DivisionReport.podium open_report))
  ≤ DivisionReport.participant_count open_report.
Proof.
  apply (podium_within_participant_count sample_db 10%N None spring_report
           open_report).
  - by_compute.
  - by_compute.
  - vm_compute. reflexivity.
  - right. right. left.
Defined.

(** * Logging an ascent and the totals of a division *)

Lemma inner_join_cons {A B} (on : A * B → Prop) `{∀ r, Decision (on r)}
    (x : A) (l : list A) (k : list B) :
  inner_join (x :: l) k on
  = ((λ y, (x, y)) <$> filter (λ y, on (x, y)) k) ++ inner_join l k on.
Proof.
  unfold inner_join. rewrite bind_cons. f_equal. apply (inner_join_row on).
Qed.

(** With a key on the left, a join has one row for each row of the right
    that finds its key. *)
Lemma length_inner_join_key {A B K} `{EqDecision K} (key : A → K) (kf : B → K)
    (l : list A) (k : list B) :
  NoDup (key <$> l) →
  length (inner_join l k (λ r, kf r.2 = key r.1))
  = length (filter (λ y, kf y ∈ key <$> l) k).
Proof.
  induction l as [|x l IH].
  - intros _. symmetry. apply length_zero_iff_nil, filter_nil_elem.
    intros y _. apply not_elem_of_nil.
  - rewrite fmap_cons. intros [Hx Hl]%list.NoDup_cons.
    rewrite inner_join_cons, length_app, length_fmap, IH by done. simpl.
    rewrite (length_filter_split (λ y, kf y ∈ key x :: (key <$> l))
               (λ y, kf y = key x)).
    f_equal; f_equal; apply filter_ext_elem; intros y _; simpl.
    + split; [|by intros [? _]]. intros E. split; [done|]. rewrite E. left.
    + rewrite elem_of_cons. split; [|tauto].
      intros Hin. split; [|by right]. intros E. by rewrite E in Hin.
Qed.

(** Under the primary key of [problems], a total of a division is a count of
    ascent rows. *)
Lemma total_flag_ascents db cid did (f : Ascent.t → bool) :
  problems_pkey db →
  count (filter (λ r, in_division cid did r.1 ∧ ascent_flag f r.2)
           (left_join (problems db) (ascents db)
              (λ r, Ascent.problem_id r.2 = Problem.id r.1)))
  = Z.of_nat
      (length (filter (λ a, on_division_problem db cid did a ∧ f a = true)
                 (ascents db))).
Proof.
  intros Hpk. unfold count. f_equal.
  rewrite (filter_flag_left_join
             (λ r, Ascent.problem_id r.2 = Problem.id r.1)), length_fmap.
  assert (filter (λ r, in_division cid did r.1 ∧ f r.2 = true)
            (inner_join (problems db) (ascents db)
               (λ r, Ascent.problem_id r.2 = Problem.id r.1))
          = inner_join (filter (in_division cid did) (problems db))
              (filter (λ a, f a = true) (ascents db))
              (λ r, Ascent.problem_id r.2 = Problem.id r.1)) as ->.
  { rewrite (inner_join_filter (λ r, Ascent.problem_id r.2 = Problem.id r.1)).
    by apply filter_ext_elem. }
  rewrite (length_inner_join_key Problem.id Ascent.problem_id).
  - rewrite list_filter_filter. f_equal. apply filter_ext_elem. intros a _.
    unfold on_division_problem.
    rewrite list.Exists_exists, list_elem_of_fmap.
    setoid_rewrite list_elem_of_filter. split.
    + intros [(p & E & ? & ?) ?]. split; [|done]. by exists p.
    + intros [(p & ? & E & ?) ?]. split; [|done]. by exists p.
  - eapply sublist_NoDup; [exact Hpk|]. apply fmap_sublist, sublist_filter.
Qed.

Lemma total_tops_ascents db cid did :
  problems_pkey db →
  total_tops db cid did
  = Z.of_nat
      (length (filter (λ a, on_division_problem db cid did a
                            ∧ Ascent.topped a = true) (ascents db))).
Proof. apply (total_flag_ascents db cid did Ascent.topped). Qed.

Lemma total_zones_ascents db cid did :
  problems_pkey db →
  total_zones db cid did
  = Z.of_nat
      (length (filter (λ a, on_division_problem db cid did a
                            ∧ Ascent.zone a = true) (ascents db))).
Proof. apply (total_flag_ascents db cid did Ascent.zone). Qed.

Section ascent_totals.
Context (db : Database) (userId id cid did : uuid) (body : AscentBody.t).
Context (f : Ascent.t → bool).
Hypothesis Hascents : ascents_pkey db.

Local Abbreviation a := (ascent_values id userId body).
Local Abbreviation db' := (set_ascents db (upsert_ascent a (ascents db))).

Lemma upsert_flag_count :
  (length (filter (λ b, on_division_problem db cid did b ∧ f b = true)
             (upsert_ascent a (ascents db)))
   + length (filter (λ b, on_division_problem db cid did b ∧ f b = true)
               (filter (λ b, ascent_key b = (id, userId)) (ascents db)))
   = length (filter (λ b, on_division_problem db cid did b ∧ f b = true)
               (ascents db))
     + length (filter (λ b, on_division_problem db cid did b ∧ f b = true)
                 [a]))%nat.
Proof.
  rewrite (length_filter_split
             (λ b, on_division_problem db cid did b ∧ f b = true)
             (λ b, ascent_key b = (id, userId)) (upsert_ascent a (ascents db))).
  rewrite (length_filter_split
             (λ b, on_division_problem db cid did b ∧ f b = true)
             (λ b, ascent_key b = (id, userId)) (ascents db)).
  assert (∀ l : list Ascent.t,
            filter (λ b, ¬ ascent_key b = (id, userId)
                         ∧ on_division_problem db cid did b ∧ f b = true) l
            = filter (λ b, on_division_problem db cid did b ∧ f b = true)
                (filter (λ b, ascent_key b ≠ (id, userId)) l)) as Hother.
  { intros l. rewrite list_filter_filter. apply filter_ext_elem.
    intros b _. tauto. }
  assert (∀ l : list Ascent.t,
            filter (λ b, ascent_key b = (id, userId)
                         ∧ on_division_problem db cid did b ∧ f b = true) l
            = filter (λ b, on_division_problem db cid did b ∧ f b = true)
                (filter (λ b, ascent_key b = (id, userId)) l)) as Hkey.
  { intros l. rewrite list_filter_filter. apply filter_ext_elem.
    intros b _. tauto. }
  rewrite !Hother, !Hkey.
  pose proof (upsert_ascent_filter_others a (ascents db)) as E1.
  pose proof (upsert_ascent_filter_key a (ascents db) Hascents) as E2.
  change (ascent_key a) with (id, userId) in E1, E2.
  rewrite E1, E2. lia.
Qed.
End ascent_totals.

(** X22: logging again never counts an ascent twice. Under the primary keys
    of [problems] and [ascents], when an ascent on a problem of a division
    is stored, the total_tops of the division changes by the new [topped]
    flag minus the flag of the row it replaces, if there was one, and
    likewise the total_zones; the totals of all other divisions stay as they
    were. *)
Theorem post_problem_ascents_totals db userId id body db' a cid did :
  problems_pkey db → ascents_pkey db →
  post_problem_ascents db (Some userId) id body = (db', Http.Ok a) →
  (problem_in_division db cid did id →
   total_tops db' cid did
   = total_tops db cid did
     - count_true Ascent.topped
         (filter (λ b, ascent_key b = (id, userId)) (ascents db))
     + (if Ascent.topped a then 1 else 0)
   ∧ total_zones db' cid did
     = total_zones db cid did
       - count_true Ascent.zone
           (filter (λ b, ascent_key b = (id, userId)) (ascents db))
       + (if Ascent.zone a then 1 else 0))
  ∧ (¬ problem_in_division db cid did id →
     total_tops db' cid did = total_tops db cid did
     ∧ total_zones db' cid did = total_zones db cid did).
Proof.
  intros Hpk Hak (? & [= <-] & _ & _ & -> & ->)%post_problem_ascents_ok.
  rewrite !total_tops_ascents, !total_zones_ascents by exact Hpk. simpl.
  change (on_division_problem (set_ascents db ?l) cid did)
    with (on_division_problem db cid did).
  change (on_division_problem_dec (set_ascents db ?l) cid did)
    with (on_division_problem_dec db cid did).
  pose proof (upsert_flag_count db userId id cid did body Ascent.topped Hak)
    as Htop.
  pose proof (upsert_flag_count db userId id cid did body Ascent.zone Hak)
    as Hzone.
  assert (∀ (f : Ascent.t → bool) b,
            ascent_key b = (id, userId) →
            (on_division_problem db cid did b ∧ f b = true)
            ↔ (problem_in_division db cid did id ∧ f b = true)) as Hrow.
  { intros f b [= E _]. unfold on_division_problem, problem_in_division.
    by rewrite E. }
  assert (∀ f : Ascent.t → bool,
            filter (λ b, on_division_problem db cid did b ∧ f b = true)
              (filter (λ b, ascent_key b = (id, userId)) (ascents db))
            = filter (λ b, problem_in_division db cid did id ∧ f b = true)
                (filter (λ b, ascent_key b = (id, userId)) (ascents db)))
    as Hold.
  { intros f. apply filter_ext_elem. intros b [Hb _]%list_elem_of_filter.
    by apply Hrow. }
  rewrite !Hold in Htop, Hzone.
  assert (∀ f : Ascent.t → bool,
            length (filter (λ b, on_division_problem db cid did b ∧ f b = true)
                      [ascent_values id userId body])
            = if decide (problem_in_division db cid did id)
              then if f (ascent_values id userId body) then 1%nat else 0%nat
              else 0%nat) as Hnew.
  { intros f. rewrite filter_cons, filter_nil.
    pose proof (Hrow f (ascent_values id userId body) eq_refl) as Ha.
    case_decide as Hd; rewrite Ha in Hd; case_decide as Hin;
      destruct (f (ascent_values id userId body));
      simpl; try done; exfalso; intuition congruence. }
  rewrite !Hnew in Htop, Hzone. unfold count_true. split.
  - intros Hin. rewrite decide_True in Htop, Hzone by done.
    rewrite (filter_ext_elem
               (λ b, problem_in_division db cid did id ∧ Ascent.topped b = true)
               (λ b, Ascent.topped b = true)) in Htop by (intros; tauto).
    rewrite (filter_ext_elem
               (λ b, problem_in_division db cid did id ∧ Ascent.zone b = true)
               (λ b, Ascent.zone b = true)) in Hzone by (intros; tauto).
    simpl in Htop, Hzone |- *.
    destruct (coalesce (AscentBody.topped body) false),
      (coalesce (AscentBody.zone body) false); lia.
  - intros Hout. rewrite decide_False in Htop, Hzone by done.
    rewrite (filter_nil_elem
               (λ b, problem_in_division db cid did id ∧ Ascent.topped b = true))
      in Htop by (intros ? _ [? _]; done).
    rewrite (filter_nil_elem
               (λ b, problem_in_division db cid did id ∧ Ascent.zone b = true))
      in Hzone by (intros ? _ [? _]; done).
    simpl in *. lia.
Qed.

Lemma post_problem_ascents_totals_witness :
  total_tops sample_db 10 20 = 5
  ∧ total_tops
      (post_problem_ascents sample_db (Some 1%N) 30%N
         (AscentBody.mk None (Some 4) (Some true) None)).1 10 20
    = 5 - count_true Ascent.topped
            (filter (λ b, ascent_key b = (30%N, 1%N)) (ascents sample_db))
      + (if Ascent.topped (Ascent.mk 30 1 false (Some 4) true None)
         then 1 else 0).
Proof.
  split; [vm_compute; reflexivity|].
  apply (post_problem_ascents_totals sample_db 1%N 30%N
           (AscentBody.mk None (Some 4) (Some true) None)
           (post_problem_ascents sample_db (Some 1%N) 30%N
              (AscentBody.mk None (Some 4) (Some true) None)).1
           (Ascent.mk 30 1 false (Some 4) true None) 10%N 20%N).
  - by_compute.
  - by_compute.
  - vm_compute. reflexivity.
  - by_compute.
Defined.

